(** * Helpdesk ticketing API

    A shallow embedding of the queue directory (queue.service.ts), the
    ticket lifecycle engine (ticket.service.ts), the Mongoose schemas
    (queue.model.ts, ticket.model.ts) and the ticket request handlers
    (ticket.controller.ts), followed by the properties of the
    specification that concern them.

    Collections are finite maps from [_id] to document.  Every service
    method is a computation in a state-and-error monad over the store:
    a rejected promise is [Err message], and the store that comes back
    with it records the writes made before the rejection. *)

From stdpp Require Import gmap strings list fin_maps sorting.

(** ** Identifiers, clock readings, roles *)

(** An ObjectId; the handlers only accept well-formed ones (isMongoId), so an
    id that is present is never the empty string and is therefore truthy. *)
Abbreviation Id := nat (only parsing).
(** The value of [new Date()] / [Date.now] read by an operation. *)
Abbreviation Time := nat (only parsing).

Inductive Role : Type := admin | agent | customer.

Global Instance Role_eq_dec : EqDecision Role.
Proof. solve_decision. Defined.

(** ** JavaScript helpers *)

(** A string is kept as the bytes of its UTF-8 encoding. *)
Definition bytes (s : string) : list N :=
  Ascii.N_of_ascii <$> String.list_ascii_of_string s.

Definition of_bytes (l : list N) : string :=
  String.string_of_list_ascii (Ascii.ascii_of_N <$> l).

(** A continuation byte of a UTF-8 sequence. *)
Definition continuation (b : N) : bool := ((128 <=? b) && (b <=? 191))%N.

(** The number of continuation bytes that a lead byte announces. *)
Definition announced (lead : N) : nat :=
  if ((194 <=? lead) && (lead <=? 223))%N then 1
  else if ((224 <=? lead) && (lead <=? 239))%N then 2
  else if ((240 <=? lead) && (lead <=? 244))%N then 3
  else 0.

(** The characters of a text: a lead byte with the continuation bytes it
    announces; a byte that starts no well-formed sequence is a character
    of its own.  Every step takes at least one byte, so the length of the
    text is fuel enough. *)
Fixpoint chars_fuel (fuel : nat) (l : list N) : list (list N) :=
  match fuel, l with
  | S fuel, lead :: rest =>
    let n := announced lead in
    if forallb continuation (take n rest) && (length (take n rest) =? n)
    then (lead :: take n rest) :: chars_fuel fuel (drop n rest)
    else [lead] :: chars_fuel fuel rest
  | _, _ => []
  end.

Definition chars (l : list N) : list (list N) := chars_fuel (length l) l.

(** The white space and the line terminators of ECMAScript: U+0009 to
    U+000D, U+0020, U+00A0, U+1680, U+2000 to U+200A, U+2028, U+2029,
    U+202F, U+205F, U+3000 and U+FEFF.  The last entry is the byte 160 on
    its own, which is U+00A0 in a text that was given in Latin-1. *)
Definition white_space : list (list N) :=
  [ [9]; [10]; [11]; [12]; [13]; [32]; [194; 160]; [225; 154; 128];
    [226; 128; 128]; [226; 128; 129]; [226; 128; 130]; [226; 128; 131];
    [226; 128; 132]; [226; 128; 133]; [226; 128; 134]; [226; 128; 135];
    [226; 128; 136]; [226; 128; 137]; [226; 128; 138];
    [226; 128; 168]; [226; 128; 169]; [226; 128; 175]; [226; 129; 159];
    [227; 128; 128]; [239; 187; 191];
    [160] ]%N.

Definition white (c : list N) : bool :=
  existsb (λ w, bool_decide (w = c)) white_space.

Fixpoint drop_while {A} (p : A → bool) (l : list A) : list A :=
  match l with
  | x :: l' => if p x then drop_while p l' else l
  | [] => []
  end.

(** [String.prototype.trimStart] and [String.prototype.trimEnd], on the
    characters of a text. *)
Definition trimStart (cs : list (list N)) : list (list N) :=
  drop_while white cs.

Definition trimEnd (cs : list (list N)) : list (list N) :=
  reverse (drop_while white (reverse cs)).

(** [String.prototype.trim], which the schema option [trim: true] applies. *)
Definition trim (s : string) : string :=
  of_bytes (concat (trimEnd (trimStart (chars (bytes s))))).

(** Truthiness of an optional string: [undefined] and [""] are falsy. *)
Definition truthy (o : option string) : bool :=
  match o with
  | Some s => negb (bool_decide (s = ""))
  | None => false
  end.

(** [x || d] on an optional string. *)
Definition or_else (o : option string) (d : string) : string :=
  match o with
  | Some s => if bool_decide (s = "") then d else s
  | None => d
  end.

(** [Array.prototype.includes] on strings. *)
Definition includes (l : list string) (x : string) : bool :=
  existsb (λ y, bool_decide (y = x)) l.

(** [Array.prototype.some]. *)
Definition some {A} (l : list A) (p : A → bool) : bool := existsb p l.

(** ** Documents (queue.model.ts, ticket.model.ts, user.model) *)

Record User : Type := {
  u_name : string;
  u_email : string;
  u_role : Role
}.

Record Queue : Type := {
  q_name : string;
  q_description : option string;
  q_isDefault : bool;
  q_createdAt : Time;
  q_updatedAt : Time
}.

Record Comment : Type := {
  c_content : string;
  c_author : Id;
  c_isInternal : bool;
  c_createdAt : Time
}.

Record Ticket : Type := {
  t_title : string;
  t_description : string;
  t_status : string;
  t_priority : string;
  t_customer : Id;
  t_assignee : option Id;
  t_queue : Id;
  t_comments : list Comment;
  t_tags : list string;
  t_createdAt : Time;
  t_updatedAt : Time;
  t_resolvedAt : option Time;
  t_closedAt : option Time
}.

Definition statuses : list string := ["new"; "open"; "pending"; "resolved"; "closed"].
Definition priorities : list string := ["low"; "medium"; "high"; "urgent"].

(** ** The store *)

(** The three collections, keyed by [_id], and the source of fresh
    ObjectIds. *)
Record Store : Type := {
  users : gmap Id User;
  queues : gmap Id Queue;
  tickets : gmap Id Ticket;
  next_id : Id
}.

Definition empty_store : Store :=
  {| users := ∅; queues := ∅; tickets := ∅; next_id := 0 |}.

Definition set_queues (f : gmap Id Queue → gmap Id Queue) (s : Store) : Store :=
  {| users := users s; queues := f (queues s); tickets := tickets s;
     next_id := next_id s |}.

Definition set_tickets (f : gmap Id Ticket → gmap Id Ticket) (s : Store) : Store :=
  {| users := users s; queues := queues s; tickets := f (tickets s);
     next_id := next_id s |}.

(** ** Promises over the store *)

Inductive Result (A : Type) : Type :=
| Ok (a : A)
| Err (message : string).
Arguments Ok {A} a.
Arguments Err {A} message.

Definition M (A : Type) : Type := Store → Result A * Store.

Global Instance M_ret : MRet M := λ A a s, (Ok a, s).
Global Instance M_bind : MBind M := λ A B k m s,
  match m s with
  | (Ok a, s') => k a s'
  | (Err e, s') => (Err e, s')
  end.

(** [throw new Error(msg)] *)
Definition throw {A} (msg : string) : M A := λ s, (Err msg, s).

(** [try { m } catch (error) { h error.message }] *)
Definition try_catch {A} (m : M A) (h : string → M A) : M A := λ s,
  match m s with
  | (Ok a, s') => (Ok a, s')
  | (Err e, s') => h e s'
  end.

(** The wrapper around every service method:
    [try { m } catch (error) { throw new Error(error.message) }]. *)
Definition rethrow {A} (m : M A) : M A := try_catch m throw.

Definition get_store : M Store := λ s, (Ok s, s).
Definition modify (f : Store → Store) : M unit := λ s, (Ok (), f s).

(** [new ObjectId()] *)
Definition new_id : M Id := λ s,
  (Ok (next_id s),
   {| users := users s; queues := queues s; tickets := tickets s;
      next_id := S (next_id s) |}).

(** * Queue directory (queue.service.ts) *)

Record QueueData : Type := {
  qd_name : string;
  qd_description : option string;
  qd_isDefault : option bool
}.

Record QueuePatch : Type := {
  qp_name : option string;
  qp_description : option string;
  qp_isDefault : option bool
}.

(** A queue as the service returns it: the document with its [_id]. *)
Abbreviation IQueue := (Id * Queue)%type (only parsing).

(** The unique index on [name]: is there a document with this name? *)
Definition name_taken (name : string) (qs : gmap Id Queue) : bool :=
  existsb (λ kv : Id * Queue, bool_decide (q_name kv.2 = name)) (map_to_list qs).

Definition unset_default (now : Time) (q : Queue) : Queue :=
  if q_isDefault q
  then {| q_name := q_name q; q_description := q_description q;
          q_isDefault := false;
          q_createdAt := q_createdAt q; q_updatedAt := now |}
  else q.

(** [Queue.updateMany({ isDefault: true }, { $set: { isDefault: false } })] *)
Definition Queue_updateMany_unset_default (now : Time) : M unit :=
  modify (set_queues (fmap (unset_default now))).

(** [new Queue(queueData)] followed by [queue.save()]: the setters and
    defaults of the schema, the [required] validator on [name], then the
    insert, which the unique index on [name] can refuse. *)
Definition Queue_save (now : Time) (queueData : QueueData) : M IQueue :=
  let name := trim (qd_name queueData) in
  if bool_decide (name = "")
  then throw "Queue validation failed: name: Path `name` is required."
  else
    s ← get_store;
    if name_taken name (queues s)
    then throw "E11000 duplicate key error collection: queues index: name_1"
    else
      i ← new_id;
      let queue := {| q_name := name;
                      q_description := trim <$> qd_description queueData;
                      q_isDefault := default false (qd_isDefault queueData);
                      q_createdAt := now; q_updatedAt := now |} in
      modify (set_queues <[i := queue]>) ;;
      mret (i, queue).

Definition Queue_findById (queueId : Id) : M (option IQueue) :=
  s ← get_store;
  mret ((λ q, (queueId, q)) <$> queues s !! queueId).

(** [Queue.findOne({ isDefault: true })] *)
Definition Queue_findOne_default : M (option IQueue) :=
  s ← get_store;
  mret (find (λ kv : Id * Queue, q_isDefault kv.2) (map_to_list (queues s))).

(** [$set: queueData] on one queue; a key whose value is [undefined] is
    not part of the update. *)
Definition apply_queue_patch (now : Time) (p : QueuePatch) (q : Queue) : Queue :=
  {| q_name := from_option trim (q_name q) (qp_name p);
     q_description :=
       match qp_description p with
       | Some d => Some (trim d)
       | None => q_description q
       end;
     q_isDefault := default (q_isDefault q) (qp_isDefault p);
     q_createdAt := q_createdAt q;
     q_updatedAt := now |}.

(** [Queue.findByIdAndUpdate(queueId, { $set: queueData }, { new: true })] *)
Definition Queue_findByIdAndUpdate (now : Time) (queueId : Id) (p : QueuePatch)
  : M (option IQueue) :=
  s ← get_store;
  match queues s !! queueId with
  | None => mret None
  | Some q =>
    if match qp_name p with
       | Some n => name_taken (trim n) (delete queueId (queues s))
       | None => false
       end
    then throw "E11000 duplicate key error collection: queues index: name_1"
    else
      let q' := apply_queue_patch now p q in
      modify (set_queues <[queueId := q']>) ;;
      mret (Some (queueId, q'))
  end.

(** [Queue.findByIdAndDelete(queueId)] *)
Definition Queue_findByIdAndDelete (queueId : Id) : M unit :=
  modify (set_queues (delete queueId)).

(** What [deleteQueue] resolves to. *)
Record DeleteResult : Type := { success : bool; message : string }.

(** Ascending by name, as the database compares strings: code unit by
    code unit. *)
Definition by_name (a b : Id * Queue) : Prop :=
  String.le (q_name a.2) (q_name b.2).

Global Instance by_name_dec a b : Decision (by_name a b).
Proof. unfold by_name. apply _. Defined.

(** ** class QueueService *)

Module QueueService.

Definition createQueue (now : Time) (queueData : QueueData) : M IQueue :=
  rethrow (
    (* If this queue is set as default, unset any existing default queue *)
    (if default false (qd_isDefault queueData)
     then Queue_updateMany_unset_default now
     else mret ()) ;;
    Queue_save now queueData).

Definition getQueueById (queueId : Id) : M IQueue :=
  rethrow (
    queue ← Queue_findById queueId;
    match queue with
    | None => throw "Queue not found"
    | Some queue => mret queue
    end).

Definition updateQueue (now : Time) (queueId : Id) (queueData : QueuePatch)
  : M IQueue :=
  rethrow (
    (* If this queue is being set as default, unset any existing default queue *)
    (if default false (qp_isDefault queueData)
     then Queue_updateMany_unset_default now
     else mret ()) ;;
    updatedQueue ← Queue_findByIdAndUpdate now queueId queueData;
    match updatedQueue with
    | None => throw "Queue not found"
    | Some updatedQueue => mret updatedQueue
    end).

Definition deleteQueue (queueId : Id) : M DeleteResult :=
  rethrow (
    queue ← getQueueById queueId;
    if q_isDefault queue.2
    then throw "Cannot delete the default queue"
    else
      Queue_findByIdAndDelete queueId ;;
      mret {| success := true; message := "Queue deleted successfully" |}).

Definition getDefaultQueue : M IQueue :=
  rethrow (
    defaultQueue ← Queue_findOne_default;
    match defaultQueue with
    | None => throw "No default queue found"
    | Some defaultQueue => mret defaultQueue
    end).

(** [Queue.find().sort({ name: 1 })] *)
Definition getAllQueues : M (list IQueue) :=
  rethrow (
    s ← get_store;
    mret (merge_sort by_name (map_to_list (queues s)))).

End QueueService.

(** * Ticket lifecycle engine (ticket.service.ts) *)

(** ** Update documents *)

(** A JSON value as it appears as the operand of an update operator. *)
#[warnings="-register-all"]
Inductive Json : Type :=
| JStr (s : string)
| JArr (items : list Json)
| JObj (fields : list (string * Json)).

(** The fields of a ticket that a caller can name, each one optional:
    [Partial<ITicket>] when the status is a string ([TicketPatch]), the
    operand of [$set] when the status is an arbitrary JSON value
    ([TicketSet]).  [createdAt], [updatedAt] and [_id] are managed by the
    schema and are left out.  [p_other] lists keys that are not paths of
    the schema; strict mode drops them from an update.  Every value is of
    the type that [ITicket] declares for its key: [null], which a JSON
    body can carry in the place of a value, and keys with a dot are not
    represented. *)
Record TicketFields (S : Type) : Type := {
  p_title : option string;
  p_description : option string;
  p_status : option S;
  p_priority : option string;
  p_customer : option Id;
  p_assignee : option Id;
  p_queue : option Id;
  p_comments : option (list Comment);
  p_tags : option (list string);
  p_resolvedAt : option Time;
  p_closedAt : option Time;
  p_other : list string
}.
Arguments p_title {S} _.
Arguments p_description {S} _.
Arguments p_status {S} _.
Arguments p_priority {S} _.
Arguments p_customer {S} _.
Arguments p_assignee {S} _.
Arguments p_queue {S} _.
Arguments p_comments {S} _.
Arguments p_tags {S} _.
Arguments p_resolvedAt {S} _.
Arguments p_closedAt {S} _.
Arguments p_other {S} _.

Abbreviation TicketPatch := (TicketFields string) (only parsing).
Abbreviation TicketSet := (TicketFields Json) (only parsing).

(** [{ $set: ticketData }] for a typed patch: every value is a literal. *)
Definition set_of_patch (p : TicketPatch) : TicketSet :=
  {| p_title := p_title p; p_description := p_description p;
     p_status := JStr <$> p_status p; p_priority := p_priority p;
     p_customer := p_customer p; p_assignee := p_assignee p;
     p_queue := p_queue p; p_comments := p_comments p; p_tags := p_tags p;
     p_resolvedAt := p_resolvedAt p; p_closedAt := p_closedAt p;
     p_other := p_other p |}.

(** [delete ticketData.comments] *)
Definition delete_comments (p : TicketPatch) : TicketPatch :=
  {| p_title := p_title p; p_description := p_description p;
     p_status := p_status p; p_priority := p_priority p;
     p_customer := p_customer p; p_assignee := p_assignee p;
     p_queue := p_queue p; p_comments := None; p_tags := p_tags p;
     p_resolvedAt := p_resolvedAt p; p_closedAt := p_closedAt p;
     p_other := p_other p |}.

(** [ticketData.resolvedAt = new Date()] *)
Definition with_resolvedAt (now : Time) (p : TicketPatch) : TicketPatch :=
  {| p_title := p_title p; p_description := p_description p;
     p_status := p_status p; p_priority := p_priority p;
     p_customer := p_customer p; p_assignee := p_assignee p;
     p_queue := p_queue p; p_comments := p_comments p; p_tags := p_tags p;
     p_resolvedAt := Some now; p_closedAt := p_closedAt p;
     p_other := p_other p |}.

(** [ticketData.closedAt = new Date()] *)
Definition with_closedAt (now : Time) (p : TicketPatch) : TicketPatch :=
  {| p_title := p_title p; p_description := p_description p;
     p_status := p_status p; p_priority := p_priority p;
     p_customer := p_customer p; p_assignee := p_assignee p;
     p_queue := p_queue p; p_comments := p_comments p; p_tags := p_tags p;
     p_resolvedAt := p_resolvedAt p; p_closedAt := Some now;
     p_other := p_other p |}.

(** The cast of a [$set] operand to a path of schema type String: a
    string is taken as it is; an array or an object has no string form,
    and the update is refused before it reaches the database.  An
    operator expression such as [{ $cond: ... }] is such an object: only
    an update written as an aggregation pipeline evaluates it.  The
    wording of the driver's error is not modelled. *)
Definition castString (path : string) (v : Json) : Result string :=
  match v with
  | JStr s => Ok s
  | JArr _ | JObj _ => Err ("Cast to string failed at path " +:+ path)
  end.

(** The cast of the operand that an update carries for [status]. *)
Definition cast_status (u : TicketSet) : Result (option string) :=
  match p_status u with
  | Some v =>
    match castString "status" v with
    | Ok s => Ok (Some s)
    | Err e => Err e
    end
  | None => Ok None
  end.

(** [$set] on one ticket, once the operands are cast; the [timestamps]
    option of the schema stamps [updatedAt]. *)
Definition apply_set (now : Time) (status : option string) (u : TicketSet)
    (t : Ticket) : Ticket :=
  {| t_title := from_option trim (t_title t) (p_title u);
     t_description := default (t_description t) (p_description u);
     t_status := default (t_status t) status;
     t_priority := default (t_priority t) (p_priority u);
     t_customer := default (t_customer t) (p_customer u);
     t_assignee :=
       match p_assignee u with Some a => Some a | None => t_assignee t end;
     t_queue := default (t_queue t) (p_queue u);
     t_comments := default (t_comments t) (p_comments u);
     t_tags := default (t_tags t) (p_tags u);
     t_createdAt := t_createdAt t;
     t_updatedAt := now;
     t_resolvedAt :=
       match p_resolvedAt u with Some d => Some d | None => t_resolvedAt t end;
     t_closedAt :=
       match p_closedAt u with Some d => Some d | None => t_closedAt t end |}.

(** [$push: { comments: commentData }] on one ticket. *)
Definition apply_push (now : Time) (c : Comment) (t : Ticket) : Ticket :=
  {| t_title := t_title t; t_description := t_description t;
     t_status := t_status t; t_priority := t_priority t;
     t_customer := t_customer t; t_assignee := t_assignee t;
     t_queue := t_queue t;
     t_comments := t_comments t ++ [c];
     t_tags := t_tags t;
     t_createdAt := t_createdAt t; t_updatedAt := now;
     t_resolvedAt := t_resolvedAt t; t_closedAt := t_closedAt t |}.

(** ** Populated tickets *)

(** [populate('customer', 'name email')]: the summary of the referenced
    user, or [null] when the reference resolves to no user. *)
Record UserSummary : Type := {
  us_id : Id;
  us_name : string;
  us_email : string
}.

(** A ticket as the service returns it.  The assignee, the queue and the
    comment authors are populated the same way as the customer; no
    handler reads them, and the document keeps the references. *)
Record ITicket : Type := {
  tk_id : Id;
  tk_doc : Ticket;
  tk_customer : option UserSummary
}.

Definition populate (s : Store) (i : Id) (t : Ticket) : ITicket :=
  {| tk_id := i; tk_doc := t;
     tk_customer :=
       (λ u, {| us_id := t_customer t; us_name := u_name u;
                us_email := u_email u |}) <$> users s !! t_customer t |}.

(** [Ticket.findById(ticketId)] *)
Definition Ticket_findById (ticketId : Id) : M (option Ticket) :=
  s ← get_store;
  mret (tickets s !! ticketId).

(** [Ticket.findById(ticketId).populate(...)] *)
Definition Ticket_findById_populated (ticketId : Id) : M (option ITicket) :=
  s ← get_store;
  mret (populate s ticketId <$> tickets s !! ticketId).

(** [Ticket.findByIdAndUpdate(ticketId, { $set: u }, { new: true })
      .populate(...)] *)
Definition Ticket_findByIdAndUpdate_set (now : Time) (ticketId : Id)
    (u : TicketSet) : M (option ITicket) :=
  match cast_status u with
  | Err e => throw e
  | Ok status =>
    s ← get_store;
    match tickets s !! ticketId with
    | None => mret None
    | Some t =>
      let t' := apply_set now status u t in
      modify (set_tickets <[ticketId := t']>) ;;
      mret (Some (populate s ticketId t'))
    end
  end.

(** [Ticket.findByIdAndUpdate(ticketId, { $push: { comments: c } },
      { new: true }).populate(...)] *)
Definition Ticket_findByIdAndUpdate_push (now : Time) (ticketId : Id)
    (c : Comment) : M (option ITicket) :=
  s ← get_store;
  match tickets s !! ticketId with
  | None => mret None
  | Some t =>
    let t' := apply_push now c t in
    modify (set_tickets <[ticketId := t']>) ;;
    mret (Some (populate s ticketId t'))
  end.

(** ** Creating a document *)

(** [new Ticket({...})] followed by [ticket.save()]: the schema supplies
    the defaults ([status: 'new'], no comments, no assignee, no
    resolution or closing date), trims the title and validates the
    required paths and the priority; the result is the new [_id]. *)
Definition Ticket_save (now : Time) (title description priority : string)
    (customer : Id) (queue : option Id) (tags : list string) : M Id :=
  match queue with
  | None => throw "Ticket validation failed: queue: Path `queue` is required."
  | Some queue =>
    if bool_decide (trim title = "")
    then throw "Ticket validation failed: title: Path `title` is required."
    else if bool_decide (description = "")
    then throw "Ticket validation failed: description: Path `description` is required."
    else if negb (includes priorities priority)
    then throw "Ticket validation failed: priority: not a valid enum value."
    else
      i ← new_id;
      modify (set_tickets <[i :=
        {| t_title := trim title; t_description := description;
           t_status := "new"; t_priority := priority;
           t_customer := customer; t_assignee := None; t_queue := queue;
           t_comments := []; t_tags := tags;
           t_createdAt := now; t_updatedAt := now;
           t_resolvedAt := None; t_closedAt := None |}]>) ;;
      mret i
  end.

(** ** Listing *)

Inductive OneOrMany : Type :=
| One (s : string)
| Many (l : list string).

Record TicketFilters : Type := {
  f_status : option OneOrMany;
  f_priority : option OneOrMany;
  f_queue : option Id;
  f_assignee : option Id;
  f_customer : option Id;
  f_search : option string;
  f_page : option nat;
  f_limit : option nat
}.

Record TicketsPage : Type := {
  r_tickets : list ITicket;
  r_total : nat;
  r_page : nat;
  r_pages : nat
}.

(** The condition on a string path: absent or empty means no condition,
    a string means equality, an array means [$in]. *)
Definition match_field (c : option OneOrMany) (v : string) : bool :=
  match c with
  | None => true
  | Some (One s) => if bool_decide (s = "") then true else bool_decide (v = s)
  | Some (Many l) => includes l v
  end.

(** The condition on a reference path. *)
Definition match_ref (c : option Id) (v : option Id) : bool :=
  match c with
  | None => true
  | Some i => bool_decide (v = Some i)
  end.

(** [Math.ceil(total / limit)] for a positive [limit]. *)
Definition ceil_div (total limit : nat) : nat := (total + limit - 1) / limit.

(** Newest first. *)
Definition newer_first (a b : ITicket) : Prop :=
  t_createdAt (tk_doc b) ≤ t_createdAt (tk_doc a).

Global Instance newer_first_dec a b : Decision (newer_first a b).
Proof. unfold newer_first. apply _. Defined.

(** ** class TicketService *)

Module TicketService.

Record TicketData : Type := {
  d_title : string;
  d_description : string;
  d_priority : option string;
  d_customer : Id;
  d_queue : option Id;
  d_tags : option (list string)
}.

Record CommentData : Type := {
  cd_content : string;
  cd_author : Id;
  cd_isInternal : option bool
}.

Definition getTicketById (ticketId : Id) : M ITicket :=
  rethrow (
    ticket ← Ticket_findById_populated ticketId;
    match ticket with
    | None => throw "Ticket not found"
    | Some ticket => mret ticket
    end).

(** The tests [defaultQueue && defaultQueue._id] and [ticket && ticket._id]
    of the source hold for every document that a query or a save returns,
    so their else branches are not represented. *)
Definition createTicket (now : Time) (ticketData : TicketData) : M ITicket :=
  rethrow (
    (* If queue is not specified, use the default queue *)
    queue ←
      match d_queue ticketData with
      | Some queue => mret (Some queue)
      | None =>
        try_catch
          (defaultQueue ← QueueService.getDefaultQueue;
           mret (Some defaultQueue.1))
          (λ _,
           (* If no default queue exists, create a general queue and set it
              as default *)
           generalQueue ← QueueService.createQueue now
             {| qd_name := "General";
                qd_description := Some "Default queue for all tickets";
                qd_isDefault := Some true |};
           mret (Some generalQueue.1))
      end;
    ticket ← Ticket_save now
      (d_title ticketData) (d_description ticketData)
      (or_else (d_priority ticketData) "medium")
      (d_customer ticketData) queue
      (default [] (d_tags ticketData));
    getTicketById ticket).

Section Listing.

(** [regex_valid pattern]: whether the database compiles [pattern] as a
    regular expression.  A query whose [$regex] does not compile is
    refused as a whole, whatever the collection holds; the wording of the
    error is not modelled. *)
Variable regex_valid : string → bool.

(** [regex_i pattern text]: the database's [$regex] with [$options: 'i'],
    for a pattern that compiles. *)
Variable regex_i : string → string → bool.

(** The query that [getTickets] builds from the filters. *)
Definition matches (filters : TicketFilters) (t : Ticket) : bool :=
  match_field (f_status filters) (t_status t)
  && match_field (f_priority filters) (t_priority t)
  && match_ref (f_queue filters) (Some (t_queue t))
  && match_ref (f_assignee filters) (t_assignee t)
  && match_ref (f_customer filters) (Some (t_customer t))
  && (if truthy (f_search filters)
      then regex_i (default "" (f_search filters)) (t_title t)
           || regex_i (default "" (f_search filters)) (t_description t)
      else true).

(** Whether the database accepts the query that [getTickets] builds. *)
Definition query_compiles (filters : TicketFilters) : bool :=
  if truthy (f_search filters)
  then regex_valid (default "" (f_search filters))
  else true.

(** [Ticket.find(query)] with the references populated, for a query that
    the database accepts. *)
Definition Ticket_find (filters : TicketFilters) (s : Store) : list ITicket :=
  (λ kv : Id * Ticket, populate s kv.1 kv.2)
    <$> filter (λ kv : Id * Ticket, matches filters kv.2 = true)
               (map_to_list (tickets s)).

(** [page] and [limit] are natural numbers, as the handler's [isInt]
    validation admits them; [filters.page || 1] and [filters.limit || 10]
    replace an absent value and 0. *)
Definition getTickets (filters : TicketFilters) : M TicketsPage :=
  rethrow (
    let page := match f_page filters with Some (S p) => S p | _ => 1 end in
    let limit := match f_limit filters with Some (S l) => S l | _ => 10 end in
    let skip := (page - 1) * limit in
    s ← get_store;
    (* Get total count *)
    total ←
      (if query_compiles filters
       then mret (length (Ticket_find filters s))
       else throw "Regular expression is invalid");
    (* Get tickets with pagination *)
    let tickets :=
      take limit (drop skip (merge_sort newer_first (Ticket_find filters s))) in
    mret {| r_tickets := tickets; r_total := total; r_page := page;
            r_pages := ceil_div total limit |}).

End Listing.

Definition updateTicket (now : Time) (ticketId : Id) (ticketData : TicketPatch)
  : M ITicket :=
  rethrow (
    (* Don't allow updating comments through this method *)
    let ticketData :=
      match p_comments ticketData with
      | Some _ => delete_comments ticketData
      | None => ticketData
      end in
    (* Handle status transitions *)
    ticketData ←
      (if truthy (p_status ticketData)
       then
         currentTicket ← Ticket_findById ticketId;
         match currentTicket with
         | None => throw "Ticket not found"
         | Some currentTicket =>
           (* Set resolved timestamp when status changes to resolved *)
           let ticketData :=
             if bool_decide (p_status ticketData = Some "resolved")
                && negb (bool_decide (t_status currentTicket = "resolved"))
             then with_resolvedAt now ticketData else ticketData in
           (* Set closed timestamp when status changes to closed *)
           let ticketData :=
             if bool_decide (p_status ticketData = Some "closed")
                && negb (bool_decide (t_status currentTicket = "closed"))
             then with_closedAt now ticketData else ticketData in
           mret ticketData
         end
       else mret ticketData);
    updatedTicket ←
      Ticket_findByIdAndUpdate_set now ticketId (set_of_patch ticketData);
    match updatedTicket with
    | None => throw "Ticket not found"
    | Some updatedTicket => mret updatedTicket
    end).

Definition addComment (now : Time) (ticketId : Id) (comment : CommentData)
  : M ITicket :=
  rethrow (
    let commentData :=
      {| c_content := cd_content comment;
         c_author := cd_author comment;
         c_isInternal := default false (cd_isInternal comment);
         c_createdAt := now |} in
    updatedTicket ← Ticket_findByIdAndUpdate_push now ticketId commentData;
    match updatedTicket with
    | None => throw "Ticket not found"
    | Some updatedTicket => mret updatedTicket
    end).

(** The operand that [assignTicket] hands to [$set] for [status]:
    [{ $cond: [{ $eq: ["$status", "new"] }, "open", "$status"] }]. *)
Definition status_cond : Json :=
  JObj [("$cond",
         JArr [JObj [("$eq", JArr [JStr "$status"; JStr "new"])];
               JStr "open";
               JStr "$status"])].

Definition assignTicket (now : Time) (ticketId assigneeId : Id) : M ITicket :=
  rethrow (
    updatedTicket ←
      Ticket_findByIdAndUpdate_set now ticketId
        {| p_title := None; p_description := None;
           (* If the ticket is new, update status to open when assigned *)
           p_status := Some status_cond;
           p_priority := None; p_customer := None;
           p_assignee := Some assigneeId;
           p_queue := None; p_comments := None; p_tags := None;
           p_resolvedAt := None; p_closedAt := None; p_other := [] |};
    match updatedTicket with
    | None => throw "Ticket not found"
    | Some updatedTicket => mret updatedTicket
    end).

Definition moveToQueue (now : Time) (ticketId queueId : Id) : M ITicket :=
  rethrow (
    (* Verify queue exists *)
    QueueService.getQueueById queueId ;;
    updatedTicket ←
      Ticket_findByIdAndUpdate_set now ticketId
        {| p_title := None; p_description := None; p_status := None;
           p_priority := None; p_customer := None; p_assignee := None;
           p_queue := Some queueId;
           p_comments := None; p_tags := None;
           p_resolvedAt := None; p_closedAt := None; p_other := [] |};
    match updatedTicket with
    | None => throw "Ticket not found"
    | Some updatedTicket => mret updatedTicket
    end).

End TicketService.

(** * Request handlers (ticket.controller.ts) *)

(** [req.user], set by the [authenticate] middleware. *)
Record Actor : Type := {
  a_id : Id;
  a_role : Role
}.

Inductive ResBody : Type :=
| body_ticket (ticket : ITicket)
| body_page (result : TicketsPage)
| body_message (message : string)
| body_errors (errors : list string).

(** [res.status(code).json(body)] *)
Record Response : Type := {
  res_status : nat;
  res_body : ResBody
}.

Definition json (code : nat) (b : ResBody) : M Response :=
  mret {| res_status := code; res_body := b |}.

(** [req.user?.role === 'customer'] *)
Definition is_customer (user : option Actor) : bool :=
  match user with
  | Some u => bool_decide (a_role u = customer)
  | None => false
  end.

(** [ticket.customer && typeof ticket.customer === 'object' &&
     ticket.customer._id && req.user._id &&
     ticket.customer._id.toString() !== req.user._id.toString()] *)
Definition other_customer (ticket : ITicket) (user : option Actor) : bool :=
  match tk_customer ticket, user with
  | Some c, Some u => negb (bool_decide (us_id c = a_id u))
  | _, _ => false
  end.

(** The name of a key of the request body, when the key is present. *)
Definition key {A} (name : string) (o : option A) : list string :=
  match o with
  | Some _ => [name]
  | None => []
  end.

(** [Object.keys(req.body)] *)
Definition keys (body : TicketPatch) : list string :=
  key "title" (p_title body) ++ key "description" (p_description body)
  ++ key "status" (p_status body) ++ key "priority" (p_priority body)
  ++ key "customer" (p_customer body) ++ key "assignee" (p_assignee body)
  ++ key "queue" (p_queue body) ++ key "comments" (p_comments body)
  ++ key "tags" (p_tags body) ++ key "resolvedAt" (p_resolvedAt body)
  ++ key "closedAt" (p_closedAt body) ++ p_other body.

(** [optional().isIn(values)] *)
Definition optional_isIn (field : string) (values : list string)
    (o : option string) : list string :=
  match o with
  | Some v => if includes values v then [] else [field +:+ ": Invalid value"]
  | None => []
  end.

Module TicketController.

Record CommentBody : Type := {
  b_content : option string;
  b_isInternal : option bool
}.

(** The validation chains; each returns the errors that
    [validationResult(req)] collects.  A chain on a key whose value the
    body types already guarantee (an array of tags, a boolean flag, an
    ObjectId) reports nothing. *)
Definition updateTicketValidation (body : TicketPatch) : list string :=
  optional_isIn "status" statuses (p_status body)
  ++ optional_isIn "priority" priorities (p_priority body).

Definition addCommentValidation (body : CommentBody) : list string :=
  if truthy (b_content body) then [] else ["Comment content is required"].

Definition getTicketsValidation (query : TicketFilters) : list string :=
  match f_page query with
  | Some p => if bool_decide (1 ≤ p) then [] else ["page: Invalid value"]
  | None => []
  end
  ++
  match f_limit query with
  | Some l =>
    if bool_decide (1 ≤ l ≤ 50) then [] else ["limit: Invalid value"]
  | None => []
  end.

Definition with_customer (customer : Id) (f : TicketFilters) : TicketFilters :=
  {| f_status := f_status f; f_priority := f_priority f;
     f_queue := f_queue f; f_assignee := f_assignee f;
     f_customer := Some customer;
     f_search := f_search f; f_page := f_page f; f_limit := f_limit f |}.

Section Listing.

Variable regex_valid : string → bool.
Variable regex_i : string → string → bool.

Definition getTickets (user : option Actor) (query : TicketFilters)
  : M Response :=
  try_catch (
    match getTicketsValidation query with
    | (_ :: _) as errors => json 400 (body_errors errors)
    | [] =>
      (* If user is a customer, they can only see their own tickets *)
      let filters :=
        match user with
        | Some u =>
          if bool_decide (a_role u = customer)
          then with_customer (a_id u) query else query
        | None => query
        end in
      result ← TicketService.getTickets regex_valid regex_i filters;
      json 200 (body_page result)
    end)
    (λ e, json 500 (body_message e)).

End Listing.

Definition getTicketById (user : option Actor) (id : Id) : M Response :=
  try_catch (
    ticket ← TicketService.getTicketById id;
    (* Check if user has access to this ticket *)
    if is_customer user && other_customer ticket user
    then json 403 (body_message "Not authorized to access this ticket")
    else json 200 (body_ticket ticket))
    (λ e, json 404 (body_message e)).

Definition updateTicket (now : Time) (user : option Actor) (id : Id)
    (body : TicketPatch) : M Response :=
  try_catch (
    match updateTicketValidation body with
    | (_ :: _) as errors => json 400 (body_errors errors)
    | [] =>
      (* Get the existing ticket to verify permissions *)
      existingTicket ← TicketService.getTicketById id;
      (* Customers can only update their own tickets and only some fields *)
      match
        if is_customer user
        then
          if other_customer existingTicket user
          then Some "Not authorized to update this ticket"
          else
            (* Customers can only update certain fields *)
            let allowedUpdates := ["title"; "description"] in
            let requestedUpdates := keys body in
            let hasDisallowedUpdates :=
              some requestedUpdates
                   (λ update, negb (includes allowedUpdates update)) in
            if hasDisallowedUpdates
            then Some "Customers can only update title and description"
            else None
        else None
      with
      | Some refusal => json 403 (body_message refusal)
      | None =>
        ticket ← TicketService.updateTicket now id body;
        json 200 (body_ticket ticket)
      end
    end)
    (λ e, json 500 (body_message e)).

Definition addComment (now : Time) (user : option Actor) (id : Id)
    (body : CommentBody) : M Response :=
  try_catch (
    match addCommentValidation body with
    | (_ :: _) as errors => json 400 (body_errors errors)
    | [] =>
      match user with
      | None => json 401 (body_message "Not authenticated")
      | Some u =>
        (* Customers can't create internal comments *)
        if bool_decide (a_role u = customer) && default false (b_isInternal body)
        then json 403
               (body_message "Customers cannot create internal comments")
        else
          (* Verify the ticket exists and user has access *)
          ticket ← TicketService.getTicketById id;
          if bool_decide (a_role u = customer) && other_customer ticket user
          then json 403
                 (body_message "Not authorized to comment on this ticket")
          else
            updatedTicket ← TicketService.addComment now id
              {| TicketService.cd_content := default "" (b_content body);
                 TicketService.cd_author := a_id u;
                 TicketService.cd_isInternal := b_isInternal body |};
            json 200 (body_ticket updatedTicket)
      end
    end)
    (λ e, json 500 (body_message e)).

(** The body of POST /api/tickets; the handler reads these five keys and
    no other. *)
Record CreateBody : Type := {
  cb_title : option string;
  cb_description : option string;
  cb_priority : option string;
  cb_queue : option Id;
  cb_tags : option (list string)
}.

Definition createTicketValidation (body : CreateBody) : list string :=
  (if truthy (cb_title body) then [] else ["Title is required"])
  ++ (if truthy (cb_description body) then [] else ["Description is required"])
  ++ optional_isIn "priority" priorities (cb_priority body).

Definition createTicket (now : Time) (user : option Actor) (body : CreateBody)
  : M Response :=
  try_catch (
    match createTicketValidation body with
    | (_ :: _) as errors => json 400 (body_errors errors)
    | [] =>
      (* Use the authenticated user ID as the customer *)
      match user with
      | None => json 401 (body_message "Not authenticated")
      | Some u =>
        ticket ← TicketService.createTicket now
          {| TicketService.d_title := default "" (cb_title body);
             TicketService.d_description := default "" (cb_description body);
             TicketService.d_priority := cb_priority body;
             TicketService.d_customer := a_id u;
             TicketService.d_queue := cb_queue body;
             TicketService.d_tags := cb_tags body |};
        json 201 (body_ticket ticket)
      end
    end)
    (λ e, json 500 (body_message e)).

(** [body('assigneeId').notEmpty().isMongoId()]: the id has to be there. *)
Definition assignTicketValidation (assigneeId : option Id) : list string :=
  match assigneeId with
  | Some _ => []
  | None => ["Assignee ID is required"]
  end.

Definition assignTicket (now : Time) (id : Id) (assigneeId : option Id)
  : M Response :=
  try_catch (
    match assignTicketValidation assigneeId, assigneeId with
    | [], Some assigneeId =>
      ticket ← TicketService.assignTicket now id assigneeId;
      json 200 (body_ticket ticket)
    | errors, _ => json 400 (body_errors errors)
    end)
    (λ e, json 500 (body_message e)).

(** [body('queueId').notEmpty().isMongoId()] *)
Definition moveTicketQueueValidation (queueId : option Id) : list string :=
  match queueId with
  | Some _ => []
  | None => ["Queue ID is required"]
  end.

Definition moveTicketQueue (now : Time) (id : Id) (queueId : option Id)
  : M Response :=
  try_catch (
    match moveTicketQueueValidation queueId, queueId with
    | [], Some queueId =>
      ticket ← TicketService.moveToQueue now id queueId;
      json 200 (body_ticket ticket)
    | errors, _ => json 400 (body_errors errors)
    end)
    (λ e, json 500 (body_message e)).

End TicketController.

(** * Role gate (auth.middleware.ts) and routes *)

Definition role_name (r : Role) : string :=
  match r with
  | admin => "admin"
  | agent => "agent"
  | customer => "customer"
  end.

(** [authorizeRoles(...roles)]: the refusal that the middleware sends, or
    [None] when it calls [next()]. *)
Definition authorizeRoles (roles : list Role) (user : option Actor)
  : option (nat * string) :=
  match user with
  | None => Some (401, "Authentication required")
  | Some u =>
    if bool_decide (a_role u ∈ roles)
    then None
    else Some (403, "Role " +:+ role_name (a_role u)
                    +:+ " is not authorized to access this resource")
  end.

(** The two ticket routes that carry a role gate (ticket.routes.ts). *)
Module TicketRoutes.

(** PUT /:id/assign *)
Definition put_assign (now : Time) (user : option Actor) (id : Id)
    (assigneeId : option Id) : M Response :=
  match authorizeRoles [admin; agent] user with
  | Some (code, message) => json code (body_message message)
  | None => TicketController.assignTicket now id assigneeId
  end.

(** PUT /:id/queue *)
Definition put_queue (now : Time) (user : option Actor) (id : Id)
    (queueId : option Id) : M Response :=
  match authorizeRoles [admin; agent] user with
  | Some (code, message) => json code (body_message message)
  | None => TicketController.moveTicketQueue now id queueId
  end.

End TicketRoutes.

(** * Queue request handlers (queue.controller.ts) *)

Inductive QueueResBody : Type :=
| qbody_queue (queue : IQueue)
| qbody_queues (queues : list IQueue)
| qbody_result (result : DeleteResult)
| qbody_message (message : string)
| qbody_errors (errors : list string).

Record QueueResponse : Type := {
  qres_status : nat;
  qres_body : QueueResBody
}.

Definition qjson (code : nat) (b : QueueResBody) : M QueueResponse :=
  mret {| qres_status := code; qres_body := b |}.

Module QueueController.

(** The body of POST and PUT /api/queues. *)
Record QueueBody : Type := {
  qb_name : option string;
  qb_description : option string;
  qb_isDefault : option bool
}.

Definition createQueueValidation (body : QueueBody) : list string :=
  if truthy (qb_name body) then [] else ["Queue name is required"].

(** Every chain of [updateQueueValidation] is optional, and a flag that is
    there is a boolean. *)
Definition updateQueueValidation (body : QueueBody) : list string := [].

Definition createQueue (now : Time) (body : QueueBody) : M QueueResponse :=
  try_catch (
    match createQueueValidation body with
    | (_ :: _) as errors => qjson 400 (qbody_errors errors)
    | [] =>
      queue ← QueueService.createQueue now
        {| qd_name := default "" (qb_name body);
           qd_description := qb_description body;
           qd_isDefault := qb_isDefault body |};
      qjson 201 (qbody_queue queue)
    end)
    (λ e, qjson 500 (qbody_message e)).

Definition getAllQueues : M QueueResponse :=
  try_catch (
    queues ← QueueService.getAllQueues;
    qjson 200 (qbody_queues queues))
    (λ e, qjson 500 (qbody_message e)).

Definition getQueueById (id : Id) : M QueueResponse :=
  try_catch (
    queue ← QueueService.getQueueById id;
    qjson 200 (qbody_queue queue))
    (λ e, qjson 404 (qbody_message e)).

Definition updateQueue (now : Time) (id : Id) (body : QueueBody)
  : M QueueResponse :=
  try_catch (
    match updateQueueValidation body with
    | (_ :: _) as errors => qjson 400 (qbody_errors errors)
    | [] =>
      queue ← QueueService.updateQueue now id
        {| qp_name := qb_name body;
           qp_description := qb_description body;
           qp_isDefault := qb_isDefault body |};
      qjson 200 (qbody_queue queue)
    end)
    (λ e, qjson 500 (qbody_message e)).

Definition deleteQueue (id : Id) : M QueueResponse :=
  try_catch (
    result ← QueueService.deleteQueue id;
    qjson 200 (qbody_result result))
    (λ e, qjson 500 (qbody_message e)).

End QueueController.

(** The queue routes (queue.routes.ts): reading is open to every
    authenticated user, writing is for the admin. *)
Module QueueRoutes.

Definition get_all : M QueueResponse := QueueController.getAllQueues.

Definition get_one (id : Id) : M QueueResponse :=
  QueueController.getQueueById id.

Definition post (now : Time) (user : option Actor)
    (body : QueueController.QueueBody) : M QueueResponse :=
  match authorizeRoles [admin] user with
  | Some (code, message) => qjson code (qbody_message message)
  | None => QueueController.createQueue now body
  end.

Definition put (now : Time) (user : option Actor) (id : Id)
    (body : QueueController.QueueBody) : M QueueResponse :=
  match authorizeRoles [admin] user with
  | Some (code, message) => qjson code (qbody_message message)
  | None => QueueController.updateQueue now id body
  end.

Definition delete (user : option Actor) (id : Id) : M QueueResponse :=
  match authorizeRoles [admin] user with
  | Some (code, message) => qjson code (qbody_message message)
  | None => QueueController.deleteQueue id
  end.

End QueueRoutes.

(** * Properties *)

(** ** Vocabulary of the specification *)

(** The queues marked default. *)
Definition defaults (qs : gmap Id Queue) : list (Id * Queue) :=
  filter (λ kv : Id * Queue, q_isDefault kv.2 = true) (map_to_list qs).

(** At most one queue has [isDefault = true]. *)
Definition at_most_one_default (qs : gmap Id Queue) : Prop :=
  length (defaults qs) ≤ 1.

(** The mutations of the queue directory. *)
Inductive QueueOp : Type :=
| op_createQueue (now : Time) (queueData : QueueData)
| op_updateQueue (now : Time) (queueId : Id) (queueData : QueuePatch)
| op_deleteQueue (queueId : Id).

(** The store after one mutation, whether it succeeded or failed. *)
Definition run_op (s : Store) (op : QueueOp) : Store :=
  match op with
  | op_createQueue now queueData => (QueueService.createQueue now queueData s).2
  | op_updateQueue now queueId queueData =>
    (QueueService.updateQueue now queueId queueData s).2
  | op_deleteQueue queueId => (QueueService.deleteQueue queueId s).2
  end.

Definition run_ops (ops : list QueueOp) (s : Store) : Store :=
  foldl run_op s ops.

(** The queues that [createQueue] and [updateQueue] write into: swept
    when the caller asks for a default queue, untouched otherwise. *)
Definition swept (now : Time) (isDefault : option bool) (qs : gmap Id Queue)
  : gmap Id Queue :=
  if default false isDefault then unset_default now <$> qs else qs.

(** The patch that [updateTicket] hands to [$set] for a ticket whose
    stored document is [t]. *)
Definition stamped (now : Time) (t : Ticket) (ticketData : TicketPatch)
  : TicketPatch :=
  let ticketData :=
    match p_comments ticketData with
    | Some _ => delete_comments ticketData
    | None => ticketData
    end in
  if truthy (p_status ticketData)
  then
    let ticketData :=
      if bool_decide (p_status ticketData = Some "resolved")
         && negb (bool_decide (t_status t = "resolved"))
      then with_resolvedAt now ticketData else ticketData in
    if bool_decide (p_status ticketData = Some "closed")
       && negb (bool_decide (t_status t = "closed"))
    then with_closedAt now ticketData else ticketData
  else ticketData.

(** The ticket that the customer's ticket becomes when only the title
    and the description of a patch are applied. *)
Definition retitled (now : Time) (body : TicketPatch) (t : Ticket) : Ticket :=
  {| t_title := from_option trim (t_title t) (p_title body);
     t_description := default (t_description t) (p_description body);
     t_status := t_status t; t_priority := t_priority t;
     t_customer := t_customer t; t_assignee := t_assignee t;
     t_queue := t_queue t; t_comments := t_comments t; t_tags := t_tags t;
     t_createdAt := t_createdAt t; t_updatedAt := now;
     t_resolvedAt := t_resolvedAt t; t_closedAt := t_closedAt t |}.



(** The queue that [createTicket] synthesizes. *)
Definition general_queue (now : Time) : Queue :=
  {| q_name := "General";
     q_description := Some "Default queue for all tickets";
     q_isDefault := true; q_createdAt := now; q_updatedAt := now |}.

(** ** Example stores *)

Definition alice : User :=
  {| u_name := "Alice"; u_email := "alice@example.com"; u_role := customer |}.
Definition bob : User :=
  {| u_name := "Bob"; u_email := "bob@example.com"; u_role := customer |}.
Definition carol : User :=
  {| u_name := "Carol"; u_email := "carol@example.com"; u_role := agent |}.

Definition support : Queue :=
  {| q_name := "Support"; q_description := None; q_isDefault := true;
     q_createdAt := 1; q_updatedAt := 1 |}.
Definition billing : Queue :=
  {| q_name := "Billing"; q_description := Some "Invoices"; q_isDefault := false;
     q_createdAt := 2; q_updatedAt := 2 |}.

(** Three users, a default queue and a second queue, no ticket yet. *)
Definition demo_store : Store :=
  {| users := <[1 := alice]> (<[2 := bob]> (<[3 := carol]> ∅));
     queues := <[10 := support]> (<[11 := billing]> ∅);
     tickets := ∅;
     next_id := 20 |}.

(** A request to open a ticket that names no queue. *)
Definition printer_on_fire : TicketService.TicketData :=
  {| TicketService.d_title := "Printer on fire";
     TicketService.d_description := "Smoke everywhere";
     TicketService.d_priority := Some "urgent";
     TicketService.d_customer := 1;
     TicketService.d_queue := None;
     TicketService.d_tags := Some ["hardware"] |}.

(** A deployment with its three users and nothing else. *)
Definition fresh_store : Store :=
  {| users := <[1 := alice]> (<[2 := bob]> (<[3 := carol]> ∅));
     queues := ∅; tickets := ∅; next_id := 100 |}.

(** The first ticket that names no queue makes "General" the default
    queue (under id 100) ... *)
Definition first_ticket_filed : Store :=
  (TicketService.createTicket 1 printer_on_fire fresh_store).2.

(** ... and an administrator then takes the default mark off it. *)
Definition general_demoted : Store :=
  (QueueService.updateQueue 2 100
     {| qp_name := None; qp_description := None; qp_isDefault := Some false |}
     first_ticket_filed).2.

(** The ticket that [first_ticket_filed] holds under id 101. *)
Definition first_ticket : Ticket :=
  {| t_title := "Printer on fire"; t_description := "Smoke everywhere";
     t_status := "new"; t_priority := "urgent"; t_customer := 1;
     t_assignee := None; t_queue := 100; t_comments := [];
     t_tags := ["hardware"]; t_createdAt := 1; t_updatedAt := 1;
     t_resolvedAt := None; t_closedAt := None |}.

(** A patch that carries a status and nothing else. *)
Definition status_only (status : string) : TicketPatch :=
  {| p_title := None; p_description := None; p_status := Some status;
     p_priority := None; p_customer := None; p_assignee := None;
     p_queue := None; p_comments := None; p_tags := None;
     p_resolvedAt := None; p_closedAt := None; p_other := [] |}.

(** A patch that resolves a ticket and dates the resolution itself. *)
Definition backdated_resolution : TicketPatch :=
  {| p_title := None; p_description := None; p_status := Some "resolved";
     p_priority := None; p_customer := None; p_assignee := None;
     p_queue := None; p_comments := None; p_tags := None;
     p_resolvedAt := Some 3; p_closedAt := None; p_other := [] |}.

(** The first ticket (id 101), resolved at time 10. *)
Definition first_ticket_resolved : Store :=
  (TicketService.updateTicket 10 101 (status_only "resolved")
     first_ticket_filed).2.

(** Alice as the [authenticate] middleware presents her. *)
Definition alice_actor : Actor := {| a_id := 1; a_role := customer |}.
Definition bob_actor : Actor := {| a_id := 2; a_role := customer |}.
Definition carol_actor : Actor := {| a_id := 3; a_role := agent |}.

(** An internal comment without content. *)
Definition empty_internal_comment : TicketController.CommentBody :=
  {| TicketController.b_content := Some "";
     TicketController.b_isInternal := Some true |}.

Definition internal_note : TicketController.CommentBody :=
  {| TicketController.b_content := Some "Customer called twice";
     TicketController.b_isInternal := Some true |}.

(** Two more tickets, filed at times 2 and 3 (ids 102 and 103). *)
Definition vpn_down : TicketService.TicketData :=
  {| TicketService.d_title := "VPN down";
     TicketService.d_description := "Cannot connect";
     TicketService.d_priority := None;
     TicketService.d_customer := 2;
     TicketService.d_queue := None;
     TicketService.d_tags := None |}.

Definition invoice_wrong : TicketService.TicketData :=
  {| TicketService.d_title := "Invoice wrong";
     TicketService.d_description := "Charged twice";
     TicketService.d_priority := Some "high";
     TicketService.d_customer := 1;
     TicketService.d_queue := None;
     TicketService.d_tags := None |}.

Definition three_tickets_filed : Store :=
  (TicketService.createTicket 3 invoice_wrong
     (TicketService.createTicket 2 vpn_down first_ticket_filed).2).2.




(** A patch by which an agent hands a ticket to a customer id that
    belongs to no user. *)
Definition owner_replaced : TicketPatch :=
  {| p_title := None; p_description := None; p_status := None;
     p_priority := None; p_customer := Some 9; p_assignee := None;
     p_queue := None; p_comments := None; p_tags := None;
     p_resolvedAt := None; p_closedAt := None; p_other := [] |}.

Definition ticket_handed_to_stranger : Store :=
  (TicketController.updateTicket 4 (Some carol_actor) 101 owner_replaced
     first_ticket_filed).2.

Definition demo_ops : list QueueOp :=
  [ op_createQueue 5 {| qd_name := " Sales "; qd_description := None;
                        qd_isDefault := Some true |};
    op_updateQueue 6 11 {| qp_name := None; qp_description := None;
                           qp_isDefault := Some true |};
    op_deleteQueue 10;
    op_deleteQueue 11 ].

(** ** Vocabulary and examples for the service and handler properties *)

(** No two queues share a name. *)
Definition unique_names (qs : gmap Id Queue) : Prop :=
  NoDup ((λ kv : Id * Queue, q_name kv.2) <$> map_to_list qs).

(** The store in which [createQueue] and [updateQueue] look up and write:
    the store itself, or the store after the sweep when the caller asks
    for a default queue. *)
Definition after_sweep (now : Time) (isDefault : option bool) (s : Store)
  : Store :=
  if default false isDefault
  then set_queues (fmap (unset_default now)) s
  else s.

Definition sales_default : QueueData :=
  {| qd_name := " Sales "; qd_description := Some " Leads and offers ";
     qd_isDefault := Some true |}.

Definition billing_again : QueueData :=
  {| qd_name := "Billing  "; qd_description := None;
     qd_isDefault := Some true |}.

Definition unmark_default : QueuePatch :=
  {| qp_name := None; qp_description := None; qp_isDefault := Some false |}.

Definition blank_default : QueueController.QueueBody :=
  {| QueueController.qb_name := Some "   ";
     QueueController.qb_description := None;
     QueueController.qb_isDefault := Some true |}.

(** A ticket after its move to the queue [queueId]. *)
Definition requeued (now : Time) (queueId : Id) (t : Ticket) : Ticket :=
  {| t_title := t_title t; t_description := t_description t;
     t_status := t_status t; t_priority := t_priority t;
     t_customer := t_customer t; t_assignee := t_assignee t;
     t_queue := queueId; t_comments := t_comments t; t_tags := t_tags t;
     t_createdAt := t_createdAt t; t_updatedAt := now;
     t_resolvedAt := t_resolvedAt t; t_closedAt := t_closedAt t |}.

(** The document that [createTicket] stores. *)
Definition new_ticket (now : Time) (d : TicketService.TicketData) (queue : Id)
  : Ticket :=
  {| t_title := trim (TicketService.d_title d);
     t_description := TicketService.d_description d;
     t_status := "new";
     t_priority := or_else (TicketService.d_priority d) "medium";
     t_customer := TicketService.d_customer d; t_assignee := None;
     t_queue := queue; t_comments := [];
     t_tags := default [] (TicketService.d_tags d);
     t_createdAt := now; t_updatedAt := now;
     t_resolvedAt := None; t_closedAt := None |}.

(** The fields of a request that the Ticket schema accepts. *)
Definition valid_fields (d : TicketService.TicketData) : Prop :=
  trim (TicketService.d_title d) ≠ ""
  ∧ TicketService.d_description d ≠ ""
  ∧ includes priorities (or_else (TicketService.d_priority d) "medium") = true.

(** A ticket filed straight into the queue "Billing" (id 11); it gets
    the id 20. *)
Definition billing_ticket : TicketService.TicketData :=
  {| TicketService.d_title := "Invoice missing";
     TicketService.d_description := "March";
     TicketService.d_priority := None;
     TicketService.d_customer := 2;
     TicketService.d_queue := Some 11;
     TicketService.d_tags := None |}.

Definition billing_ticket_filed : Store :=
  (TicketService.createTicket 5 billing_ticket demo_store).2.

Global Instance valid_fields_dec d : Decision (valid_fields d).
Proof. unfold valid_fields. apply _. Defined.

(** The store after the insert of a new ticket. *)
Definition with_new_ticket (t : Ticket) (s : Store) : Store :=
  {| users := users s; queues := queues s;
     tickets := <[next_id s := t]> (tickets s);
     next_id := S (next_id s) |}.

(** The store after the insert of the queue "General". *)
Definition with_general (now : Time) (s : Store) : Store :=
  {| users := users s;
     queues := <[next_id s := general_queue now]> (queues s);
     tickets := tickets s; next_id := S (next_id s) |}.

(** A ticket for a queue that does not exist. *)
Definition ticket_for_queue_7 : TicketService.TicketData :=
  {| TicketService.d_title := "  Badge reader  ";
     TicketService.d_description := "Door 3";
     TicketService.d_priority := None;
     TicketService.d_customer := 2;
     TicketService.d_queue := Some 7;
     TicketService.d_tags := None |}.

(** A request whose title is blank once trimmed. *)
Definition blank_title : TicketService.TicketData :=
  {| TicketService.d_title := "   ";
     TicketService.d_description := "Smoke everywhere";
     TicketService.d_priority := None;
     TicketService.d_customer := 1;
     TicketService.d_queue := None;
     TicketService.d_tags := None |}.

(** The request that the handler hands to the service. *)
Definition ticket_data_of (u : Actor) (body : TicketController.CreateBody)
  : TicketService.TicketData :=
  {| TicketService.d_title := default "" (TicketController.cb_title body);
     TicketService.d_description :=
       default "" (TicketController.cb_description body);
     TicketService.d_priority := TicketController.cb_priority body;
     TicketService.d_customer := a_id u;
     TicketService.d_queue := TicketController.cb_queue body;
     TicketService.d_tags := TicketController.cb_tags body |}.

(** A request body whose title is blank once trimmed. *)
Definition blank_title_body : TicketController.CreateBody :=
  {| TicketController.cb_title := Some "   ";
     TicketController.cb_description := Some "Smoke everywhere";
     TicketController.cb_priority := None;
     TicketController.cb_queue := None;
     TicketController.cb_tags := None |}.

Definition public_note : TicketController.CommentBody :=
  {| TicketController.b_content := Some "Any news?";
     TicketController.b_isInternal := None |}.

Definition new_title : TicketPatch :=
  {| p_title := Some "Printer fixed"; p_description := None; p_status := None;
     p_priority := None; p_customer := None; p_assignee := None;
     p_queue := None; p_comments := None; p_tags := None;
     p_resolvedAt := None; p_closedAt := None; p_other := [] |}.

(** The mutations that the two services offer, apart from updateTicket,
    which writes whatever its caller's patch carries. *)
Inductive TicketOp : Type :=
| op_createTicket (now : Time) (ticketData : TicketService.TicketData)
| op_addComment (now : Time) (ticketId : Id)
    (comment : TicketService.CommentData)
| op_assignTicket (now : Time) (ticketId assigneeId : Id)
| op_moveToQueue (now : Time) (ticketId queueId : Id)
| op_queue (op : QueueOp).

(** The store after one mutation, whether it succeeded or failed. *)
Definition run_ticket_op (s : Store) (op : TicketOp) : Store :=
  match op with
  | op_createTicket now ticketData =>
    (TicketService.createTicket now ticketData s).2
  | op_addComment now ticketId comment =>
    (TicketService.addComment now ticketId comment s).2
  | op_assignTicket now ticketId assigneeId =>
    (TicketService.assignTicket now ticketId assigneeId s).2
  | op_moveToQueue now ticketId queueId =>
    (TicketService.moveToQueue now ticketId queueId s).2
  | op_queue op => run_op s op
  end.

Definition run_ticket_ops (ops : list TicketOp) (s : Store) : Store :=
  foldl run_ticket_op s ops.

(** Every stored ticket has an id that the store has handed out. *)
Definition ids_fresh (s : Store) : Prop :=
  ∀ i, is_Some (tickets s !! i) → i < next_id s.

(** What a later state of a ticket keeps of an earlier one: the comments
    it had, at the front and in their order, and what its customer wrote
    and when it was created, resolved and closed. *)
Definition history_kept (t t' : Ticket) : Prop :=
  t_comments t `prefix_of` t_comments t'
  ∧ t_title t' = t_title t
  ∧ t_description t' = t_description t
  ∧ t_priority t' = t_priority t
  ∧ t_customer t' = t_customer t
  ∧ t_tags t' = t_tags t
  ∧ t_createdAt t' = t_createdAt t
  ∧ t_resolvedAt t' = t_resolvedAt t
  ∧ t_closedAt t' = t_closedAt t.

(** A resolved ticket is commented and moved, another ticket is filed,
    an assignment is tried, and the queue the ticket was in is deleted. *)
Definition eventful_day : list TicketOp :=
  [ op_addComment 11 101
      {| TicketService.cd_content := "Replaced the fuser";
         TicketService.cd_author := 3;
         TicketService.cd_isInternal := Some true |};
    op_queue (op_createQueue 12 {| qd_name := "Hardware";
                                   qd_description := None;
                                   qd_isDefault := Some true |});
    op_moveToQueue 13 101 102;
    op_createTicket 15 vpn_down;
    op_assignTicket 16 101 3;
    op_queue (op_deleteQueue 100) ].

(** The tickets of high or urgent priority, no page and no limit given. *)
Definition pressing : TicketFilters :=
  {| f_status := None;
     f_priority := Some (Many ["high"; "urgent"]);
     f_queue := None; f_assignee := None; f_customer := None;
     f_search := None; f_page := None; f_limit := None |}.

(** The ticket that [three_tickets_filed] holds under id 103. *)
Definition third_ticket : Ticket :=
  {| t_title := "Invoice wrong"; t_description := "Charged twice";
     t_status := "new"; t_priority := "high"; t_customer := 1;
     t_assignee := None; t_queue := 100; t_comments := [];
     t_tags := []; t_createdAt := 3; t_updatedAt := 3;
     t_resolvedAt := None; t_closedAt := None |}.


(** The requests that write to the ticket collection, as the router
    dispatches them. *)
Inductive TicketRequest : Type :=
| POST_ticket (now : Time) (user : option Actor)
    (body : TicketController.CreateBody)
| PUT_ticket (now : Time) (user : option Actor) (id : Id) (body : TicketPatch)
| POST_comment (now : Time) (user : option Actor) (id : Id)
    (body : TicketController.CommentBody)
| PUT_assign (now : Time) (user : option Actor) (id : Id)
    (assigneeId : option Id)
| PUT_queue (now : Time) (user : option Actor) (id : Id)
    (queueId : option Id).

(** The store after one request is answered. *)
Definition serve (s : Store) (req : TicketRequest) : Store :=
  match req with
  | POST_ticket now user body =>
    (TicketController.createTicket now user body s).2
  | PUT_ticket now user id body =>
    (TicketController.updateTicket now user id body s).2
  | POST_comment now user id body =>
    (TicketController.addComment now user id body s).2
  | PUT_assign now user id assigneeId =>
    (TicketRoutes.put_assign now user id assigneeId s).2
  | PUT_queue now user id queueId =>
    (TicketRoutes.put_queue now user id queueId s).2
  end.

Definition serve_all (reqs : list TicketRequest) (s : Store) : Store :=
  foldl serve s reqs.

(** The status and the priority of a ticket are values of their
    enumerations. *)
Definition enums_ok (t : Ticket) : Prop :=
  t_status t ∈ statuses ∧ t_priority t ∈ priorities.

Definition enums_hold (s : Store) : Prop :=
  ∀ i t, tickets s !! i = Some t → enums_ok t.

(** Carol tries a status outside the enumeration, resolves the ticket,
    leaves a note; Bob files a ticket, which Carol tries to assign and
    moves to the queue "General". *)
Definition busy_hour : list TicketRequest :=
  [ PUT_ticket 5 (Some carol_actor) 101 (status_only "escalated");
    PUT_ticket 6 (Some carol_actor) 101 (status_only "resolved");
    POST_comment 7 (Some carol_actor) 101 internal_note;
    POST_ticket 8 (Some bob_actor)
      {| TicketController.cb_title := Some "VPN down";
         TicketController.cb_description := Some "Cannot connect";
         TicketController.cb_priority := Some "low";
         TicketController.cb_queue := None;
         TicketController.cb_tags := None |};
    PUT_assign 9 (Some carol_actor) 102 (Some 3);
    PUT_queue 10 (Some carol_actor) 102 (Some 100) ].

(** ** Running a promise *)

Ltac unfold_m :=
  unfold rethrow, try_catch, json, throw, get_store, modify, new_id,
    mbind, M_bind, mret, M_ret in *.

Lemma rethrow_id {A} (m : M A) s : rethrow m s = m s.
Proof. unfold_m. by destruct (m s) as [[a|e] s']. Qed.

Lemma bind_run {A B} (m : M A) (k : A → M B) s :
  (m ≫= k) s =
  match m s with
  | (Ok a, s') => k a s'
  | (Err e, s') => (Err e, s')
  end.
Proof. reflexivity. Qed.

Lemma try_catch_run {A} (m : M A) (h : string → M A) s :
  try_catch m h s =
  match m s with
  | (Ok a, s') => (Ok a, s')
  | (Err e, s') => h e s'
  end.
Proof. reflexivity. Qed.

Lemma mret_run {A} (a : A) s : (mret a : M A) s = (Ok a, s).
Proof. reflexivity. Qed.


(** ** The queue directory *)

Lemma defaults_elem qs i q :
  (i, q) ∈ defaults qs ↔ qs !! i = Some q ∧ q_isDefault q = true.
Proof.
  unfold defaults. rewrite list_elem_of_filter, elem_of_map_to_list.
  simpl. tauto.
Qed.

Lemma NoDup_defaults qs : NoDup (defaults qs).
Proof. apply NoDup_filter, NoDup_map_to_list. Qed.

(** The counting form of the invariant, read pointwise. *)
Lemma at_most_one_default_alt qs :
  at_most_one_default qs ↔
  ∀ i j qi qj, qs !! i = Some qi → qs !! j = Some qj →
    q_isDefault qi = true → q_isDefault qj = true → i = j.
Proof.
  unfold at_most_one_default. split.
  - intros Hlen i j qi qj Hi Hj Di Dj.
    assert (Ei : (i, qi) ∈ defaults qs) by by apply defaults_elem.
    assert (Ej : (j, qj) ∈ defaults qs) by by apply defaults_elem.
    destruct (defaults qs) as [|a [|b l]] eqn:E; simpl in Hlen; [|  | lia].
    + by apply elem_of_nil in Ei.
    + apply list_elem_of_singleton in Ei, Ej. congruence.
  - intros H. pose proof (NoDup_defaults qs) as Hnd.
    destruct (defaults qs) as [|[i qi] [|[j qj] l]] eqn:E; simpl; [lia | lia |].
    exfalso.
    assert (Ei : (i, qi) ∈ defaults qs) by (rewrite E; set_solver).
    assert (Ej : (j, qj) ∈ defaults qs) by (rewrite E; set_solver).
    apply defaults_elem in Ei as [Hi Di], Ej as [Hj Dj].
    assert (i = j) as -> by eauto.
    assert (qi = qj) as -> by congruence.
    apply NoDup_cons in Hnd as [Hnd _]. set_solver.
Qed.

Lemma unset_default_isDefault now q : q_isDefault (unset_default now q) = false.
Proof. unfold unset_default. by destruct (q_isDefault q) eqn:E. Qed.

(** After the sweep no queue is default. *)
Lemma unset_default_all now (qs : gmap Id Queue) i q :
  (unset_default now <$> qs) !! i = Some q → q_isDefault q = false.
Proof.
  rewrite lookup_fmap. destruct (qs !! i); simpl; [|done].
  intros [= <-]. apply unset_default_isDefault.
Qed.

(** A sweep leaves the non-default queues as they are. *)
Lemma unset_default_keeps now (qs : gmap Id Queue) i q :
  qs !! i = Some q → q_isDefault q = false →
  (unset_default now <$> qs) !! i = Some q.
Proof.
  intros Hi Hd. rewrite lookup_fmap, Hi. simpl.
  unfold unset_default. by rewrite Hd.
Qed.

Lemma createQueue_queues now d s r s' :
  QueueService.createQueue now d s = (r, s') →
  ((∃ e, r = Err e) ∧ queues s' = swept now (qd_isDefault d) (queues s))
  ∨ (∃ q, r = Ok (next_id s, q)
        ∧ q_name q = trim (qd_name d)
        ∧ q_isDefault q = default false (qd_isDefault d)
        ∧ name_taken (trim (qd_name d)) (swept now (qd_isDefault d) (queues s))
          = false
        ∧ queues s' = <[next_id s := q]> (swept now (qd_isDefault d) (queues s))).
Proof.
  unfold QueueService.createQueue, Queue_save, Queue_updateMany_unset_default,
    swept.
  rewrite rethrow_id. unfold_m.
  destruct (default false (qd_isDefault d)) eqn:Ed; simpl;
    (case_bool_decide; simpl;
     [ intros [= <- <-]; left; eauto
     | match goal with
       | |- context [name_taken ?n ?qs] => destruct (name_taken n qs) eqn:En
       end; simpl; intros [= <- <-]; [left; eauto | right] ]);
    eexists; split_and!; eauto.
Qed.

Lemma updateQueue_queues now queueId p s r s' :
  QueueService.updateQueue now queueId p s = (r, s') →
  ((∃ e, r = Err e) ∧ queues s' = swept now (qp_isDefault p) (queues s))
  ∨ (∃ q, swept now (qp_isDefault p) (queues s) !! queueId = Some q
        ∧ r = Ok (queueId, apply_queue_patch now p q)
        ∧ queues s' = <[queueId := apply_queue_patch now p q]>
                        (swept now (qp_isDefault p) (queues s))).
Proof.
  unfold QueueService.updateQueue, Queue_findByIdAndUpdate,
    Queue_updateMany_unset_default, swept.
  rewrite rethrow_id. unfold_m.
  destruct (default false (qp_isDefault p)) eqn:Ed; simpl;
    match goal with
    | |- context [?qs !! queueId] => destruct (qs !! queueId) as [q|] eqn:Eq
    end; simpl;
    try (intros [= <- <-]; left; eauto);
    match goal with
    | |- context [if ?b then _ else _] => destruct b eqn:Eb
    end; simpl; intros [= <- <-]; [left | right | left | right]; eauto.
Qed.

Lemma deleteQueue_run queueId s :
  QueueService.deleteQueue queueId s =
  match queues s !! queueId with
  | None => (Err "Queue not found", s)
  | Some q =>
    if q_isDefault q
    then (Err "Cannot delete the default queue", s)
    else (Ok {| success := true; message := "Queue deleted successfully" |},
          set_queues (delete queueId) s)
  end.
Proof.
  unfold QueueService.deleteQueue, QueueService.getQueueById, Queue_findById,
    Queue_findByIdAndDelete.
  rewrite rethrow_id. unfold_m.
  destruct (queues s !! queueId) as [q|]; simpl; [|done].
  by destruct (q_isDefault q).
Qed.

Lemma getQueueById_run queueId s :
  QueueService.getQueueById queueId s =
  match queues s !! queueId with
  | None => (Err "Queue not found", s)
  | Some q => (Ok (queueId, q), s)
  end.
Proof.
  unfold QueueService.getQueueById, Queue_findById.
  rewrite rethrow_id. unfold_m.
  by destruct (queues s !! queueId).
Qed.

Lemma amo_no_default (qs : gmap Id Queue) :
  (∀ j qj, qs !! j = Some qj → q_isDefault qj = false) →
  at_most_one_default qs.
Proof.
  intros H. apply at_most_one_default_alt. intros i j qi qj Hi _ Di _.
  apply H in Hi. congruence.
Qed.

Lemma amo_insert_no_default (qs : gmap Id Queue) i q :
  (∀ j qj, qs !! j = Some qj → q_isDefault qj = false) →
  at_most_one_default (<[i := q]> qs).
Proof.
  intros H. apply at_most_one_default_alt. intros j k qj qk.
  rewrite !lookup_insert. repeat case_decide; subst; try done.
  - intros _ Hk _ Dk. apply H in Hk. congruence.
  - intros Hj _ Dj. apply H in Hj. congruence.
  - intros Hj _ Dj. apply H in Hj. congruence.
Qed.

Lemma amo_insert_not_default (qs : gmap Id Queue) i q :
  at_most_one_default qs → q_isDefault q = false →
  at_most_one_default (<[i := q]> qs).
Proof.
  rewrite !at_most_one_default_alt. intros H Hq j k qj qk.
  rewrite !lookup_insert. repeat case_decide; subst; try done.
  - intros [= <-]. congruence.
  - intros _ [= <-]. congruence.
  - eauto.
Qed.

Lemma amo_insert_same_flag (qs : gmap Id Queue) i q0 q :
  at_most_one_default qs → qs !! i = Some q0 →
  q_isDefault q = q_isDefault q0 →
  at_most_one_default (<[i := q]> qs).
Proof.
  rewrite !at_most_one_default_alt. intros H H0 Hq j k qj qk.
  rewrite !lookup_insert. repeat case_decide; subst; try done.
  - intros [= <-] Hk Dj Dk. rewrite Hq in Dj. eauto.
  - intros Hj [= <-] Dj Dk. rewrite Hq in Dk. eauto.
  - eauto.
Qed.

Lemma amo_delete (qs : gmap Id Queue) i :
  at_most_one_default qs → at_most_one_default (delete i qs).
Proof.
  rewrite !at_most_one_default_alt. intros H j k qj qk.
  rewrite !lookup_delete_Some. intros [_ Hj] [_ Hk]. eauto.
Qed.

Lemma swept_true now (qs : gmap Id Queue) j qj :
  swept now (Some true) qs !! j = Some qj → q_isDefault qj = false.
Proof. apply unset_default_all. Qed.

Lemma amo_swept now o qs :
  at_most_one_default qs → at_most_one_default (swept now o qs).
Proof.
  unfold swept. destruct (default false o); [|done].
  intros _. apply amo_no_default. apply unset_default_all.
Qed.

Lemma createQueue_invariant now d s :
  at_most_one_default (queues s) →
  at_most_one_default (queues (QueueService.createQueue now d s).2).
Proof.
  intros Hinv.
  destruct (QueueService.createQueue now d s) as [r s'] eqn:E. simpl.
  apply createQueue_queues in E as [[_ ->]|(q & _ & _ & Hd & _ & ->)].
  - by apply amo_swept.
  - destruct (qd_isDefault d) as [[|]|]; simpl in Hd.
    + apply amo_insert_no_default. apply swept_true.
    + by apply amo_insert_not_default.
    + by apply amo_insert_not_default.
Qed.

Lemma updateQueue_invariant now queueId p s :
  at_most_one_default (queues s) →
  at_most_one_default (queues (QueueService.updateQueue now queueId p s).2).
Proof.
  intros Hinv.
  destruct (QueueService.updateQueue now queueId p s) as [r s'] eqn:E. simpl.
  apply updateQueue_queues in E as [[_ ->]|(q & Hq & _ & ->)].
  - by apply amo_swept.
  - destruct (qp_isDefault p) as [[|]|] eqn:Ep.
    + apply amo_insert_no_default. apply swept_true.
    + apply amo_insert_not_default; [done|].
      unfold apply_queue_patch. simpl. by rewrite Ep.
    + eapply amo_insert_same_flag; [done|exact Hq|].
      unfold apply_queue_patch. simpl. by rewrite Ep.
Qed.

Lemma deleteQueue_invariant queueId s :
  at_most_one_default (queues s) →
  at_most_one_default (queues (QueueService.deleteQueue queueId s).2).
Proof.
  intros Hinv. rewrite deleteQueue_run.
  destruct (queues s !! queueId) as [q|]; [|done].
  destruct (q_isDefault q); [done|]. simpl. by apply amo_delete.
Qed.

Lemma run_op_invariant s op :
  at_most_one_default (queues s) → at_most_one_default (queues (run_op s op)).
Proof.
  destruct op; simpl; auto using createQueue_invariant, updateQueue_invariant,
    deleteQueue_invariant.
Qed.

Lemma run_ops_invariant ops s :
  at_most_one_default (queues s) → at_most_one_default (queues (run_ops ops s)).
Proof.
  unfold run_ops. revert s.
  induction ops as [|op ops IH]; intros s Hinv; simpl; [done|].
  apply IH. by apply run_op_invariant.
Qed.

(** C4.  Starting from a store with at most one default queue, any
    sequence of createQueue, updateQueue and deleteQueue calls ends in a
    store with at most one default queue.  The mechanism: after a
    createQueue or an updateQueue that asks for [isDefault = true], the
    only queue that can be default is the one the call returns, and a
    deleteQueue leaves every default queue in place. *)
Theorem queue_ops_keep_at_most_one_default (ops : list QueueOp) (s : Store)
    (Hinv : at_most_one_default (queues s)) :
  at_most_one_default (queues (run_ops ops s))
  ∧ (∀ now d r s',
       qd_isDefault d = Some true →
       QueueService.createQueue now d s = (r, s') →
       ∀ j q, queues s' !! j = Some q → q_isDefault q = true → r = Ok (j, q))
  ∧ (∀ now queueId p r s',
       qp_isDefault p = Some true →
       QueueService.updateQueue now queueId p s = (r, s') →
       ∀ j q, queues s' !! j = Some q → q_isDefault q = true → r = Ok (j, q))
  ∧ (∀ queueId j q,
       queues s !! j = Some q → q_isDefault q = true →
       queues (QueueService.deleteQueue queueId s).2 !! j = Some q).
Proof.
  split_and!.
  - by apply run_ops_invariant.
  - intros now d r s' Hd E j q Hj Dq.
    apply createQueue_queues in E as [[_ E]|(q0 & -> & _ & _ & _ & E)];
      rewrite E, Hd in Hj.
    + apply swept_true in Hj. congruence.
    + rewrite lookup_insert in Hj. case_decide; subst.
      * by injection Hj as ->.
      * apply swept_true in Hj. congruence.
  - intros now queueId p r s' Hp E j q Hj Dq.
    apply updateQueue_queues in E as [[_ E]|(q0 & _ & -> & E)];
      rewrite E, Hp in Hj.
    + apply swept_true in Hj. congruence.
    + rewrite lookup_insert in Hj. case_decide; subst.
      * by injection Hj as ->.
      * apply swept_true in Hj. congruence.
  - intros queueId j q Hj Dq. rewrite deleteQueue_run.
    destruct (queues s !! queueId) as [q0|] eqn:E0; [|done].
    destruct (q_isDefault q0) eqn:D0; [done|]. simpl.
    rewrite lookup_delete_ne; [done|]. intros ->. congruence.
Qed.

Lemma queue_ops_keep_at_most_one_default_witness :
  at_most_one_default (queues demo_store)
  ∧ at_most_one_default (queues (run_ops demo_ops demo_store)).
Proof.
  split.
  - vm_compute. lia.
  - apply (queue_ops_keep_at_most_one_default demo_ops demo_store).
    vm_compute. lia.
Defined.

(** C8.  deleteQueue on the default queue fails with "Cannot delete the
    default queue" and the queue stays stored and retrievable; on a queue
    that is not default it succeeds, after which getQueueById on that id
    fails with "Queue not found" while every other queue is still there. *)
Theorem deleteQueue_default_guard (queueId : Id) (q : Queue) (s : Store)
    (Hq : queues s !! queueId = Some q) :
  (q_isDefault q = true →
     QueueService.deleteQueue queueId s
       = (Err "Cannot delete the default queue", s)
     ∧ QueueService.getQueueById queueId s = (Ok (queueId, q), s))
  ∧ (q_isDefault q = false →
     ∃ s',
       QueueService.deleteQueue queueId s
         = (Ok {| success := true; message := "Queue deleted successfully" |},
            s')
       ∧ QueueService.getQueueById queueId s' = (Err "Queue not found", s')
       ∧ ∀ j, j ≠ queueId → queues s' !! j = queues s !! j).
Proof.
  split; intros Hd.
  - rewrite deleteQueue_run, getQueueById_run, Hq, Hd. done.
  - eexists. rewrite deleteQueue_run, Hq, Hd. split; [done|].
    rewrite getQueueById_run. simpl. rewrite lookup_delete_eq.
    split; [done|]. intros j Hj. by rewrite lookup_delete_ne.
Qed.

Lemma deleteQueue_default_guard_witness :
  queues demo_store !! 10 = Some support
  ∧ QueueService.deleteQueue 10 demo_store
    = (Err "Cannot delete the default queue", demo_store)
  ∧ QueueService.getQueueById 10 demo_store = (Ok (10, support), demo_store).
Proof.
  split; [reflexivity|].
  apply (deleteQueue_default_guard 10 support demo_store); reflexivity.
Defined.

(** ** Creating tickets *)

Lemma bind_Ok {A B} (m : M A) (k : A → M B) s b s' :
  (m ≫= k) s = (Ok b, s') →
  ∃ a s1, m s = (Ok a, s1) ∧ k a s1 = (Ok b, s').
Proof.
  unfold_m. destruct (m s) as [[a|e] s1]; [eauto|done].
Qed.

Lemma getTicketById_run ticketId s :
  TicketService.getTicketById ticketId s =
  match tickets s !! ticketId with
  | None => (Err "Ticket not found", s)
  | Some t => (Ok (populate s ticketId t), s)
  end.
Proof.
  unfold TicketService.getTicketById, Ticket_findById_populated.
  rewrite rethrow_id. unfold_m.
  by destruct (tickets s !! ticketId).
Qed.

(** The document that [new Ticket({...})] builds. *)
Lemma Ticket_save_Ok now title description priority customer queue tags s i s' :
  Ticket_save now title description priority customer queue tags s = (Ok i, s') →
  ∃ q, queue = Some q
    ∧ trim title ≠ "" ∧ description ≠ ""
    ∧ includes priorities priority = true
    ∧ i = next_id s
    ∧ users s' = users s ∧ queues s' = queues s
    ∧ tickets s' = <[i :=
        {| t_title := trim title; t_description := description;
           t_status := "new"; t_priority := priority;
           t_customer := customer; t_assignee := None; t_queue := q;
           t_comments := []; t_tags := tags;
           t_createdAt := now; t_updatedAt := now;
           t_resolvedAt := None; t_closedAt := None |}]> (tickets s).
Proof.
  unfold Ticket_save. destruct queue as [q|]; [|done].
  repeat (case_bool_decide; [done|]).
  destruct (includes priorities priority) eqn:Ep; [|done]. simpl.
  unfold_m. simpl. intros [= <- <-]. eexists. split_and!; done.
Qed.

(** C10.  A ticket returned by a successful createTicket has status
    "new", no comment, no assignee and neither a resolution nor a closing
    date, whatever the arguments were; it is the document stored under
    the returned id. *)
Theorem createTicket_initial_state (now : Time)
    (ticketData : TicketService.TicketData) (s s' : Store) (ticket : ITicket)
    (Hcreated : TicketService.createTicket now ticketData s = (Ok ticket, s')) :
  t_status (tk_doc ticket) = "new"
  ∧ t_comments (tk_doc ticket) = []
  ∧ t_assignee (tk_doc ticket) = None
  ∧ t_resolvedAt (tk_doc ticket) = None
  ∧ t_closedAt (tk_doc ticket) = None
  ∧ tickets s' !! tk_id ticket = Some (tk_doc ticket).
Proof.
  unfold TicketService.createTicket in Hcreated.
  rewrite rethrow_id in Hcreated.
  apply bind_Ok in Hcreated as (queue & s1 & _ & Hcreated).
  apply bind_Ok in Hcreated as (i & s2 & Hsave & Hget).
  apply Ticket_save_Ok in Hsave as (q & _ & _ & _ & _ & _ & _ & _ & Ht).
  rewrite getTicketById_run, Ht, lookup_insert_eq in Hget.
  injection Hget as <- <-. simpl. by rewrite Ht, lookup_insert_eq.
Qed.

Lemma createTicket_initial_state_witness :
  ∃ ticket s',
    TicketService.createTicket 30 printer_on_fire demo_store = (Ok ticket, s')
    ∧ t_status (tk_doc ticket) = "new"
    ∧ t_comments (tk_doc ticket) = []
    ∧ t_assignee (tk_doc ticket) = None
    ∧ t_resolvedAt (tk_doc ticket) = None
    ∧ t_closedAt (tk_doc ticket) = None
    ∧ tickets s' !! tk_id ticket = Some (tk_doc ticket).
Proof.
  eexists _, _. split; [vm_compute; reflexivity|].
  apply (createTicket_initial_state 30 printer_on_fire demo_store).
  vm_compute. reflexivity.
Defined.

Lemma getDefaultQueue_run s :
  QueueService.getDefaultQueue s =
  match find (λ kv : Id * Queue, q_isDefault kv.2) (map_to_list (queues s)) with
  | Some defaultQueue => (Ok defaultQueue, s)
  | None => (Err "No default queue found", s)
  end.
Proof.
  unfold QueueService.getDefaultQueue, Queue_findOne_default.
  rewrite rethrow_id. unfold_m.
  by destruct (find _ _).
Qed.

Lemma find_default_Some (qs : gmap Id Queue) i q :
  find (λ kv : Id * Queue, q_isDefault kv.2) (map_to_list qs) = Some (i, q) →
  qs !! i = Some q ∧ q_isDefault q = true.
Proof.
  intros H. apply find_some in H as [Hin Hd].
  apply list_elem_of_In, elem_of_map_to_list in Hin. done.
Qed.

Lemma find_default_None (qs : gmap Id Queue) :
  find (λ kv : Id * Queue, q_isDefault kv.2) (map_to_list qs) = None ↔
  ∀ j q, qs !! j = Some q → q_isDefault q = false.
Proof.
  split.
  - intros H j q Hj.
    apply elem_of_map_to_list, list_elem_of_In in Hj.
    apply (find_none _ _ H) in Hj. done.
  - intros H. destruct (find _ _) as [[i q]|] eqn:E; [|done].
    apply find_default_Some in E as [Hi Hd]. apply H in Hi. congruence.
Qed.

(** Without a default queue the sweep changes nothing. *)
Lemma sweep_no_default now (qs : gmap Id Queue) :
  (∀ j q, qs !! j = Some q → q_isDefault q = false) →
  unset_default now <$> qs = qs.
Proof.
  intros H. apply map_eq. intros i. rewrite lookup_fmap.
  destruct (qs !! i) as [q|] eqn:E; simpl; [|done].
  unfold unset_default. by rewrite (H _ _ E).
Qed.

Lemma set_queues_id f s : f (queues s) = queues s → set_queues f s = s.
Proof. destruct s. unfold set_queues. simpl. by intros ->. Qed.

Lemma Ticket_save_Err now title description priority customer queue tags s e s' :
  Ticket_save now title description priority customer queue tags s = (Err e, s') →
  s' = s.
Proof.
  unfold Ticket_save. unfold_m. repeat case_match; by intros [= <- <-].
Qed.

(** With a default queue in place, a ticket that names no queue goes to
    that queue and the queue directory is left as it was. *)
Lemma createTicket_uses_default now ticketData s i q r s' :
  TicketService.d_queue ticketData = None →
  QueueService.getDefaultQueue s = (Ok (i, q), s) →
  TicketService.createTicket now ticketData s = (r, s') →
  queues s' = queues s
  ∧ ∀ ticket, r = Ok ticket → t_queue (tk_doc ticket) = i.
Proof.
  intros Hq Hdef. unfold TicketService.createTicket.
  rewrite rethrow_id, Hq.
  rewrite bind_run, try_catch_run, bind_run, Hdef, mret_run, bind_run.
  cbn [fst].
  match goal with
  | |- context [Ticket_save ?a ?b ?c ?d ?e ?f ?g ?st] =>
    destruct (Ticket_save a b c d e f g st) as [[t|e0] s1] eqn:Hsave
  end.
  - apply Ticket_save_Ok in Hsave as (q0 & [= <-] & _ & _ & _ & -> & _ & Hqs & Ht).
    rewrite getTicketById_run, Ht, lookup_insert_eq.
    intros [= <- <-]. split; [done|]. by intros ticket [= <-].
  - apply Ticket_save_Err in Hsave as ->. intros [= <- <-]. done.
Qed.

Lemma createQueue_General_run now s :
  (∀ j q, queues s !! j = Some q → q_isDefault q = false) →
  QueueService.createQueue now
    {| qd_name := "General";
       qd_description := Some "Default queue for all tickets";
       qd_isDefault := Some true |} s =
  if name_taken "General" (queues s)
  then (Err "E11000 duplicate key error collection: queues index: name_1", s)
  else
    let general :=
      {| q_name := "General";
         q_description := Some "Default queue for all tickets";
         q_isDefault := true; q_createdAt := now; q_updatedAt := now |} in
    (Ok (next_id s, general),
     {| users := users s; queues := <[next_id s := general]> (queues s);
        tickets := tickets s; next_id := S (next_id s) |}).
Proof.
  intros Hnone.
  unfold QueueService.createQueue, Queue_save, Queue_updateMany_unset_default.
  rewrite rethrow_id. simpl. rewrite bind_run. unfold modify at 1.
  rewrite set_queues_id by by apply sweep_no_default.
  rewrite bind_run. unfold get_store at 1.
  change (trim "General") with "General".
  change (trim "Default queue for all tickets")
    with "Default queue for all tickets".
  destruct (name_taken "General" (queues s)); [done|].
  reflexivity.
Qed.

(** Without a default queue, and with the name "General" free, a ticket
    that names no queue creates the queue "General", marks it default and
    goes to it. *)
Lemma createTicket_creates_General now ticketData s r s' :
  TicketService.d_queue ticketData = None →
  (∀ j q, queues s !! j = Some q → q_isDefault q = false) →
  name_taken "General" (queues s) = false →
  TicketService.createTicket now ticketData s = (r, s') →
  queues s' =
    <[next_id s :=
       {| q_name := "General";
          q_description := Some "Default queue for all tickets";
          q_isDefault := true; q_createdAt := now; q_updatedAt := now |}]>
      (queues s)
  ∧ ∀ ticket, r = Ok ticket → t_queue (tk_doc ticket) = next_id s.
Proof.
  intros Hq Hnone Hfree. unfold TicketService.createTicket.
  rewrite rethrow_id, Hq.
  rewrite bind_run, try_catch_run, bind_run, getDefaultQueue_run.
  apply find_default_None in Hnone as Hfind. rewrite Hfind.
  rewrite bind_run, createQueue_General_run, Hfree by done.
  cbv beta iota zeta. rewrite mret_run, bind_run. cbn [fst].
  match goal with
  | |- context [Ticket_save ?a ?b ?c ?d ?e ?f ?g ?st] =>
    destruct (Ticket_save a b c d e f g st) as [[t|e0] s1] eqn:Hsave
  end.
  - apply Ticket_save_Ok in Hsave as (q0 & [= <-] & _ & _ & _ & -> & _ & Hqs & Ht).
    rewrite getTicketById_run, Ht, lookup_insert_eq.
    intros [= <- <-]. split; [by rewrite Hqs|]. by intros ticket [= <-].
  - apply Ticket_save_Err in Hsave as ->. intros [= <- <-]. done.
Qed.

(** Without a default queue, but with a queue already named "General",
    a ticket that names no queue cannot be created: the insert of the
    second "General" is refused, and nothing is written. *)
Lemma createTicket_General_taken now ticketData s :
  TicketService.d_queue ticketData = None →
  (∀ j q, queues s !! j = Some q → q_isDefault q = false) →
  name_taken "General" (queues s) = true →
  TicketService.createTicket now ticketData s
  = (Err "E11000 duplicate key error collection: queues index: name_1", s).
Proof.
  intros Hq Hnone Htaken. unfold TicketService.createTicket.
  rewrite rethrow_id, Hq.
  rewrite bind_run, try_catch_run, bind_run, getDefaultQueue_run.
  apply find_default_None in Hnone as Hfind. rewrite Hfind.
  rewrite bind_run, createQueue_General_run, Htaken by done. done.
Qed.

(** The store [general_demoted] is reached by filing a first ticket
    without a queue, which creates the default queue "General", and then
    unsetting its default mark through updateQueue.  It holds no default
    queue, yet createTicket without a queue creates no queue named
    "General": the call fails on the unique queue name, and neither a
    queue nor a ticket is created. *)
Theorem createTicket_fails_when_General_demoted :
  defaults (queues general_demoted) = []
  ∧ (q_name <$> (queues general_demoted !! 100)) = Some "General"
  ∧ TicketService.createTicket 3 printer_on_fire general_demoted
    = (Err "E11000 duplicate key error collection: queues index: name_1",
       general_demoted).
Proof. split_and!; vm_compute; reflexivity. Qed.

Lemma name_taken_true name (qs : gmap Id Queue) :
  name_taken name qs = true ↔ ∃ j q, qs !! j = Some q ∧ q_name q = name.
Proof.
  unfold name_taken. rewrite existsb_exists. split.
  - intros ([j q] & Hin & Hn). apply bool_decide_eq_true in Hn.
    apply list_elem_of_In, elem_of_map_to_list in Hin. eauto.
  - intros (j & q & Hj & Hn). exists (j, q). split.
    + by apply list_elem_of_In, elem_of_map_to_list.
    + by apply bool_decide_eq_true.
Qed.

Lemma name_taken_false name (qs : gmap Id Queue) :
  name_taken name qs = false ↔ ∀ j q, qs !! j = Some q → q_name q ≠ name.
Proof.
  split.
  - intros Hf j q Hj Hn.
    assert (name_taken name qs = true) by (apply name_taken_true; eauto).
    congruence.
  - intros H. destruct (name_taken name qs) eqn:E; [|done].
    apply name_taken_true in E as (j & q & Hj & Hn). by apply H in Hj.
Qed.

(** C1, amended.  A call to createTicket with no queue argument: if some
    queue is marked default, the created ticket references a queue that
    is marked default and the queue directory is left as it was; if no
    queue is marked default and no queue is named "General", exactly one
    queue is added, named "General" and marked default, under a new id,
    and the created ticket references it. *)
Theorem createTicket_default_queue (now : Time)
    (ticketData : TicketService.TicketData) (s s' : Store) (r : Result ITicket)
    (Hnoqueue : TicketService.d_queue ticketData = None)
    (Hrun : TicketService.createTicket now ticketData s = (r, s')) :
  ((∃ j q, queues s !! j = Some q ∧ q_isDefault q = true) →
     ∃ i q,
       queues s !! i = Some q ∧ q_isDefault q = true
       ∧ queues s' = queues s
       ∧ ∀ ticket, r = Ok ticket → t_queue (tk_doc ticket) = i)
  ∧ ((∀ j q, queues s !! j = Some q → q_isDefault q = false) →
     (∀ j q, queues s !! j = Some q → q_name q ≠ "General") →
     queues s !! next_id s = None →
     queues s' = <[next_id s := general_queue now]> (queues s)
     ∧ size (queues s') = S (size (queues s))
     ∧ ∀ ticket, r = Ok ticket → t_queue (tk_doc ticket) = next_id s).
Proof.
  split.
  - intros (j & q & Hj & Hd).
    destruct (find (λ kv : Id * Queue, q_isDefault kv.2)
                (map_to_list (queues s))) as [[i qi]|] eqn:Hfind.
    + apply find_default_Some in Hfind as Hi. destruct Hi as [Hi Hdi].
      exists i, qi. split_and!; [done|done|..];
        eapply (createTicket_uses_default now ticketData s i qi r s');
        try done; by rewrite getDefaultQueue_run, Hfind.
    + rewrite find_default_None in Hfind. apply Hfind in Hj. congruence.
  - intros Hnone Hfree Hnew.
    destruct (createTicket_creates_General now ticketData s r s')
      as [Hqueues Href]; try done.
    { by apply name_taken_false. }
    split_and!; [done| |done].
    rewrite Hqueues. by apply map_size_insert_None.
Qed.

Lemma createTicket_default_queue_witness :
  TicketService.d_queue printer_on_fire = None
  ∧ TicketService.createTicket 1 printer_on_fire fresh_store
    = (Ok (populate fresh_store 101 first_ticket), first_ticket_filed)
  ∧ queues first_ticket_filed
    = <[100 := general_queue 1]> (queues fresh_store).
Proof.
  split_and!; [reflexivity|vm_compute; reflexivity|].
  refine (proj1 (proj2 (createTicket_default_queue 1 printer_on_fire
                          fresh_store first_ticket_filed
                          (Ok (populate fresh_store 101 first_ticket))
                          eq_refl _) _ _ _)).
  - vm_compute. reflexivity.
  - intros j q Hj. vm_compute in Hj. destruct j; discriminate.
  - intros j q Hj. vm_compute in Hj. destruct j; discriminate.
  - reflexivity.
Defined.

Lemma Ticket_save_queues now title description priority customer queue tags s :
  queues (Ticket_save now title description priority customer queue tags s).2
  = queues s.
Proof.
  destruct (Ticket_save now title description priority customer queue tags s)
    as [[i|e] s1] eqn:E; simpl.
  - by apply Ticket_save_Ok in E as (q & _ & _ & _ & _ & _ & _ & Hq & _).
  - by apply Ticket_save_Err in E as ->.
Qed.

(** Filing a ticket keeps the invariant as well, whether or not it has to
    synthesize the default queue. *)
Lemma createTicket_invariant now ticketData s :
  at_most_one_default (queues s) →
  at_most_one_default (queues (TicketService.createTicket now ticketData s).2).
Proof.
  intros Hinv. unfold TicketService.createTicket.
  rewrite rethrow_id, bind_run.
  assert (Hstep : ∀ queue s1,
    at_most_one_default (queues s1) →
    at_most_one_default (queues
      ((Ticket_save now (TicketService.d_title ticketData)
          (TicketService.d_description ticketData)
          (or_else (TicketService.d_priority ticketData) "medium")
          (TicketService.d_customer ticketData) queue
          (default [] (TicketService.d_tags ticketData))
        ≫= λ ticket, TicketService.getTicketById ticket) s1).2)).
  { intros queue s1 H1. rewrite bind_run.
    match goal with
    | |- context [Ticket_save ?a ?b ?c ?d ?e ?f ?g ?st] =>
      pose proof (Ticket_save_queues a b c d e f g st) as Hq;
      destruct (Ticket_save a b c d e f g st) as [[i|e0] s2]
    end; simpl in Hq.
    - rewrite getTicketById_run. destruct (tickets s2 !! i); simpl; by rewrite Hq.
    - simpl. by rewrite Hq. }
  destruct (TicketService.d_queue ticketData) as [queue|].
  - rewrite mret_run. by apply Hstep.
  - rewrite try_catch_run, bind_run, getDefaultQueue_run.
    destruct (find _ _) as [defaultQueue|].
    + rewrite mret_run. by apply Hstep.
    + rewrite bind_run.
      match goal with
      | |- context [QueueService.createQueue ?n ?d ?st] =>
        pose proof (createQueue_invariant n d st Hinv) as Hq;
        destruct (QueueService.createQueue n d st) as [[g|e0] s1]
      end; simpl in Hq.
      * rewrite mret_run. by apply Hstep.
      * done.
Qed.

(** ** Assigning and updating tickets *)

(** The update that [assignTicket] issues is refused whatever the store
    holds. *)
Lemma assignTicket_run now ticketId assigneeId s :
  TicketService.assignTicket now ticketId assigneeId s
  = (Err "Cast to string failed at path status", s).
Proof. reflexivity. Qed.

(** C2.  The ticket 101 of [first_ticket_filed] has status "new" and no
    assignee.  Assigning it to the agent 3 neither sets the assignee nor
    moves the status to "open": the operand given for [status] is an
    operator expression, which [$set] does not evaluate, the update is
    refused and the store is left as it was. *)
Theorem assignTicket_rejected_on_new_ticket :
  tickets first_ticket_filed !! 101 = Some first_ticket
  ∧ t_status first_ticket = "new"
  ∧ t_assignee first_ticket = None
  ∧ TicketService.assignTicket 5 101 3 first_ticket_filed
    = (Err "Cast to string failed at path status", first_ticket_filed).
Proof. split_and!; reflexivity. Qed.

Lemma cast_status_literal (p : TicketPatch) :
  cast_status (set_of_patch p) = Ok (p_status p).
Proof. unfold cast_status. simpl. by destruct (p_status p). Qed.

Lemma findByIdAndUpdate_set_literal now ticketId (p : TicketPatch) s t :
  tickets s !! ticketId = Some t →
  Ticket_findByIdAndUpdate_set now ticketId (set_of_patch p) s =
  (Ok (Some (populate s ticketId
               (apply_set now (p_status p) (set_of_patch p) t))),
   set_tickets <[ticketId := apply_set now (p_status p) (set_of_patch p) t]> s).
Proof.
  intros Ht. unfold Ticket_findByIdAndUpdate_set.
  rewrite cast_status_literal, bind_run. unfold get_store at 1.
  cbv beta iota. rewrite Ht. reflexivity.
Qed.

Lemma p_status_stamped now t (p : TicketPatch) :
  p_status (stamped now t p) = p_status p.
Proof.
  unfold stamped. destruct (p_comments p); simpl;
    repeat (case_match; simpl; try done).
Qed.

Lemma updateTicket_run now ticketId ticketData s t :
  tickets s !! ticketId = Some t →
  TicketService.updateTicket now ticketId ticketData s =
  let t' := apply_set now (p_status ticketData)
              (set_of_patch (stamped now t ticketData)) t in
  (Ok (populate s ticketId t'), set_tickets <[ticketId := t']> s).
Proof.
  intros Ht. cbv zeta. rewrite <- (p_status_stamped now t ticketData).
  unfold TicketService.updateTicket, stamped.
  rewrite rethrow_id. cbv zeta. rewrite bind_run.
  destruct (truthy (p_status _)) eqn:Etr.
  - rewrite bind_run. unfold Ticket_findById. rewrite bind_run.
    unfold get_store at 1. cbv beta iota. rewrite mret_run. cbv beta iota.
    rewrite Ht, mret_run. cbv beta iota.
    rewrite bind_run. erewrite findByIdAndUpdate_set_literal by exact Ht.
    reflexivity.
  - rewrite mret_run. cbv beta iota.
    rewrite bind_run. erewrite findByIdAndUpdate_set_literal by exact Ht.
    reflexivity.
Qed.

Lemma updateTicket_missing now ticketId ticketData s :
  tickets s !! ticketId = None →
  TicketService.updateTicket now ticketId ticketData s
  = (Err "Ticket not found", s).
Proof.
  intros Ht. unfold TicketService.updateTicket.
  rewrite rethrow_id. cbv zeta. rewrite bind_run.
  destruct (truthy (p_status _)) eqn:Etr.
  - rewrite bind_run. unfold Ticket_findById. rewrite bind_run.
    unfold get_store at 1. cbv beta iota. rewrite mret_run. cbv beta iota.
    by rewrite Ht.
  - rewrite mret_run. cbv beta iota. rewrite bind_run.
    unfold Ticket_findByIdAndUpdate_set.
    match goal with |- context [cast_status (set_of_patch ?p)] =>
      rewrite (cast_status_literal p) end.
    rewrite bind_run. unfold get_store at 1. cbv beta iota. by rewrite Ht.
Qed.

Lemma populate_set_tickets f s i t :
  populate (set_tickets f s) i t = populate s i t.
Proof. reflexivity. Qed.

Ltac stamp_cases patch Hst :=
  unfold stamped, apply_set; simpl;
  destruct (p_comments patch); simpl; rewrite ?Hst; simpl;
  repeat (case_bool_decide; simplify_eq; simpl; try done); try done.

(** What [updateTicket] does to the resolution date of an existing
    ticket. *)
Lemma updateTicket_resolvedAt now ticketId (patch : TicketPatch) s t :
  tickets s !! ticketId = Some t →
  p_status patch = Some "resolved" →
  ∃ t',
    TicketService.updateTicket now ticketId patch s
      = (Ok (populate s ticketId t'), set_tickets <[ticketId := t']> s)
    ∧ t_status t' = "resolved"
    ∧ (t_status t ≠ "resolved" → t_resolvedAt t' = Some now)
    ∧ (t_status t = "resolved" →
         t_resolvedAt t' = match p_resolvedAt patch with
                           | Some d => Some d
                           | None => t_resolvedAt t
                           end).
Proof.
  intros Ht Hst. eexists. split; [by apply updateTicket_run|].
  split_and!; [|intros Hold|intros Hold]; stamp_cases patch Hst.
Qed.

Lemma updateTicket_closedAt now ticketId (patch : TicketPatch) s t :
  tickets s !! ticketId = Some t →
  p_status patch = Some "closed" →
  ∃ t',
    TicketService.updateTicket now ticketId patch s
      = (Ok (populate s ticketId t'), set_tickets <[ticketId := t']> s)
    ∧ t_status t' = "closed"
    ∧ (t_status t ≠ "closed" → t_closedAt t' = Some now)
    ∧ (t_status t = "closed" →
         t_closedAt t' = match p_closedAt patch with
                         | Some d => Some d
                         | None => t_closedAt t
                         end).
Proof.
  intros Ht Hst. eexists. split; [by apply updateTicket_run|].
  split_and!; [|intros Hold|intros Hold]; stamp_cases patch Hst.
Qed.

(** An update that carries a status stores that status. *)
Lemma updateTicket_status now ticketId (patch : TicketPatch) s t st :
  tickets s !! ticketId = Some t →
  p_status patch = Some st →
  ∃ t',
    TicketService.updateTicket now ticketId patch s
      = (Ok (populate s ticketId t'), set_tickets <[ticketId := t']> s)
    ∧ t_status t' = st.
Proof.
  intros Ht Hst. eexists. split; [by apply updateTicket_run|].
  unfold apply_set. simpl. by rewrite Hst.
Qed.

(** The resolved ticket 101 keeps status "resolved" under the patch
    [backdated_resolution], yet its resolution date changes from 10 to the
    date the patch carries. *)
Lemma updateTicket_resolvedAt_overwritten :
  (t_status <$> (tickets first_ticket_resolved !! 101)) = Some "resolved"
  ∧ p_status backdated_resolution = Some "resolved"
  ∧ (t_resolvedAt <$>
       (tickets (TicketService.updateTicket 20 101 backdated_resolution
                   first_ticket_resolved).2 !! 101))
    ≠ (t_resolvedAt <$> (tickets first_ticket_resolved !! 101)).
Proof. split_and!; vm_compute; done. Qed.

(** C3, amended.  On an existing ticket, updateTicket with status
    "resolved" sets resolvedAt to the current time when the previous
    status was not "resolved"; when it was already "resolved" and the
    patch carries no resolvedAt of its own, resolvedAt is left as it was;
    and once another update has moved the status away from "resolved",
    the update back to "resolved" sets resolvedAt to the current time
    again.  The same holds for "closed" and closedAt. *)
Theorem updateTicket_status_timestamps (now : Time) (ticketId : Id)
    (patch : TicketPatch) (s : Store) (t : Ticket)
    (Ht : tickets s !! ticketId = Some t) :
  (p_status patch = Some "resolved" →
     (∃ t',
        TicketService.updateTicket now ticketId patch s
          = (Ok (populate s ticketId t'), set_tickets <[ticketId := t']> s)
        ∧ (t_status t ≠ "resolved" → t_resolvedAt t' = Some now)
        ∧ (t_status t = "resolved" → p_resolvedAt patch = None →
             t_resolvedAt t' = t_resolvedAt t))
     ∧ (∀ (away : TicketPatch) st before,
          p_status away = Some st → st ≠ "resolved" →
          let s1 := (TicketService.updateTicket before ticketId away s).2 in
          ∃ t2,
            TicketService.updateTicket now ticketId patch s1
              = (Ok (populate s ticketId t2), set_tickets <[ticketId := t2]> s1)
            ∧ t_resolvedAt t2 = Some now))
  ∧ (p_status patch = Some "closed" →
     (∃ t',
        TicketService.updateTicket now ticketId patch s
          = (Ok (populate s ticketId t'), set_tickets <[ticketId := t']> s)
        ∧ (t_status t ≠ "closed" → t_closedAt t' = Some now)
        ∧ (t_status t = "closed" → p_closedAt patch = None →
             t_closedAt t' = t_closedAt t))
     ∧ (∀ (away : TicketPatch) st before,
          p_status away = Some st → st ≠ "closed" →
          let s1 := (TicketService.updateTicket before ticketId away s).2 in
          ∃ t2,
            TicketService.updateTicket now ticketId patch s1
              = (Ok (populate s ticketId t2), set_tickets <[ticketId := t2]> s1)
            ∧ t_closedAt t2 = Some now)).
Proof.
  split; intros Hst; split.
  - destruct (updateTicket_resolvedAt now ticketId patch s t Ht Hst)
      as (t' & Hrun & _ & Hnew & Hold).
    exists t'. split_and!; [done|done|].
    intros Hres Hnone. rewrite Hold, Hnone; done.
  - intros away st before Haway Hne s1.
    destruct (updateTicket_status before ticketId away s t st Ht Haway)
      as (t1 & Hrun1 & Hst1).
    subst s1. rewrite Hrun1. cbn [snd].
    destruct (updateTicket_resolvedAt now ticketId patch
                (set_tickets <[ticketId := t1]> s) t1)
      as (t2 & Hrun2 & _ & Hnew & _); [apply lookup_insert_eq|done|].
    exists t2. split; [done|]. apply Hnew. congruence.
  - destruct (updateTicket_closedAt now ticketId patch s t Ht Hst)
      as (t' & Hrun & _ & Hnew & Hold).
    exists t'. split_and!; [done|done|].
    intros Hres Hnone. rewrite Hold, Hnone; done.
  - intros away st before Haway Hne s1.
    destruct (updateTicket_status before ticketId away s t st Ht Haway)
      as (t1 & Hrun1 & Hst1).
    subst s1. rewrite Hrun1. cbn [snd].
    destruct (updateTicket_closedAt now ticketId patch
                (set_tickets <[ticketId := t1]> s) t1)
      as (t2 & Hrun2 & _ & Hnew & _); [apply lookup_insert_eq|done|].
    exists t2. split; [done|]. apply Hnew. congruence.
Qed.

Lemma updateTicket_status_timestamps_witness :
  tickets first_ticket_filed !! 101 = Some first_ticket
  ∧ ∃ t',
      TicketService.updateTicket 10 101 (status_only "resolved")
        first_ticket_filed
        = (Ok (populate first_ticket_filed 101 t'),
           set_tickets <[101 := t']> first_ticket_filed)
      ∧ t_resolvedAt t' = Some 10.
Proof.
  split; [reflexivity|].
  destruct (updateTicket_status_timestamps 10 101 (status_only "resolved")
              first_ticket_filed first_ticket eq_refl) as [Hres _].
  destruct (Hres eq_refl) as [(t' & Hrun & Hnew & _) _].
  exists t'. split; [exact Hrun|]. apply Hnew. discriminate.
Defined.

(** ** The handlers: updating a ticket *)

Lemma includes_true l x : includes l x = true ↔ x ∈ l.
Proof.
  unfold includes. rewrite existsb_exists. split.
  - intros (y & Hin & Hy). apply bool_decide_eq_true in Hy as ->.
    by apply list_elem_of_In.
  - intros Hin. exists x. split; [by apply list_elem_of_In|].
    by apply bool_decide_eq_true.
Qed.

Lemma includes_false l x : includes l x = false ↔ x ∉ l.
Proof.
  rewrite <- includes_true. by destruct (includes l x).
Qed.

Lemma some_true {A} (l : list A) p : some l p = true ↔ ∃ x, x ∈ l ∧ p x = true.
Proof.
  unfold some. rewrite existsb_exists.
  by setoid_rewrite list_elem_of_In.
Qed.

Lemma some_false {A} (l : list A) p : some l p = false ↔ ∀ x, x ∈ l → p x = false.
Proof.
  split.
  - intros H x Hx. destruct (p x) eqn:E; [|done].
    assert (some l p = true) by (apply some_true; eauto). congruence.
  - intros H. destruct (some l p) eqn:E; [|done].
    apply some_true in E as (x & Hx & Hp). rewrite (H x Hx) in Hp. done.
Qed.

(** The owner of a ticket is never taken for another customer. *)
Lemma other_customer_owner s ticketId t u :
  t_customer t = a_id u →
  other_customer (populate s ticketId t) (Some u) = false.
Proof.
  intros Hown. unfold other_customer, populate. simpl.
  destruct (users s !! t_customer t); simpl; [|done].
  by rewrite bool_decide_eq_true_2.
Qed.

Lemma key_elem {A} name (o : option A) k : k ∈ key name o ↔ k = name ∧ is_Some o.
Proof.
  destruct o; simpl.
  - rewrite list_elem_of_singleton. split; [eauto|tauto].
  - split; [by intros ?%elem_of_nil|]. by intros [_ [? ?]].
Qed.

Lemma keys_allowed_only (body : TicketPatch) :
  (∀ k, k ∈ keys body → k ∈ ["title"; "description"]) →
  p_status body = None ∧ p_priority body = None ∧ p_customer body = None
  ∧ p_assignee body = None ∧ p_queue body = None ∧ p_comments body = None
  ∧ p_tags body = None ∧ p_resolvedAt body = None ∧ p_closedAt body = None.
Proof.
  intros H.
  assert (Hk : ∀ k, k ∉ ["title"; "description"] → k ∉ keys body) by naive_solver.
  unfold keys in Hk. setoid_rewrite elem_of_app in Hk.
  repeat setoid_rewrite elem_of_app in Hk.
  repeat setoid_rewrite key_elem in Hk.
  split_and!.
  all: match goal with |- ?x = None =>
         destruct x eqn:E; [exfalso|done] end.
  - apply (Hk "status"); [by rewrite !elem_of_cons, elem_of_nil; intros [?|[?|?]]|]. naive_solver.
  - apply (Hk "priority"); [by rewrite !elem_of_cons, elem_of_nil; intros [?|[?|?]]|]. naive_solver.
  - apply (Hk "customer"); [by rewrite !elem_of_cons, elem_of_nil; intros [?|[?|?]]|]. naive_solver.
  - apply (Hk "assignee"); [by rewrite !elem_of_cons, elem_of_nil; intros [?|[?|?]]|]. naive_solver.
  - apply (Hk "queue"); [by rewrite !elem_of_cons, elem_of_nil; intros [?|[?|?]]|]. naive_solver.
  - apply (Hk "comments"); [by rewrite !elem_of_cons, elem_of_nil; intros [?|[?|?]]|]. naive_solver.
  - apply (Hk "tags"); [by rewrite !elem_of_cons, elem_of_nil; intros [?|[?|?]]|]. naive_solver.
  - apply (Hk "resolvedAt"); [by rewrite !elem_of_cons, elem_of_nil; intros [?|[?|?]]|]. naive_solver.
  - apply (Hk "closedAt"); [by rewrite !elem_of_cons, elem_of_nil; intros [?|[?|?]]|]. naive_solver.
Qed.

Lemma json_run code b s :
  json code b s = (Ok {| res_status := code; res_body := b |}, s).
Proof. reflexivity. Qed.

Lemma apply_set_allowed_only now (body : TicketPatch) t :
  (∀ k, k ∈ keys body → k ∈ ["title"; "description"]) →
  apply_set now (p_status body) (set_of_patch (stamped now t body)) t
  = retitled now body t.
Proof.
  intros H.
  destruct (keys_allowed_only body H)
    as (Hs & Hp & Hc & Ha & Hq & Hm & Htg & Hr & Hcl).
  unfold stamped, apply_set, retitled. rewrite Hm, Hs. simpl.
  by rewrite ?Hs, ?Hp, ?Hc, ?Ha, ?Hq, ?Hm, ?Htg, ?Hr, ?Hcl.
Qed.

(** Alice owns ticket 101.  Her patch names the key [status], which is
    outside the allowed set, with a value outside the enumeration: the
    request is refused by the validation chain with 400, not 403. *)
Lemma customer_invalid_status_gets_400 :
  (t_customer <$> (tickets first_ticket_filed !! 101)) = Some (a_id alice_actor)
  ∧ a_role alice_actor = customer
  ∧ "status" ∈ keys (status_only "escalated")
  ∧ ("status" ∉ ["title"; "description"])
  ∧ ∃ r,
      TicketController.updateTicket 5 (Some alice_actor) 101
        (status_only "escalated") first_ticket_filed
      = (Ok r, first_ticket_filed)
      ∧ res_status r = 400 ∧ res_status r ≠ 403.
Proof.
  split_and!; [done|done|vm_compute; set_solver| |].
  - rewrite !elem_of_cons, elem_of_nil. by intros [?|[?|?]].
  - eexists. split; [vm_compute; reflexivity|]. simpl. done.
Qed.

(** C5, amended.  A customer updates a ticket they own.  If the patch has
    a key outside {title, description}, the request is refused and the
    store is left as it was; the status is 403 when the body passes the
    validation chain and 400 when it does not.  If the patch has no such
    key, the answer is 200 and the title and the description it carries
    are stored (the title trimmed), every other field but updatedAt being
    left as it was. *)
Theorem customer_update_restriction (now : Time) (u : Actor) (ticketId : Id)
    (body : TicketPatch) (s : Store) (t : Ticket)
    (Hrole : a_role u = customer)
    (Ht : tickets s !! ticketId = Some t)
    (Hown : t_customer t = a_id u) :
  ((∃ k, k ∈ keys body ∧ k ∉ ["title"; "description"]) →
     ∃ r,
       TicketController.updateTicket now (Some u) ticketId body s = (Ok r, s)
       ∧ res_status r =
           match TicketController.updateTicketValidation body with
           | [] => 403
           | _ :: _ => 400
           end)
  ∧ ((∀ k, k ∈ keys body → k ∈ ["title"; "description"]) →
     TicketController.updateTicket now (Some u) ticketId body s
     = (Ok {| res_status := 200;
              res_body := body_ticket
                            (populate s ticketId (retitled now body t)) |},
        set_tickets <[ticketId := retitled now body t]> s)).
Proof.
  split.
  - intros (k & Hk & Hno).
    unfold TicketController.updateTicket. rewrite try_catch_run.
    destruct (TicketController.updateTicketValidation body) as [|e es].
    + rewrite bind_run, getTicketById_run, Ht. cbv beta iota.
      unfold is_customer. rewrite bool_decide_eq_true_2 by done.
      rewrite other_customer_owner by done. cbv zeta.
      assert (some (keys body)
                (λ update, negb (includes ["title"; "description"] update))
              = true) as ->.
      { apply some_true. exists k. split; [done|].
        apply negb_true_iff, includes_false. done. }
      rewrite json_run. eauto.
    + rewrite json_run. eauto.
  - intros Hall.
    unfold TicketController.updateTicket. rewrite try_catch_run.
    destruct (keys_allowed_only body Hall) as (Hs & Hp & _).
    unfold TicketController.updateTicketValidation. rewrite Hs, Hp.
    cbn [optional_isIn app].
    rewrite bind_run, getTicketById_run, Ht. cbv beta iota.
    unfold is_customer. rewrite bool_decide_eq_true_2 by done.
    rewrite other_customer_owner by done. cbv zeta.
    assert (some (keys body)
              (λ update, negb (includes ["title"; "description"] update))
            = false) as ->.
    { apply some_false. intros x Hx.
      apply negb_false_iff, includes_true. auto. }
    rewrite bind_run. erewrite updateTicket_run by exact Ht. cbv zeta beta iota.
    rewrite json_run, apply_set_allowed_only by done. reflexivity.
Qed.

Lemma customer_update_restriction_witness :
  a_role alice_actor = customer
  ∧ tickets first_ticket_filed !! 101 = Some first_ticket
  ∧ t_customer first_ticket = a_id alice_actor
  ∧ ∃ r,
      TicketController.updateTicket 5 (Some alice_actor) 101
        (status_only "closed") first_ticket_filed
      = (Ok r, first_ticket_filed)
      ∧ res_status r = 403.
Proof.
  split_and!; [reflexivity|reflexivity|reflexivity|].
  destruct (customer_update_restriction 5 alice_actor 101
              (status_only "closed") first_ticket_filed first_ticket
              eq_refl eq_refl eq_refl) as [Hdeny _].
  destruct Hdeny as (r & Hrun & Hcode).
  - exists "status". split; [vm_compute; set_solver|].
    rewrite !elem_of_cons, elem_of_nil. by intros [?|[?|?]].
  - exists r. split; [exact Hrun|]. exact Hcode.
Defined.

(** ** The handlers: commenting *)

Lemma addComment_run now ticketId comment s t :
  tickets s !! ticketId = Some t →
  TicketService.addComment now ticketId comment s =
  let t' :=
    apply_push now
      {| c_content := TicketService.cd_content comment;
         c_author := TicketService.cd_author comment;
         c_isInternal := default false (TicketService.cd_isInternal comment);
         c_createdAt := now |} t in
  (Ok (populate s ticketId t'), set_tickets <[ticketId := t']> s).
Proof.
  intros Ht. unfold TicketService.addComment, Ticket_findByIdAndUpdate_push.
  rewrite rethrow_id. cbv zeta. rewrite !bind_run.
  unfold get_store at 1. cbv beta iota. rewrite Ht. reflexivity.
Qed.

(** Alice, a customer, posts an internal comment without content: the
    validation chain answers 400 before the role is looked at. *)
Lemma customer_internal_comment_without_content_gets_400 :
  a_role alice_actor = customer
  ∧ TicketController.b_isInternal empty_internal_comment = Some true
  ∧ ∃ r,
      TicketController.addComment 5 (Some alice_actor) 101
        empty_internal_comment first_ticket_filed
      = (Ok r, first_ticket_filed)
      ∧ res_status r = 400 ∧ res_status r ≠ 403.
Proof.
  split_and!; [done|done|].
  eexists. split; [vm_compute; reflexivity|]. simpl. done.
Qed.

(** C7, amended.  A comment with isInternal = true whose content is not
    empty: from a customer it is refused with 403 and the store is left
    as it was; from an admin or an agent, on an existing ticket, it is
    answered with 200 and the comment, stamped with the current time, is
    appended after the comments the ticket already had. *)
Theorem internal_comment_rule (now : Time) (u : Actor) (ticketId : Id)
    (body : TicketController.CommentBody) (s : Store) (content : string)
    (Hinternal : TicketController.b_isInternal body = Some true)
    (Hcontent : TicketController.b_content body = Some content)
    (Hfilled : content ≠ "") :
  (a_role u = customer →
     TicketController.addComment now (Some u) ticketId body s
     = (Ok {| res_status := 403;
              res_body :=
                body_message "Customers cannot create internal comments" |},
        s))
  ∧ (a_role u = admin ∨ a_role u = agent →
     ∀ t, tickets s !! ticketId = Some t →
       let comment :=
         {| c_content := content; c_author := a_id u; c_isInternal := true;
            c_createdAt := now |} in
       let t' := apply_push now comment t in
       TicketController.addComment now (Some u) ticketId body s
       = (Ok {| res_status := 200;
                res_body := body_ticket (populate s ticketId t') |},
          set_tickets <[ticketId := t']> s)
       ∧ t_comments t' = t_comments t ++ [comment]).
Proof.
  assert (Hvalid : TicketController.addCommentValidation body = []).
  { unfold TicketController.addCommentValidation, truthy.
    rewrite Hcontent. by rewrite bool_decide_eq_false_2. }
  split.
  - intros Hrole. unfold TicketController.addComment.
    rewrite try_catch_run, Hvalid, Hinternal.
    rewrite bool_decide_eq_true_2 by done. reflexivity.
  - intros Hrole t Ht comment t'. unfold TicketController.addComment.
    rewrite try_catch_run, Hvalid, Hinternal, Hcontent.
    rewrite bool_decide_eq_false_2 by (destruct Hrole; congruence).
    cbn [andb]. rewrite bind_run, getTicketById_run, Ht. cbv beta iota.
    cbn [andb]. rewrite bind_run.
    erewrite addComment_run by exact Ht. cbv beta iota zeta.
    rewrite json_run. split; reflexivity.
Qed.

Lemma internal_comment_rule_witness :
  TicketController.b_isInternal internal_note = Some true
  ∧ TicketController.b_content internal_note = Some "Customer called twice"
  ∧ "Customer called twice" ≠ ""
  ∧ TicketController.addComment 5 (Some alice_actor) 101 internal_note
      first_ticket_filed
    = (Ok {| res_status := 403;
             res_body :=
               body_message "Customers cannot create internal comments" |},
       first_ticket_filed).
Proof.
  split_and!; [reflexivity|reflexivity|discriminate|].
  apply (internal_comment_rule 5 alice_actor 101 internal_note
           first_ticket_filed "Customer called twice");
    [reflexivity|reflexivity|discriminate|reflexivity].
Defined.

(** ** Listing and visibility *)

Global Instance newer_first_total : Total newer_first.
Proof. intros a b. unfold newer_first. lia. Qed.

Global Instance newer_first_trans : Transitive newer_first.
Proof. intros a b c. unfold newer_first. lia. Qed.





Section Listing.

Variable regex_valid : string → bool.
Variable regex_i : string → string → bool.

Lemma Ticket_find_elem filters s ticket :
  ticket ∈ TicketService.Ticket_find regex_i filters s ↔
  ∃ i t, tickets s !! i = Some t
         ∧ TicketService.matches regex_i filters t = true
         ∧ ticket = populate s i t.
Proof.
  unfold TicketService.Ticket_find. rewrite list_elem_of_fmap. split.
  - intros ([i t] & -> & Hin). apply list_elem_of_filter in Hin as [Hm Hin].
    apply elem_of_map_to_list in Hin. eauto.
  - intros (i & t & Hi & Hm & ->). exists (i, t). split; [done|].
    apply list_elem_of_filter. split; [done|]. by apply elem_of_map_to_list.
Qed.

Lemma getTickets_run filters s :
  TicketService.getTickets regex_valid regex_i filters s =
  let page := match f_page filters with Some (S p) => S p | _ => 1 end in
  let limit := match f_limit filters with Some (S l) => S l | _ => 10 end in
  let found := TicketService.Ticket_find regex_i filters s in
  if TicketService.query_compiles regex_valid filters
  then
    (Ok {| r_tickets :=
             take limit
               (drop ((page - 1) * limit) (merge_sort newer_first found));
           r_total := length found;
           r_page := page;
           r_pages := ceil_div (length found) limit |}, s)
  else (Err "Regular expression is invalid", s).
Proof.
  unfold TicketService.getTickets. rewrite rethrow_id. cbv zeta.
  rewrite bind_run. unfold get_store at 1. cbv beta iota.
  rewrite bind_run.
  by destruct (TicketService.query_compiles regex_valid filters).
Qed.




End Listing.

Lemma matches_customer regex_i filters c t :
  f_customer filters = Some c →
  TicketService.matches regex_i filters t = true → t_customer t = c.
Proof.
  intros Hc. unfold TicketService.matches. rewrite Hc.
  rewrite !andb_true_iff. intros [[_ Hm] _].
  unfold match_ref in Hm. apply bool_decide_eq_true in Hm. congruence.
Qed.

Lemma ctl_getTicketById_run user ticketId s t :
  tickets s !! ticketId = Some t →
  TicketController.getTicketById user ticketId s =
  if is_customer user && other_customer (populate s ticketId t) user
  then (Ok {| res_status := 403;
              res_body := body_message "Not authorized to access this ticket" |},
        s)
  else (Ok {| res_status := 200;
              res_body := body_ticket (populate s ticketId t) |}, s).
Proof.
  intros Ht. unfold TicketController.getTicketById.
  rewrite try_catch_run, bind_run, getTicketById_run, Ht. cbv beta iota.
  by destruct (is_customer user && other_customer _ user).
Qed.

Lemma other_customer_stranger s ticketId t u :
  t_customer t ≠ a_id u → is_Some (users s !! t_customer t) →
  other_customer (populate s ticketId t) (Some u) = true.
Proof.
  intros Hne [c Hc]. unfold other_customer, populate. simpl.
  rewrite Hc. simpl. by rewrite bool_decide_eq_false_2.
Qed.

(** The visibility rule where the customer of the ticket resolves to a
    user.  A customer who asks for a ticket whose customer reference
    resolves to another user gets 403, and gets 200 for a ticket of their
    own; an admin or an agent gets 200 for any ticket.  Whenever the list
    handler answers 200, it answers a customer with tickets that all
    reference that customer, whatever customer filter the query carries,
    and an admin or an agent with what the service returns for the query
    as it is. *)
Theorem ticket_visibility (u : Actor) (s : Store) :
  (∀ ticketId t,
     tickets s !! ticketId = Some t →
     (a_role u = customer → t_customer t ≠ a_id u →
      is_Some (users s !! t_customer t) →
        TicketController.getTicketById (Some u) ticketId s
        = (Ok {| res_status := 403;
                 res_body :=
                   body_message "Not authorized to access this ticket" |}, s))
     ∧ (a_role u = customer → t_customer t = a_id u →
        TicketController.getTicketById (Some u) ticketId s
        = (Ok {| res_status := 200;
                 res_body := body_ticket (populate s ticketId t) |}, s))
     ∧ (a_role u = admin ∨ a_role u = agent →
        TicketController.getTicketById (Some u) ticketId s
        = (Ok {| res_status := 200;
                 res_body := body_ticket (populate s ticketId t) |}, s)))
  ∧ (∀ regex_valid regex_i query result,
       TicketController.getTickets regex_valid regex_i (Some u) query s
       = (Ok {| res_status := 200; res_body := body_page result |}, s) →
       (a_role u = customer →
        ∀ ticket, ticket ∈ r_tickets result →
          t_customer (tk_doc ticket) = a_id u)
       ∧ (a_role u = admin ∨ a_role u = agent →
          TicketService.getTickets regex_valid regex_i query s
          = (Ok result, s))).
Proof.
  split.
  - intros ticketId t Ht. rewrite (ctl_getTicketById_run _ _ _ _ Ht).
    unfold is_customer. split_and!.
    + intros Hrole Hne Huser.
      by rewrite bool_decide_eq_true_2, other_customer_stranger.
    + intros Hrole Hown.
      by rewrite bool_decide_eq_true_2, other_customer_owner.
    + intros Hrole.
      by rewrite bool_decide_eq_false_2 by (destruct Hrole; congruence).
  - intros regex_valid regex_i query result.
    unfold TicketController.getTickets. rewrite try_catch_run.
    destruct (TicketController.getTicketsValidation query); [|done].
    rewrite bind_run. cbv zeta.
    match goal with
    | |- context [TicketService.getTickets _ _ ?f s] => set (filters := f)
    end.
    rewrite getTickets_run. cbv zeta.
    destruct (TicketService.query_compiles regex_valid filters) eqn:Ec;
      [|done].
    cbv beta iota. rewrite json_run. intros [= <-].
    cbn [r_tickets]. split.
    + intros Hrole ticket Hin. subst filters.
      rewrite bool_decide_eq_true_2 in Hin by done.
      apply subseteq_take, subseteq_drop in Hin.
      rewrite merge_sort_Permutation in Hin.
      apply Ticket_find_elem in Hin as (i & t & _ & Hm & ->). simpl.
      apply (matches_customer regex_i
               (TicketController.with_customer (a_id u) query));
        [reflexivity|exact Hm].
    + intros Hrole. subst filters.
      rewrite bool_decide_eq_false_2 in Ec |- *
        by (destruct Hrole; congruence).
      by rewrite getTickets_run, Ec.
Qed.

Lemma ticket_visibility_witness :
  tickets first_ticket_filed !! 101 = Some first_ticket
  ∧ a_role bob_actor = customer
  ∧ t_customer first_ticket ≠ a_id bob_actor
  ∧ is_Some (users first_ticket_filed !! t_customer first_ticket)
  ∧ TicketController.getTicketById (Some bob_actor) 101 first_ticket_filed
    = (Ok {| res_status := 403;
             res_body :=
               body_message "Not authorized to access this ticket" |},
       first_ticket_filed).
Proof.
  split_and!; [reflexivity|reflexivity|discriminate|by eexists|].
  destruct (proj1 (ticket_visibility bob_actor first_ticket_filed)
              101 first_ticket eq_refl) as (Hdenied & _ & _).
  apply Hdenied; [reflexivity|discriminate|by eexists].
Defined.

(** C6.  The claim says that a customer who asks for a ticket whose
    customer reference differs from the customer's own identity gets 403.
    The agent Carol hands ticket 101 to the customer id 9, which belongs
    to no user; Bob, a customer whose id is not 9, asks for the ticket and
    is answered 200 with the ticket, not 403: the reference populates to
    null, and the handler's ownership test passes over a null customer. *)
Lemma customer_reads_ticket_of_unresolved_owner :
  a_role bob_actor = customer
  ∧ (t_customer <$> (tickets ticket_handed_to_stranger !! 101)) = Some 9
  ∧ a_id bob_actor ≠ 9
  ∧ users ticket_handed_to_stranger !! 9 = None
  ∧ ∃ r,
      TicketController.getTicketById (Some bob_actor) 101
        ticket_handed_to_stranger
      = (Ok r, ticket_handed_to_stranger)
      ∧ res_status r = 200 ∧ res_status r ≠ 403.
Proof.
  split_and!; [done|vm_compute; done|done|vm_compute; done|].
  eexists. split; [vm_compute; reflexivity|]. simpl. done.
Qed.




(** * Further properties of the services and the handlers *)

Global Instance by_name_total : Total by_name.
Proof. intros a b. unfold by_name. apply (total String.le). Qed.

Global Instance by_name_trans : Transitive by_name.
Proof. intros a b c. unfold by_name. apply (transitivity (R := String.le)). Qed.

Lemma getAllQueues_run s :
  QueueService.getAllQueues s
  = (Ok (merge_sort by_name (map_to_list (queues s))), s).
Proof. unfold QueueService.getAllQueues. by rewrite rethrow_id. Qed.

(** X1.  getAllQueues never fails and leaves the store as it is; it
    lists every stored queue exactly once, in ascending order of name. *)
Theorem getAllQueues_sorted (s : Store) :
  ∃ listed,
    QueueService.getAllQueues s = (Ok listed, s)
    ∧ (∀ i q, (i, q) ∈ listed ↔ queues s !! i = Some q)
    ∧ NoDup listed
    ∧ length listed = size (queues s)
    ∧ StronglySorted by_name listed.
Proof.
  eexists. split; [apply getAllQueues_run|]. split_and!.
  - intros i q. rewrite merge_sort_Permutation. apply elem_of_map_to_list.
  - rewrite merge_sort_Permutation. apply NoDup_map_to_list.
  - rewrite merge_sort_Permutation. apply length_map_to_list.
  - apply StronglySorted_merge_sort; apply _.
Qed.

Lemma unique_names_alt (qs : gmap Id Queue) :
  unique_names qs ↔
  ∀ i j qi qj, qs !! i = Some qi → qs !! j = Some qj →
    q_name qi = q_name qj → i = j.
Proof.
  unfold unique_names. split.
  - intros Hnd i j qi qj Hi Hj Hn.
    apply elem_of_map_to_list in Hi, Hj.
    apply list_elem_of_lookup in Hi as [a Ha], Hj as [b Hb].
    assert (a = b) as ->.
    { eapply NoDup_lookup; [exact Hnd|..];
        rewrite list_lookup_fmap; [by rewrite Ha|by rewrite Hb; simpl; rewrite Hn]. }
    congruence.
  - intros H. apply NoDup_fmap_2_strong; [|apply NoDup_map_to_list].
    intros [i qi] [j qj] Hi Hj Hn. simpl in Hn.
    apply elem_of_map_to_list in Hi, Hj.
    assert (i = j) as -> by eauto. congruence.
Qed.

Lemma unset_default_name now q : q_name (unset_default now q) = q_name q.
Proof. unfold unset_default. by destruct (q_isDefault q). Qed.

Lemma swept_lookup now o (qs : gmap Id Queue) i q' :
  swept now o qs !! i = Some q' →
  ∃ q, qs !! i = Some q ∧ q_name q' = q_name q.
Proof.
  unfold swept. destruct (default false o); [|eauto].
  rewrite lookup_fmap. destruct (qs !! i) as [q|]; [|done].
  intros [= <-]. eexists. split; [done|]. apply unset_default_name.
Qed.

Lemma unique_names_swept now o qs :
  unique_names qs → unique_names (swept now o qs).
Proof.
  rewrite !unique_names_alt. intros H i j qi qj Hi Hj Hn.
  apply swept_lookup in Hi as (qi0 & Hi & Ei), Hj as (qj0 & Hj & Ej).
  eapply H; [done|done|congruence].
Qed.

Lemma unique_names_insert (qs : gmap Id Queue) i q :
  unique_names qs →
  (∀ j qj, qs !! j = Some qj → j ≠ i → q_name qj ≠ q_name q) →
  unique_names (<[i := q]> qs).
Proof.
  rewrite !unique_names_alt. intros H Hfree j k qj qk.
  rewrite !lookup_insert. repeat case_decide; subst; try done.
  - intros [= <-] Hk Hn. exfalso. by eapply Hfree.
  - intros Hj [= <-] Hn. exfalso. by eapply Hfree.
  - eauto.
Qed.

Lemma unique_names_delete (qs : gmap Id Queue) i :
  unique_names qs → unique_names (delete i qs).
Proof.
  rewrite !unique_names_alt. intros H j k qj qk.
  rewrite !lookup_delete_Some. intros [_ Hj] [_ Hk]. eauto.
Qed.

(** What a successful [updateQueue] has checked. *)
Lemma updateQueue_Ok now queueId p s iq s' :
  QueueService.updateQueue now queueId p s = (Ok iq, s') →
  ∃ q, swept now (qp_isDefault p) (queues s) !! queueId = Some q
     ∧ iq = (queueId, apply_queue_patch now p q)
     ∧ (∀ n, qp_name p = Some n →
          name_taken (trim n)
            (delete queueId (swept now (qp_isDefault p) (queues s))) = false)
     ∧ queues s' = <[queueId := apply_queue_patch now p q]>
                     (swept now (qp_isDefault p) (queues s))
     ∧ tickets s' = tickets s ∧ users s' = users s ∧ next_id s' = next_id s.
Proof.
  unfold QueueService.updateQueue, Queue_findByIdAndUpdate,
    Queue_updateMany_unset_default, swept.
  rewrite rethrow_id. unfold_m.
  destruct (default false (qp_isDefault p)) eqn:Ed; simpl;
    match goal with
    | |- context [?qs !! queueId] => destruct (qs !! queueId) as [q|] eqn:Eq
    end; simpl; try done;
    match goal with
    | |- context [if ?b then _ else _] => destruct b eqn:Eb
    end; simpl; try done; intros [= <- <-];
    (eexists; split_and!; try done; intros n Hn; by rewrite Hn in Eb).
Qed.

Lemma createQueue_invariant_names now d s :
  unique_names (queues s) →
  unique_names (queues (QueueService.createQueue now d s).2).
Proof.
  intros Hinv.
  destruct (QueueService.createQueue now d s) as [r s'] eqn:E. simpl.
  apply createQueue_queues in E as [[_ ->]|(q & _ & Hn & _ & Hfree & ->)].
  - by apply unique_names_swept.
  - apply unique_names_insert; [by apply unique_names_swept|].
    intros j qj Hj _. rewrite Hn.
    rewrite name_taken_false in Hfree. eauto.
Qed.

Lemma updateQueue_invariant_names now queueId p s :
  unique_names (queues s) →
  unique_names (queues (QueueService.updateQueue now queueId p s).2).
Proof.
  intros Hinv.
  destruct (QueueService.updateQueue now queueId p s) as [[iq|e] s'] eqn:E;
    simpl.
  - apply updateQueue_Ok in E as (q & Hq & _ & Hfree & -> & _).
    apply unique_names_insert; [by apply unique_names_swept|].
    intros j qj Hj Hne. unfold apply_queue_patch. simpl.
    destruct (qp_name p) as [n|] eqn:En; simpl.
    + specialize (Hfree n eq_refl). rewrite name_taken_false in Hfree.
      apply (Hfree j). by rewrite lookup_delete_ne.
    + intros Heq. apply Hne.
      apply unique_names_swept with (now := now) (o := qp_isDefault p) in Hinv.
      rewrite unique_names_alt in Hinv. eauto.
  - apply updateQueue_queues in E as [[_ E]|(q & _ & [=] & _)].
    rewrite E. by apply unique_names_swept.
Qed.

Lemma deleteQueue_invariant_names queueId s :
  unique_names (queues s) →
  unique_names (queues (QueueService.deleteQueue queueId s).2).
Proof.
  intros Hinv. rewrite deleteQueue_run.
  destruct (queues s !! queueId) as [q|]; [|done].
  destruct (q_isDefault q); [done|]. simpl. by apply unique_names_delete.
Qed.

(** X2.  If no two stored queues share a name, then after any sequence
    of createQueue, updateQueue and deleteQueue calls, failed ones
    included, still no two stored queues share a name. *)
Theorem queue_ops_keep_names_unique (ops : list QueueOp) (s : Store)
    (Hinv : unique_names (queues s)) :
  unique_names (queues (run_ops ops s)).
Proof.
  unfold run_ops. revert s Hinv.
  induction ops as [|op ops IH]; intros s Hinv; simpl; [done|].
  apply IH. destruct op; simpl;
    auto using createQueue_invariant_names, updateQueue_invariant_names,
      deleteQueue_invariant_names.
Qed.

Lemma queue_ops_keep_names_unique_witness :
  unique_names (queues demo_store)
  ∧ unique_names (queues (run_ops demo_ops demo_store)).
Proof.
  split.
  - apply (bool_decide_unpack _). vm_compute. exact I.
  - apply (queue_ops_keep_names_unique demo_ops demo_store).
    apply (bool_decide_unpack _). vm_compute. exact I.
Defined.

Lemma queues_after_sweep now o s :
  queues (after_sweep now o s) = swept now o (queues s).
Proof. unfold after_sweep, swept. by destruct (default false o). Qed.

Lemma name_taken_swept name now o qs :
  name_taken name (swept now o qs) = name_taken name qs.
Proof.
  unfold swept. destruct (default false o); [|done].
  apply eq_true_iff_eq. rewrite !name_taken_true. split.
  - intros (j & q' & Hj & Hn). rewrite lookup_fmap in Hj.
    destruct (qs !! j) as [q|] eqn:E; [|done]. injection Hj as <-.
    rewrite unset_default_name in Hn. eauto.
  - intros (j & q & Hj & Hn). exists j, (unset_default now q).
    rewrite lookup_fmap, Hj. split; [done|]. by rewrite unset_default_name.
Qed.

Lemma createQueue_run now d s :
  QueueService.createQueue now d s =
  let s1 := after_sweep now (qd_isDefault d) s in
  let name := trim (qd_name d) in
  if bool_decide (name = "")
  then (Err "Queue validation failed: name: Path `name` is required.", s1)
  else if name_taken name (queues s)
  then (Err "E11000 duplicate key error collection: queues index: name_1", s1)
  else
    let queue := {| q_name := name;
                    q_description := trim <$> qd_description d;
                    q_isDefault := default false (qd_isDefault d);
                    q_createdAt := now; q_updatedAt := now |} in
    (Ok (next_id s, queue),
     {| users := users s; queues := <[next_id s := queue]> (queues s1);
        tickets := tickets s; next_id := S (next_id s) |}).
Proof.
  unfold QueueService.createQueue, Queue_save, Queue_updateMany_unset_default.
  rewrite rethrow_id, bind_run. cbv zeta.
  rewrite <- (name_taken_swept _ now (qd_isDefault d)).
  rewrite <- queues_after_sweep. unfold after_sweep.
  destruct (default false (qd_isDefault d)); unfold_m; cbv beta iota;
    case_bool_decide; try done;
    match goal with
    | |- context [name_taken ?n ?qs] => by destruct (name_taken n qs)
    end.
Qed.

Lemma no_default_after_sweep now (s : Store) :
  QueueService.getDefaultQueue (set_queues (fmap (unset_default now)) s)
  = (Err "No default queue found", set_queues (fmap (unset_default now)) s).
Proof.
  rewrite getDefaultQueue_run.
  assert (find (λ kv : Id * Queue, q_isDefault kv.2)
            (map_to_list (queues (set_queues (fmap (unset_default now)) s)))
          = None) as ->; [|done].
  apply find_default_None. intros j q. apply unset_default_all.
Qed.

Lemma updateQueue_run now queueId p s :
  QueueService.updateQueue now queueId p s =
  let s1 := after_sweep now (qp_isDefault p) s in
  match queues s1 !! queueId with
  | None => (Err "Queue not found", s1)
  | Some q =>
    if match qp_name p with
       | Some n => name_taken (trim n) (delete queueId (queues s1))
       | None => false
       end
    then (Err "E11000 duplicate key error collection: queues index: name_1", s1)
    else (Ok (queueId, apply_queue_patch now p q),
          set_queues <[queueId := apply_queue_patch now p q]> s1)
  end.
Proof.
  unfold QueueService.updateQueue, Queue_findByIdAndUpdate,
    Queue_updateMany_unset_default, after_sweep.
  rewrite rethrow_id. cbv zeta.
  destruct (default false (qp_isDefault p)); unfold_m; cbv beta iota;
    match goal with
    | |- context [?qs !! queueId] => destruct (qs !! queueId) as [q|]
    end; try done;
    match goal with
    | |- context [if ?b then _ else _] => by destruct b
    end.
Qed.

(** X3.  createQueue fails when the trimmed name is empty or is the
    name of a stored queue, and the store it leaves is the swept one when
    the caller asked for a default queue, the unchanged one otherwise.
    With a trimmed name that is neither, it succeeds: the queue stored
    under the fresh id carries the trimmed name and description, the
    requested default flag (false when absent) and the current time, a
    following getQueueById returns that queue, and no ticket is touched. *)
Theorem createQueue_outcome (now : Time) (d : QueueData) (s : Store) :
  (trim (qd_name d) = ""
   ∨ (∃ j q, queues s !! j = Some q ∧ q_name q = trim (qd_name d)) →
   ∃ e,
     QueueService.createQueue now d s
     = (Err e, after_sweep now (qd_isDefault d) s))
  ∧ (trim (qd_name d) ≠ "" →
     (∀ j q, queues s !! j = Some q → q_name q ≠ trim (qd_name d)) →
     ∃ queue s',
       QueueService.createQueue now d s = (Ok (next_id s, queue), s')
       ∧ q_name queue = trim (qd_name d)
       ∧ q_description queue = trim <$> qd_description d
       ∧ q_isDefault queue = default false (qd_isDefault d)
       ∧ q_createdAt queue = now
       ∧ QueueService.getQueueById (next_id s) s' = (Ok (next_id s, queue), s')
       ∧ tickets s' = tickets s).
Proof.
  rewrite createQueue_run. cbv zeta. split.
  - intros [Hblank|Htaken].
    + rewrite bool_decide_eq_true_2 by done. eauto.
    + apply name_taken_true in Htaken. rewrite Htaken.
      case_bool_decide; eauto.
  - intros Hname Hfree. apply name_taken_false in Hfree.
    rewrite bool_decide_eq_false_2, Hfree by done.
    eexists _, _. split_and!; try reflexivity.
    rewrite getQueueById_run. simpl. by rewrite lookup_insert_eq.
Qed.

Lemma createQueue_outcome_witness :
  trim (qd_name sales_default) ≠ ""
  ∧ (∀ j q, queues demo_store !! j = Some q →
       q_name q ≠ trim (qd_name sales_default))
  ∧ ∃ queue s',
      QueueService.createQueue 5 sales_default demo_store
      = (Ok (20, queue), s')
      ∧ q_name queue = "Sales"
      ∧ QueueService.getQueueById 20 s' = (Ok (20, queue), s').
Proof.
  assert (Hname : trim (qd_name sales_default) ≠ "") by discriminate.
  assert (Hfree : ∀ j q, queues demo_store !! j = Some q →
                    q_name q ≠ trim (qd_name sales_default)).
  { apply name_taken_false. reflexivity. }
  split_and!; [exact Hname|exact Hfree|].
  destruct (proj2 (createQueue_outcome 5 sales_default demo_store) Hname Hfree)
    as (queue & s' & Hrun & Hn & _ & _ & _ & Hget & _).
  exists queue, s'. split_and!; [exact Hrun|exact Hn|exact Hget].
Defined.

(** X4.  A createQueue with isDefault = true that is refused for its
    name (blank once trimmed, or taken), and an updateQueue with
    isDefault = true on an id that is not stored, fail after the sweep has
    run: every queue is left with isDefault = false, and getDefaultQueue
    then fails with "No default queue found". *)
Theorem refused_default_request_unsets_default (now : Time) (s : Store) :
  let s1 := set_queues (fmap (unset_default now)) s in
  (∀ d, qd_isDefault d = Some true →
        trim (qd_name d) = ""
        ∨ (∃ j q, queues s !! j = Some q ∧ q_name q = trim (qd_name d)) →
        ∃ e, QueueService.createQueue now d s = (Err e, s1))
  ∧ (∀ queueId p, qp_isDefault p = Some true →
        queues s !! queueId = None →
        QueueService.updateQueue now queueId p s = (Err "Queue not found", s1))
  ∧ QueueService.getDefaultQueue s1 = (Err "No default queue found", s1)
  ∧ (∀ j q, queues s !! j = Some q →
        queues s1 !! j = Some (unset_default now q)).
Proof.
  intros s1. split_and!.
  - intros d Hd Hbad. rewrite createQueue_run. cbv zeta.
    unfold after_sweep. rewrite Hd. cbn [default from_option id].
    destruct Hbad as [Hblank|Htaken].
    + rewrite bool_decide_eq_true_2 by done. eauto.
    + apply name_taken_true in Htaken. rewrite Htaken.
      case_bool_decide; eauto.
  - intros queueId p Hp Hnone. rewrite updateQueue_run. cbv zeta.
    unfold after_sweep. rewrite Hp. simpl.
    by rewrite lookup_fmap, Hnone.
  - apply no_default_after_sweep.
  - intros j q Hj. subst s1. simpl. by rewrite lookup_fmap, Hj.
Qed.

Lemma refused_default_request_unsets_default_witness :
  qd_isDefault billing_again = Some true
  ∧ (∃ j q, queues demo_store !! j = Some q
            ∧ q_name q = trim (qd_name billing_again))
  ∧ QueueService.getDefaultQueue demo_store = (Ok (10, support), demo_store)
  ∧ ∃ e s1,
      QueueService.createQueue 5 billing_again demo_store = (Err e, s1)
      ∧ QueueService.getDefaultQueue s1 = (Err "No default queue found", s1).
Proof.
  assert (Htaken : ∃ j q, queues demo_store !! j = Some q
                          ∧ q_name q = trim (qd_name billing_again)).
  { exists 11, billing. split; reflexivity. }
  split_and!; [reflexivity|exact Htaken|reflexivity|].
  destruct (refused_default_request_unsets_default 5 demo_store)
    as (Hcreate & _ & Hget & _).
  destruct (Hcreate billing_again eq_refl (or_intror Htaken)) as [e He].
  eexists e, _. split; [exact He|exact Hget].
Defined.

Lemma NoDup_singleton_elem {A} (l : list A) a :
  NoDup l → (∀ x, x ∈ l ↔ x = a) → l = [a].
Proof.
  intros Hnd H. destruct l as [|x [|y l]].
  - assert (Ha : a ∈ @nil A) by by apply H. by apply elem_of_nil in Ha.
  - f_equal. apply H. constructor.
  - assert (x = a) as -> by (apply H; constructor).
    assert (y = a) as -> by (apply H; do 2 constructor).
    apply NoDup_cons in Hnd as [Hnd _]. destruct Hnd. constructor.
Qed.

(** A store in which the queue [i] is the one default queue. *)
Lemma sole_default (qs : gmap Id Queue) i q :
  qs !! i = Some q → q_isDefault q = true →
  (∀ j qj, qs !! j = Some qj → q_isDefault qj = true → j = i) →
  find (λ kv : Id * Queue, q_isDefault kv.2) (map_to_list qs) = Some (i, q)
  ∧ defaults qs = [(i, q)].
Proof.
  intros Hi Hd Hsole. split.
  - destruct (find _ _) as [[j qj]|] eqn:E.
    + apply find_default_Some in E as [Hj Hdj].
      assert (j = i) as -> by eauto. congruence.
    + rewrite find_default_None in E. apply E in Hi. congruence.
  - apply NoDup_singleton_elem; [apply NoDup_defaults|].
    intros [j qj]. rewrite defaults_elem. split.
    + intros [Hj Hdj]. assert (j = i) as -> by eauto. congruence.
    + intros [= -> ->]. done.
Qed.

(** X5.  After a successful createQueue or updateQueue with
    isDefault = true, the queue it returns is the only queue marked
    default and is the one that getDefaultQueue returns. *)
Theorem requested_default_becomes_the_default (now : Time) (s : Store) :
  (∀ d iq s',
     qd_isDefault d = Some true →
     QueueService.createQueue now d s = (Ok iq, s') →
     QueueService.getDefaultQueue s' = (Ok iq, s')
     ∧ defaults (queues s') = [iq])
  ∧ (∀ queueId p iq s',
     qp_isDefault p = Some true →
     QueueService.updateQueue now queueId p s = (Ok iq, s') →
     QueueService.getDefaultQueue s' = (Ok iq, s')
     ∧ defaults (queues s') = [iq]).
Proof.
  split.
  - intros d iq s' Hd Hrun.
    apply createQueue_queues in Hrun
      as [[[e [=]] _]|(q & [= ->] & _ & Hq & _ & Hqs)].
    rewrite Hd in Hq, Hqs. simpl in Hq.
    destruct (sole_default (queues s') (next_id s) q) as [Hfind Hdefs].
    + rewrite Hqs. apply lookup_insert_eq.
    + done.
    + intros j qj. rewrite Hqs, lookup_insert. case_decide; [done|].
      intros Hj%swept_true. congruence.
    + by rewrite getDefaultQueue_run, Hfind.
  - intros queueId p iq s' Hp Hrun.
    apply updateQueue_Ok in Hrun as (q & _ & -> & _ & Hqs & _).
    rewrite Hp in Hqs.
    destruct (sole_default (queues s') queueId (apply_queue_patch now p q))
      as [Hfind Hdefs].
    + rewrite Hqs. apply lookup_insert_eq.
    + unfold apply_queue_patch. simpl. by rewrite Hp.
    + intros j qj. rewrite Hqs, lookup_insert. case_decide; [done|].
      intros Hj%swept_true. congruence.
    + by rewrite getDefaultQueue_run, Hfind.
Qed.

Lemma requested_default_becomes_the_default_witness :
  qd_isDefault sales_default = Some true
  ∧ ∃ iq s',
      QueueService.createQueue 5 sales_default demo_store = (Ok iq, s')
      ∧ QueueService.getDefaultQueue demo_store = (Ok (10, support), demo_store)
      ∧ QueueService.getDefaultQueue s' = (Ok iq, s')
      ∧ q_name iq.2 = "Sales".
Proof.
  split; [reflexivity|].
  eexists _, _. split; [vm_compute; reflexivity|].
  split; [reflexivity|]. split; [|reflexivity].
  refine (proj1 (proj1 (requested_default_becomes_the_default 5 demo_store)
                   sales_default _ _ eq_refl _)).
  vm_compute. reflexivity.
Defined.

(** X6.  deleteQueue refuses the default queue, but the guard is
    passed in two calls: updateQueue with isDefault = false on the default
    queue leaves the directory without a default queue, and deleteQueue
    then removes the queue. *)
Theorem default_queue_removable_in_two_steps (now : Time) (queueId : Id)
    (q : Queue) (s : Store)
    (Hq : queues s !! queueId = Some q)
    (Hdefault : q_isDefault q = true)
    (Hinv : at_most_one_default (queues s)) :
  QueueService.deleteQueue queueId s
    = (Err "Cannot delete the default queue", s)
  ∧ ∃ s1,
      (QueueService.updateQueue now queueId unmark_default s).2 = s1
      ∧ QueueService.getDefaultQueue s1 = (Err "No default queue found", s1)
      ∧ QueueService.deleteQueue queueId s1
        = (Ok {| success := true; message := "Queue deleted successfully" |},
           set_queues (delete queueId) s1)
      ∧ QueueService.getQueueById queueId (set_queues (delete queueId) s1)
        = (Err "Queue not found", set_queues (delete queueId) s1).
Proof.
  split.
  - by rewrite deleteQueue_run, Hq, Hdefault.
  - eexists. split; [reflexivity|].
    rewrite updateQueue_run. cbv zeta. unfold after_sweep, unmark_default.
    simpl. rewrite Hq. simpl. split_and!.
    + rewrite getDefaultQueue_run.
      match goal with
      | |- context [find ?f ?l] => assert (find f l = None) as ->; [|done]
      end.
      apply find_default_None. intros j qj. simpl.
      rewrite lookup_insert. case_decide.
      * by intros [= <-].
      * intros Hj. destruct (q_isDefault qj) eqn:E; [|done].
        pose proof (proj1 (at_most_one_default_alt _) Hinv) as Halt.
        exfalso. eauto.
    + rewrite deleteQueue_run. simpl. by rewrite lookup_insert_eq.
    + rewrite getQueueById_run. simpl. by rewrite lookup_delete_eq.
Qed.

Lemma default_queue_removable_in_two_steps_witness :
  queues demo_store !! 10 = Some support
  ∧ q_isDefault support = true
  ∧ at_most_one_default (queues demo_store)
  ∧ QueueService.deleteQueue 10 demo_store
    = (Err "Cannot delete the default queue", demo_store)
  ∧ (QueueService.deleteQueue 10
       (QueueService.updateQueue 6 10 unmark_default demo_store).2).1
    = Ok {| success := true; message := "Queue deleted successfully" |}.
Proof.
  assert (Hinv : at_most_one_default (queues demo_store))
    by (vm_compute; lia).
  split_and!; [reflexivity|reflexivity|exact Hinv| |].
  - apply (default_queue_removable_in_two_steps 6 10 support demo_store
             eq_refl eq_refl Hinv).
  - destruct (default_queue_removable_in_two_steps 6 10 support demo_store
                eq_refl eq_refl Hinv) as (_ & s1 & <- & _ & Hdel & _).
    by rewrite Hdel.
Defined.

Lemma qjson_run code b s :
  qjson code b s = (Ok {| qres_status := code; qres_body := b |}, s).
Proof. reflexivity. Qed.

Lemma after_sweep_skip now o s : o ≠ Some true → after_sweep now o s = s.
Proof. unfold after_sweep. by destruct o as [[|]|]. Qed.

Lemma authorizeRoles_refuses roles u :
  a_role u ∉ roles →
  authorizeRoles roles (Some u)
  = Some (403, "Role " +:+ role_name (a_role u)
               +:+ " is not authorized to access this resource").
Proof. intros H. unfold authorizeRoles. by rewrite bool_decide_eq_false_2. Qed.

Lemma authorizeRoles_admits roles u :
  a_role u ∈ roles → authorizeRoles roles (Some u) = None.
Proof. intros H. unfold authorizeRoles. by rewrite bool_decide_eq_true_2. Qed.

(** X7.  The role gate in front of the routes: a customer is answered
    403 by PUT /:id/assign and PUT /:id/queue, and whoever is not an
    admin is answered 403 by POST, PUT and DELETE on /api/queues, with the
    message that names the role and the store unchanged; an agent or
    admin reaches the two ticket handlers, and an admin the three queue
    handlers. *)
Theorem role_gates (now : Time) (u : Actor) (s : Store) :
  let refusal :=
    "Role " +:+ role_name (a_role u)
    +:+ " is not authorized to access this resource" in
  (a_role u = customer →
     ∀ id assigneeId queueId,
       TicketRoutes.put_assign now (Some u) id assigneeId s
       = (Ok {| res_status := 403; res_body := body_message refusal |}, s)
       ∧ TicketRoutes.put_queue now (Some u) id queueId s
         = (Ok {| res_status := 403; res_body := body_message refusal |}, s))
  ∧ (a_role u ≠ admin →
     ∀ id body,
       QueueRoutes.post now (Some u) body s
       = (Ok {| qres_status := 403; qres_body := qbody_message refusal |}, s)
       ∧ QueueRoutes.put now (Some u) id body s
         = (Ok {| qres_status := 403; qres_body := qbody_message refusal |}, s)
       ∧ QueueRoutes.delete (Some u) id s
         = (Ok {| qres_status := 403; qres_body := qbody_message refusal |}, s))
  ∧ (a_role u ≠ customer →
     ∀ id assigneeId queueId,
       TicketRoutes.put_assign now (Some u) id assigneeId
       = TicketController.assignTicket now id assigneeId
       ∧ TicketRoutes.put_queue now (Some u) id queueId
         = TicketController.moveTicketQueue now id queueId)
  ∧ (a_role u = admin →
     ∀ id body,
       QueueRoutes.post now (Some u) body = QueueController.createQueue now body
       ∧ QueueRoutes.put now (Some u) id body
         = QueueController.updateQueue now id body
       ∧ QueueRoutes.delete (Some u) id = QueueController.deleteQueue id).
Proof.
  intros refusal. split_and!.
  - intros Hrole id assigneeId queueId.
    unfold TicketRoutes.put_assign, TicketRoutes.put_queue.
    rewrite authorizeRoles_refuses; [done|].
    rewrite Hrole, !elem_of_cons, elem_of_nil. by intros [?|[?|?]].
  - intros Hrole id body.
    unfold QueueRoutes.post, QueueRoutes.put, QueueRoutes.delete.
    rewrite authorizeRoles_refuses; [done|].
    rewrite !elem_of_cons, elem_of_nil. by intros [?|?].
  - intros Hrole id assigneeId queueId.
    unfold TicketRoutes.put_assign, TicketRoutes.put_queue.
    rewrite authorizeRoles_admits; [done|].
    destruct (a_role u); [by left|by right; left|done].
  - intros Hrole id body.
    unfold QueueRoutes.post, QueueRoutes.put, QueueRoutes.delete.
    rewrite authorizeRoles_admits; [done|]. rewrite Hrole. by left.
Qed.

Lemma role_gates_witness :
  a_role alice_actor = customer
  ∧ TicketRoutes.put_queue 5 (Some alice_actor) 101 (Some 11)
      first_ticket_filed
    = (Ok {| res_status := 403;
             res_body :=
               body_message
                 "Role customer is not authorized to access this resource" |},
       first_ticket_filed).
Proof.
  split; [reflexivity|].
  apply (proj1 (role_gates 5 alice_actor first_ticket_filed) eq_refl 101
           None (Some 11)).
Defined.

Lemma ctl_deleteQueue_run id s :
  QueueController.deleteQueue id s =
  match QueueService.deleteQueue id s with
  | (Ok result, s') =>
    (Ok {| qres_status := 200; qres_body := qbody_result result |}, s')
  | (Err e, s') =>
    (Ok {| qres_status := 500; qres_body := qbody_message e |}, s')
  end.
Proof.
  unfold QueueController.deleteQueue. rewrite try_catch_run, bind_run.
  by destruct (QueueService.deleteQueue id s) as [[r|e] s'].
Qed.

(** X8.  The error answers of the queue handlers.  For an id that is
    not stored GET answers 404 while DELETE and PUT (without
    isDefault = true) answer 500, with "Queue not found" and the store
    unchanged; DELETE of the default queue answers 500; POST without a
    name answers 400; POST with a name that is blank once trimmed and
    isDefault = true answers 500 and leaves the directory without a
    default queue. *)
Theorem queue_handler_errors (now : Time) (s : Store) :
  (∀ id, queues s !! id = None →
     QueueController.getQueueById id s
     = (Ok {| qres_status := 404;
              qres_body := qbody_message "Queue not found" |}, s)
     ∧ QueueController.deleteQueue id s
       = (Ok {| qres_status := 500;
                qres_body := qbody_message "Queue not found" |}, s)
     ∧ ∀ body,
         QueueController.qb_isDefault body ≠ Some true →
         QueueController.updateQueue now id body s
         = (Ok {| qres_status := 500;
                  qres_body := qbody_message "Queue not found" |}, s))
  ∧ (∀ id q, queues s !! id = Some q → q_isDefault q = true →
     QueueController.deleteQueue id s
     = (Ok {| qres_status := 500;
              qres_body := qbody_message "Cannot delete the default queue" |},
        s))
  ∧ (∀ body, truthy (QueueController.qb_name body) = false →
     QueueController.createQueue now body s
     = (Ok {| qres_status := 400;
              qres_body := qbody_errors ["Queue name is required"] |}, s))
  ∧ (∀ body name,
     QueueController.qb_name body = Some name → name ≠ "" → trim name = "" →
     QueueController.qb_isDefault body = Some true →
     let s1 := set_queues (fmap (unset_default now)) s in
     QueueController.createQueue now body s
     = (Ok {| qres_status := 500;
              qres_body :=
                qbody_message
                  "Queue validation failed: name: Path `name` is required." |},
        s1)
     ∧ QueueService.getDefaultQueue s1 = (Err "No default queue found", s1)).
Proof.
  split_and!.
  - intros id Hnone. split_and!.
    + unfold QueueController.getQueueById.
      by rewrite try_catch_run, bind_run, getQueueById_run, Hnone.
    + by rewrite ctl_deleteQueue_run, deleteQueue_run, Hnone.
    + intros body Hflag. unfold QueueController.updateQueue.
      rewrite try_catch_run. cbn [QueueController.updateQueueValidation].
      rewrite bind_run, updateQueue_run. cbv zeta. cbn [qp_isDefault].
      rewrite after_sweep_skip by done. by rewrite Hnone.
  - intros id q Hq Hd.
    by rewrite ctl_deleteQueue_run, deleteQueue_run, Hq, Hd.
  - intros body Hname. unfold QueueController.createQueue,
      QueueController.createQueueValidation.
    rewrite try_catch_run, Hname. reflexivity.
  - intros body name Hname Hfilled Hblank Hflag s1. split.
    + unfold QueueController.createQueue,
        QueueController.createQueueValidation.
      rewrite try_catch_run, Hname. unfold truthy.
      rewrite bool_decide_eq_false_2 by done. cbn [negb].
      rewrite bind_run, createQueue_run. cbv zeta. cbn [qd_name default].
      rewrite bool_decide_eq_true_2 by done.
      unfold after_sweep. cbn [qd_isDefault]. rewrite Hflag. reflexivity.
    + apply no_default_after_sweep.
Qed.

Lemma queue_handler_errors_witness :
  QueueController.qb_name blank_default = Some "   "
  ∧ "   " ≠ "" ∧ trim "   " = ""
  ∧ QueueController.qb_isDefault blank_default = Some true
  ∧ QueueService.getDefaultQueue demo_store = (Ok (10, support), demo_store)
  ∧ ∃ r s1,
      QueueController.createQueue 5 blank_default demo_store = (Ok r, s1)
      ∧ qres_status r = 500
      ∧ QueueService.getDefaultQueue s1 = (Err "No default queue found", s1).
Proof.
  split_and!; [reflexivity|discriminate|reflexivity|reflexivity|reflexivity|].
  destruct (proj2 (proj2 (proj2 (queue_handler_errors 5 demo_store)))
              blank_default "   " eq_refl ltac:(discriminate) eq_refl eq_refl)
    as [Hrun Hget].
  eexists _, _. split; [exact Hrun|]. split; [reflexivity|exact Hget].
Defined.

Lemma moveToQueue_run now ticketId queueId s :
  TicketService.moveToQueue now ticketId queueId s =
  match queues s !! queueId with
  | None => (Err "Queue not found", s)
  | Some _ =>
    match tickets s !! ticketId with
    | None => (Err "Ticket not found", s)
    | Some t =>
      (Ok (populate s ticketId (requeued now queueId t)),
       set_tickets <[ticketId := requeued now queueId t]> s)
    end
  end.
Proof.
  unfold TicketService.moveToQueue.
  rewrite rethrow_id, bind_run, getQueueById_run.
  destruct (queues s !! queueId) as [q|]; [|done].
  rewrite bind_run. unfold Ticket_findByIdAndUpdate_set. cbn [cast_status p_status].
  rewrite bind_run. unfold get_store at 1. cbv beta iota.
  destruct (tickets s !! ticketId) as [t|]; reflexivity.
Qed.

(** X9.  moveToQueue looks the queue up first: an unknown queue gives
    "Queue not found" and an unknown ticket, for a known queue, gives
    "Ticket not found", the store unchanged in both cases.  For a known
    queue and a stored ticket the call succeeds, the ticket returned is
    the one stored, it differs from the old one in its queue and its
    updatedAt only, and no other ticket and no queue is touched. *)
Theorem moveToQueue_outcome (now : Time) (ticketId queueId : Id) (s : Store) :
  (queues s !! queueId = None →
     TicketService.moveToQueue now ticketId queueId s
     = (Err "Queue not found", s))
  ∧ (is_Some (queues s !! queueId) → tickets s !! ticketId = None →
     TicketService.moveToQueue now ticketId queueId s
     = (Err "Ticket not found", s))
  ∧ (is_Some (queues s !! queueId) →
     ∀ t, tickets s !! ticketId = Some t →
       ∃ ticket s',
         TicketService.moveToQueue now ticketId queueId s = (Ok ticket, s')
         ∧ tk_id ticket = ticketId
         ∧ tickets s' !! ticketId = Some (tk_doc ticket)
         ∧ t_queue (tk_doc ticket) = queueId
         ∧ t_updatedAt (tk_doc ticket) = now
         ∧ tk_doc ticket = requeued now queueId t
         ∧ (∀ j, j ≠ ticketId → tickets s' !! j = tickets s !! j)
         ∧ queues s' = queues s).
Proof.
  rewrite moveToQueue_run. split_and!.
  - by intros ->.
  - by intros [q ->] ->.
  - intros [q ->] t ->. eexists _, _. split; [reflexivity|]. simpl.
    split_and!; try done.
    + by rewrite lookup_insert_eq.
    + intros j Hj. by rewrite lookup_insert_ne.
Qed.

Lemma moveToQueue_outcome_witness :
  is_Some (queues first_ticket_filed !! 100)
  ∧ tickets first_ticket_filed !! 101 = Some first_ticket
  ∧ queues first_ticket_filed !! 7 = None
  ∧ TicketService.moveToQueue 9 101 7 first_ticket_filed
    = (Err "Queue not found", first_ticket_filed)
  ∧ ∃ ticket s',
      TicketService.moveToQueue 9 101 100 first_ticket_filed = (Ok ticket, s')
      ∧ t_queue (tk_doc ticket) = 100 ∧ t_updatedAt (tk_doc ticket) = 9.
Proof.
  assert (Hq : is_Some (queues first_ticket_filed !! 100)) by by eexists.
  split_and!; [exact Hq|reflexivity|reflexivity|..].
  - apply (proj1 (moveToQueue_outcome 9 101 7 first_ticket_filed) eq_refl).
  - destruct (proj2 (proj2 (moveToQueue_outcome 9 101 100 first_ticket_filed))
                Hq first_ticket eq_refl)
      as (ticket & s' & Hrun & _ & _ & Hqueue & Hupd & _).
    exists ticket, s'. split_and!; [exact Hrun|exact Hqueue|exact Hupd].
Defined.

(** X10.  Deleting a queue that is not the default one succeeds
    whatever tickets reference it: no ticket and no user is touched, the
    tickets of that queue keep a reference that getQueueById no longer
    resolves, and moveToQueue to the deleted queue fails with
    "Queue not found". *)
Theorem deleteQueue_orphans_tickets (queueId : Id) (q : Queue) (s : Store)
    (Hq : queues s !! queueId = Some q)
    (Hplain : q_isDefault q = false) :
  ∃ s',
    QueueService.deleteQueue queueId s
    = (Ok {| success := true; message := "Queue deleted successfully" |}, s')
    ∧ tickets s' = tickets s
    ∧ users s' = users s
    ∧ (∀ i t, tickets s !! i = Some t → t_queue t = queueId →
         tickets s' !! i = Some t
         ∧ QueueService.getQueueById (t_queue t) s'
           = (Err "Queue not found", s'))
    ∧ (∀ now ticketId,
         TicketService.moveToQueue now ticketId queueId s'
         = (Err "Queue not found", s')).
Proof.
  eexists. rewrite deleteQueue_run, Hq, Hplain. split; [reflexivity|].
  split_and!; try done.
  - intros i t Hi Hqueue. split; [done|].
    rewrite getQueueById_run, Hqueue. simpl. by rewrite lookup_delete_eq.
  - intros now ticketId. rewrite moveToQueue_run. simpl.
    by rewrite lookup_delete_eq.
Qed.

Lemma deleteQueue_orphans_tickets_witness :
  queues billing_ticket_filed !! 11 = Some billing
  ∧ q_isDefault billing = false
  ∧ ∃ s',
      QueueService.deleteQueue 11 billing_ticket_filed
      = (Ok {| success := true; message := "Queue deleted successfully" |}, s')
      ∧ (t_queue <$> (tickets s' !! 20)) = Some 11
      ∧ queues s' !! 11 = None.
Proof.
  split_and!; [reflexivity|reflexivity|].
  destruct (deleteQueue_orphans_tickets 11 billing billing_ticket_filed
              eq_refl eq_refl) as (s' & Hrun & _).
  exists s'. split; [exact Hrun|].
  vm_compute in Hrun. injection Hrun as <-. split; reflexivity.
Defined.

Lemma Ticket_save_valid now d queue s :
  valid_fields d →
  Ticket_save now (TicketService.d_title d) (TicketService.d_description d)
    (or_else (TicketService.d_priority d) "medium")
    (TicketService.d_customer d) (Some queue)
    (default [] (TicketService.d_tags d)) s
  = (Ok (next_id s), with_new_ticket (new_ticket now d queue) s).
Proof.
  intros (Ht & Hd & Hp). unfold Ticket_save. rewrite Hp.
  by rewrite !bool_decide_eq_false_2.
Qed.

Lemma Ticket_save_invalid now d queue s :
  ¬ valid_fields d →
  ∃ e,
    Ticket_save now (TicketService.d_title d) (TicketService.d_description d)
      (or_else (TicketService.d_priority d) "medium")
      (TicketService.d_customer d) queue
      (default [] (TicketService.d_tags d)) s
    = (Err e, s).
Proof.
  intros Hbad. unfold Ticket_save, valid_fields in *.
  destruct queue as [queue|]; [|by eexists].
  repeat (case_bool_decide; [by eexists|]).
  destruct (includes priorities _) eqn:Ep; [tauto|by eexists].
Qed.

Lemma createTicket_queue_run now d queue s :
  TicketService.d_queue d = Some queue →
  TicketService.createTicket now d s =
  match Ticket_save now (TicketService.d_title d)
          (TicketService.d_description d)
          (or_else (TicketService.d_priority d) "medium")
          (TicketService.d_customer d) (Some queue)
          (default [] (TicketService.d_tags d)) s with
  | (Ok i, s') => TicketService.getTicketById i s'
  | (Err e, s') => (Err e, s')
  end.
Proof.
  intros Hq. unfold TicketService.createTicket.
  by rewrite rethrow_id, Hq, bind_run, mret_run, bind_run.
Qed.

(** X11.  For a request that names a queue, createTicket never looks
    the queue up.  With fields that the schema accepts (a title that is
    not blank once trimmed, a description, a priority of the enumeration
    or none) it stores the ticket under the fresh id with that queue
    reference, whether or not such a queue exists, and leaves the queue
    directory as it was; with other fields it fails and the store is
    unchanged. *)
Theorem createTicket_named_queue_unchecked (now : Time)
    (d : TicketService.TicketData) (queue : Id) (s : Store)
    (Hq : TicketService.d_queue d = Some queue) :
  (valid_fields d →
     TicketService.createTicket now d s
     = (Ok (populate s (next_id s) (new_ticket now d queue)),
        with_new_ticket (new_ticket now d queue) s))
  ∧ (¬ valid_fields d →
     ∃ e, TicketService.createTicket now d s = (Err e, s)).
Proof.
  rewrite (createTicket_queue_run _ _ _ _ Hq). split.
  - intros Hv. rewrite Ticket_save_valid by done.
    rewrite getTicketById_run. simpl. by rewrite lookup_insert_eq.
  - intros Hbad.
    destruct (Ticket_save_invalid now d (Some queue) s Hbad) as [e ->].
    by eexists.
Qed.

Lemma createTicket_named_queue_unchecked_witness :
  TicketService.d_queue ticket_for_queue_7 = Some 7
  ∧ valid_fields ticket_for_queue_7
  ∧ queues demo_store !! 7 = None
  ∧ ∃ ticket s',
      TicketService.createTicket 5 ticket_for_queue_7 demo_store
      = (Ok ticket, s')
      ∧ t_queue (tk_doc ticket) = 7
      ∧ t_title (tk_doc ticket) = "Badge reader"
      ∧ t_priority (tk_doc ticket) = "medium"
      ∧ queues s' !! 7 = None.
Proof.
  assert (Hv : valid_fields ticket_for_queue_7)
    by (apply (bool_decide_unpack _); vm_compute; exact I).
  split_and!; [reflexivity|exact Hv|reflexivity|].
  eexists _, _. split.
  - apply (proj1 (createTicket_named_queue_unchecked 5 ticket_for_queue_7 7
                    demo_store eq_refl) Hv).
  - split_and!; reflexivity.
Defined.

Lemma createTicket_no_default_run now d s :
  TicketService.d_queue d = None →
  (∀ j q, queues s !! j = Some q → q_isDefault q = false) →
  name_taken "General" (queues s) = false →
  TicketService.createTicket now d s =
  match Ticket_save now (TicketService.d_title d)
          (TicketService.d_description d)
          (or_else (TicketService.d_priority d) "medium")
          (TicketService.d_customer d) (Some (next_id s))
          (default [] (TicketService.d_tags d)) (with_general now s) with
  | (Ok i, s') => TicketService.getTicketById i s'
  | (Err e, s') => (Err e, s')
  end.
Proof.
  intros Hq Hnone Hfree. unfold TicketService.createTicket.
  rewrite rethrow_id, Hq.
  rewrite bind_run, try_catch_run, bind_run, getDefaultQueue_run.
  apply find_default_None in Hnone as Hfind. rewrite Hfind.
  rewrite bind_run, createQueue_General_run, Hfree by done.
  cbv beta iota zeta. rewrite mret_run, bind_run. reflexivity.
Qed.

(** X12.  For a request that names no queue, in a store without a
    default queue and without a queue named "General", whose fields the
    schema refuses: createTicket fails and stores no ticket, but the queue
    "General" that it created on the way stays, and is the default queue
    from then on. *)
Theorem createTicket_refused_after_General_created (now : Time)
    (d : TicketService.TicketData) (s : Store)
    (Hq : TicketService.d_queue d = None)
    (Hnone : ∀ j q, queues s !! j = Some q → q_isDefault q = false)
    (Hfree : name_taken "General" (queues s) = false)
    (Hbad : ¬ valid_fields d) :
  ∃ e,
    TicketService.createTicket now d s = (Err e, with_general now s)
    ∧ tickets (with_general now s) = tickets s
    ∧ queues (with_general now s) !! next_id s = Some (general_queue now)
    ∧ QueueService.getDefaultQueue (with_general now s)
      = (Ok (next_id s, general_queue now), with_general now s).
Proof.
  rewrite createTicket_no_default_run by done.
  destruct (Ticket_save_invalid now d (Some (next_id s)) (with_general now s)
              Hbad) as [e ->].
  exists e. split_and!; [done|done|apply lookup_insert_eq|].
  rewrite getDefaultQueue_run.
  destruct (sole_default (queues (with_general now s)) (next_id s)
              (general_queue now)) as [-> _]; [apply lookup_insert_eq|done| |done].
  intros j qj. simpl. rewrite lookup_insert.
  case_decide; [done|]. intros Hj Hd. apply Hnone in Hj. congruence.
Qed.

Lemma createTicket_refused_after_General_created_witness :
  TicketService.d_queue blank_title = None
  ∧ (∀ j q, queues fresh_store !! j = Some q → q_isDefault q = false)
  ∧ name_taken "General" (queues fresh_store) = false
  ∧ ¬ valid_fields blank_title
  ∧ ∃ e,
      TicketService.createTicket 1 blank_title fresh_store
      = (Err e, with_general 1 fresh_store)
      ∧ size (queues (with_general 1 fresh_store)) = 1
      ∧ tickets (with_general 1 fresh_store) = ∅.
Proof.
  assert (Hnone : ∀ j q, queues fresh_store !! j = Some q →
                         q_isDefault q = false) by (intros j q; done).
  assert (Hbad : ¬ valid_fields blank_title)
    by (apply (bool_decide_unpack _); vm_compute; exact I).
  split_and!; [reflexivity|exact Hnone|reflexivity|exact Hbad|].
  destruct (createTicket_refused_after_General_created 1 blank_title
              fresh_store eq_refl Hnone eq_refl Hbad) as (e & Hrun & _).
  exists e. split_and!; [exact Hrun|reflexivity|reflexivity].
Defined.

Lemma tickets_after_sweep now o s :
  tickets (after_sweep now o s) = tickets s
  ∧ users (after_sweep now o s) = users s
  ∧ next_id (after_sweep now o s) = next_id s.
Proof. unfold after_sweep. by destruct (default false o). Qed.

Lemma save_then_read now d queue s0 r s' :
  match Ticket_save now (TicketService.d_title d)
          (TicketService.d_description d)
          (or_else (TicketService.d_priority d) "medium")
          (TicketService.d_customer d) (Some queue)
          (default [] (TicketService.d_tags d)) s0 with
  | (Ok i, s1) => TicketService.getTicketById i s1
  | (Err e, s1) => (Err e, s1)
  end = (r, s') →
  match r with
  | Ok ticket =>
    valid_fields d
    ∧ ticket = populate s0 (next_id s0) (new_ticket now d queue)
    ∧ s' = with_new_ticket (new_ticket now d queue) s0
  | Err _ => ¬ valid_fields d ∧ s' = s0
  end.
Proof.
  destruct (decide (valid_fields d)) as [Hv|Hbad].
  - rewrite Ticket_save_valid by done.
    rewrite getTicketById_run. simpl. rewrite lookup_insert_eq.
    by intros [= <- <-].
  - destruct (Ticket_save_invalid now d (Some queue) s0 Hbad) as [e ->].
    by intros [= <- <-].
Qed.

(** What a call of the service's createTicket leaves behind. *)
Lemma createTicket_result now d s r s' :
  TicketService.createTicket now d s = (r, s') →
  users s' = users s
  ∧ next_id s ≤ next_id s'
  ∧ match r with
    | Ok ticket =>
      valid_fields d
      ∧ (∃ queue, tk_doc ticket = new_ticket now d queue)
      ∧ tickets s' = <[tk_id ticket := tk_doc ticket]> (tickets s)
      ∧ next_id s ≤ tk_id ticket < next_id s'
    | Err _ => tickets s' = tickets s
    end.
Proof.
  assert (Hstep : ∀ queue s0 r s',
    users s0 = users s → tickets s0 = tickets s → next_id s ≤ next_id s0 →
    match Ticket_save now (TicketService.d_title d)
            (TicketService.d_description d)
            (or_else (TicketService.d_priority d) "medium")
            (TicketService.d_customer d) (Some queue)
            (default [] (TicketService.d_tags d)) s0 with
    | (Ok i, s1) => TicketService.getTicketById i s1
    | (Err e, s1) => (Err e, s1)
    end = (r, s') →
    users s' = users s
    ∧ next_id s ≤ next_id s'
    ∧ match r with
      | Ok ticket =>
        valid_fields d
        ∧ (∃ queue, tk_doc ticket = new_ticket now d queue)
        ∧ tickets s' = <[tk_id ticket := tk_doc ticket]> (tickets s)
        ∧ next_id s ≤ tk_id ticket < next_id s'
      | Err _ => tickets s' = tickets s
      end).
  { intros queue s0 r0 s0' Hu Ht Hn H. apply save_then_read in H.
    destruct r0 as [ticket|e].
    - destruct H as (Hv & -> & ->). simpl. rewrite Ht.
      split_and!; eauto with lia.
    - by destruct H as [_ ->]. }
  unfold TicketService.createTicket. rewrite rethrow_id, bind_run.
  destruct (TicketService.d_queue d) as [queue|].
  - rewrite mret_run. by apply Hstep.
  - rewrite try_catch_run, bind_run, getDefaultQueue_run.
    destruct (find _ _) as [[i q]|].
    + rewrite mret_run. cbn [fst]. by apply Hstep.
    + rewrite bind_run, createQueue_run. cbv zeta.
      destruct (tickets_after_sweep now (Some true) s) as (Ht & Hu & Hn).
      case_bool_decide as Hname;
        [intros [= <- <-]; split_and!; [done|lia|done]|].
      destruct (name_taken _ _);
        [intros [= <- <-]; split_and!; [done|lia|done]|].
      rewrite mret_run. cbn [fst]. apply Hstep; simpl; [done|done|lia].
Qed.

Lemma createTicket_invalid now d s :
  ¬ valid_fields d →
  ∃ e s', TicketService.createTicket now d s = (Err e, s').
Proof.
  intros Hbad.
  destruct (TicketService.createTicket now d s) as [[ticket|e] s'] eqn:E;
    [|by eauto].
  apply createTicket_result in E as (_ & _ & Hv & _). done.
Qed.

Lemma ctl_createTicket_run now user body s :
  TicketController.createTicket now user body s =
  match TicketController.createTicketValidation body with
  | [] =>
    match user with
    | None =>
      (Ok {| res_status := 401;
             res_body := body_message "Not authenticated" |}, s)
    | Some u =>
      match TicketService.createTicket now (ticket_data_of u body) s with
      | (Ok ticket, s') =>
        (Ok {| res_status := 201; res_body := body_ticket ticket |}, s')
      | (Err e, s') =>
        (Ok {| res_status := 500; res_body := body_message e |}, s')
      end
    end
  | errors =>
    (Ok {| res_status := 400; res_body := body_errors errors |}, s)
  end.
Proof.
  unfold TicketController.createTicket. rewrite try_catch_run.
  destruct (TicketController.createTicketValidation body); [|done].
  destruct user as [u|]; [|done].
  rewrite bind_run. fold (ticket_data_of u body).
  by destruct (TicketService.createTicket now (ticket_data_of u body) s)
    as [[ticket|e] s'].
Qed.

(** X13.  The handler of POST /api/tickets always answers and never
    touches a user.  It answers 400 with the validation errors, or 401
    without an authenticated user, and leaves the store as it is.
    Otherwise it answers 201 with the stored ticket, whose customer is
    the authenticated user, whose status is "new" and whose title is the
    trimmed, non-empty title of the body, or it answers 500 and stores no
    ticket; a title that is blank once trimmed passes the validation and
    is answered 500. *)
Theorem post_ticket_outcome (now : Time) (user : option Actor)
    (body : TicketController.CreateBody) (s : Store) :
  ∃ res s',
    TicketController.createTicket now user body s = (Ok res, s')
    ∧ users s' = users s
    ∧ (TicketController.createTicketValidation body ≠ [] →
       res = {| res_status := 400;
                res_body :=
                  body_errors (TicketController.createTicketValidation body) |}
       ∧ s' = s)
    ∧ (TicketController.createTicketValidation body = [] → user = None →
       res = {| res_status := 401;
                res_body := body_message "Not authenticated" |}
       ∧ s' = s)
    ∧ (TicketController.createTicketValidation body = [] →
       ∀ u, user = Some u →
         (res_status res = 201
          ∧ ∃ ticket,
              res_body res = body_ticket ticket
              ∧ t_customer (tk_doc ticket) = a_id u
              ∧ t_status (tk_doc ticket) = "new"
              ∧ t_title (tk_doc ticket)
                = trim (default "" (TicketController.cb_title body))
              ∧ t_title (tk_doc ticket) ≠ ""
              ∧ tickets s' = <[tk_id ticket := tk_doc ticket]> (tickets s))
         ∨ (res_status res = 500 ∧ tickets s' = tickets s))
    ∧ (TicketController.createTicketValidation body = [] →
       is_Some user →
       trim (default "" (TicketController.cb_title body)) = "" →
       res_status res = 500).
Proof.
  rewrite ctl_createTicket_run.
  destruct (TicketController.createTicketValidation body) as [|err errs].
  - destruct user as [u|].
    + destruct (TicketService.createTicket now (ticket_data_of u body) s)
        as [[ticket|e] s'] eqn:E;
        apply createTicket_result in E as (Hu & _ & HE); eexists _, _;
        (split; [reflexivity|]); (split; [done|]);
        split_and!; try done.
      * intros _ u' [= <-]. left. split; [done|]. exists ticket.
        destruct HE as (Hv & (queue & Hdoc) & Ht & _).
        rewrite Hdoc. split_and!; try done. apply Hv.
        by rewrite <- Hdoc.
      * intros _ _ Hblank. destruct HE as ((Hv & _) & _). done.
      * intros _ u' [= <-]. right. done.
    + eexists _, _. split; [reflexivity|]. split; [done|].
      split_and!; done.
  - eexists _, _. split; [reflexivity|]. split; [done|].
    split_and!; done.
Qed.

Lemma post_ticket_outcome_witness :
  TicketController.createTicketValidation blank_title_body = []
  ∧ is_Some (Some alice_actor)
  ∧ trim (default "" (TicketController.cb_title blank_title_body)) = ""
  ∧ ∃ res s',
      TicketController.createTicket 1 (Some alice_actor) blank_title_body
        fresh_store
      = (Ok res, s')
      ∧ res_status res = 500.
Proof.
  assert (Huser : is_Some (Some alice_actor)) by by eexists.
  split_and!; [reflexivity|exact Huser|reflexivity|].
  destruct (post_ticket_outcome 1 (Some alice_actor) blank_title_body
              fresh_store) as (res & s' & Hrun & _ & _ & _ & _ & Hblank).
  exists res, s'. split; [exact Hrun|].
  apply (Hblank eq_refl Huser eq_refl).
Defined.

Lemma addComment_missing now ticketId comment s :
  tickets s !! ticketId = None →
  TicketService.addComment now ticketId comment s
  = (Err "Ticket not found", s).
Proof.
  intros Ht. unfold TicketService.addComment, Ticket_findByIdAndUpdate_push.
  rewrite rethrow_id. cbv zeta. rewrite !bind_run.
  unfold get_store at 1. cbv beta iota. by rewrite Ht.
Qed.

(** The handler of PUT /:id once the body has passed validation and the
    ticket is found. *)
Lemma ctl_updateTicket_run now user id body s t :
  TicketController.updateTicketValidation body = [] →
  tickets s !! id = Some t →
  TicketController.updateTicket now user id body s =
  if is_customer user && other_customer (populate s id t) user
  then (Ok {| res_status := 403;
              res_body := body_message "Not authorized to update this ticket" |},
        s)
  else if is_customer user
          && some (keys body)
                  (λ update, negb (includes ["title"; "description"] update))
  then (Ok {| res_status := 403;
              res_body :=
                body_message
                  "Customers can only update title and description" |}, s)
  else
    let t' := apply_set now (p_status body)
                (set_of_patch (stamped now t body)) t in
    (Ok {| res_status := 200; res_body := body_ticket (populate s id t') |},
     set_tickets <[id := t']> s).
Proof.
  intros Hvalid Ht. unfold TicketController.updateTicket.
  rewrite try_catch_run, Hvalid, bind_run, getTicketById_run, Ht.
  cbv beta iota zeta.
  destruct (is_customer user); cbn [andb].
  - destruct (other_customer _ user); [done|].
    destruct (some _ _); [done|].
    rewrite bind_run. erewrite updateTicket_run by exact Ht. done.
  - rewrite bind_run. erewrite updateTicket_run by exact Ht. done.
Qed.

(** The handler of POST /:id/comments once the body has passed
    validation, for an authenticated user and a ticket that is found. *)
Lemma ctl_addComment_run now u id body s t :
  TicketController.addCommentValidation body = [] →
  tickets s !! id = Some t →
  TicketController.addComment now (Some u) id body s =
  if bool_decide (a_role u = customer)
     && default false (TicketController.b_isInternal body)
  then (Ok {| res_status := 403;
              res_body :=
                body_message "Customers cannot create internal comments" |},
        s)
  else if bool_decide (a_role u = customer)
          && other_customer (populate s id t) (Some u)
  then (Ok {| res_status := 403;
              res_body :=
                body_message "Not authorized to comment on this ticket" |}, s)
  else
    let t' :=
      apply_push now
        {| c_content := default "" (TicketController.b_content body);
           c_author := a_id u;
           c_isInternal := default false (TicketController.b_isInternal body);
           c_createdAt := now |} t in
    (Ok {| res_status := 200; res_body := body_ticket (populate s id t') |},
     set_tickets <[id := t']> s).
Proof.
  intros Hvalid Ht. unfold TicketController.addComment.
  rewrite try_catch_run, Hvalid.
  destruct (bool_decide (a_role u = customer) && default false _); [done|].
  rewrite bind_run, getTicketById_run, Ht. cbv beta iota.
  destruct (bool_decide (a_role u = customer) && other_customer _ _); [done|].
  rewrite bind_run. erewrite addComment_run by exact Ht. done.
Qed.

(** X14.  For a ticket id that is not stored, the handlers disagree on
    the status code and agree on everything else: GET /:id answers 404,
    while PUT /:id (with a valid body), POST /:id/comments (with a valid
    body that is not a customer's internal comment) and PUT /:id/queue
    (with a stored queue) answer 500, all with the message
    "Ticket not found" and the store unchanged. *)
Theorem missing_ticket_responses (now : Time) (user : option Actor) (id : Id)
    (s : Store) (Hmissing : tickets s !! id = None) :
  let not_found code :=
    (Ok {| res_status := code; res_body := body_message "Ticket not found" |},
     s) in
  TicketController.getTicketById user id s = not_found 404
  ∧ (∀ body,
       TicketController.updateTicketValidation body = [] →
       TicketController.updateTicket now user id body s = not_found 500)
  ∧ (∀ u body,
       user = Some u →
       TicketController.addCommentValidation body = [] →
       ¬ (a_role u = customer
          ∧ TicketController.b_isInternal body = Some true) →
       TicketController.addComment now user id body s = not_found 500)
  ∧ (∀ queueId,
       is_Some (queues s !! queueId) →
       TicketController.moveTicketQueue now id (Some queueId) s
       = not_found 500).
Proof.
  intros not_found. unfold not_found. split_and!.
  - unfold TicketController.getTicketById.
    by rewrite try_catch_run, bind_run, getTicketById_run, Hmissing.
  - intros body Hvalid. unfold TicketController.updateTicket.
    by rewrite try_catch_run, Hvalid, bind_run, getTicketById_run, Hmissing.
  - intros u body -> Hvalid Hpublic. unfold TicketController.addComment.
    rewrite try_catch_run, Hvalid.
    assert (bool_decide (a_role u = customer)
            && default false (TicketController.b_isInternal body) = false)
      as ->.
    { apply andb_false_iff. case_bool_decide; [right|by left].
      destruct (TicketController.b_isInternal body) as [[|]|]; try done.
      destruct Hpublic. done. }
    by rewrite bind_run, getTicketById_run, Hmissing.
  - intros queueId [q Hq]. unfold TicketController.moveTicketQueue.
    rewrite try_catch_run. cbn [TicketController.moveTicketQueueValidation].
    by rewrite bind_run, moveToQueue_run, Hq, Hmissing.
Qed.

Lemma missing_ticket_responses_witness :
  tickets demo_store !! 55 = None
  ∧ TicketController.getTicketById (Some alice_actor) 55 demo_store
    = (Ok {| res_status := 404; res_body := body_message "Ticket not found" |},
       demo_store)
  ∧ TicketController.addComment 5 (Some alice_actor) 55 public_note demo_store
    = (Ok {| res_status := 500; res_body := body_message "Ticket not found" |},
       demo_store).
Proof.
  pose proof (missing_ticket_responses 5 (Some alice_actor) 55 demo_store
                eq_refl) as (Hget & _ & Hpost & _).
  split_and!; [reflexivity| |].
  - exact Hget.
  - apply (Hpost alice_actor public_note eq_refl eq_refl).
    intros [_ Hint]. discriminate Hint.
Defined.

Lemma is_customer_true u : a_role u = customer → is_customer (Some u) = true.
Proof. intros H. unfold is_customer. by rewrite bool_decide_eq_true_2. Qed.

(** X15.  A customer who is not the customer of a ticket, when that
    reference resolves to a user, can neither update the ticket nor
    comment on it: a body that passes validation is answered 403 and the
    store is left as it was. *)
Theorem foreign_ticket_write_protected (now : Time) (u : Actor) (id : Id)
    (t : Ticket) (s : Store)
    (Hrole : a_role u = customer)
    (Ht : tickets s !! id = Some t)
    (Howner : is_Some (users s !! t_customer t))
    (Hforeign : t_customer t ≠ a_id u) :
  (∀ body,
     TicketController.updateTicketValidation body = [] →
     TicketController.updateTicket now (Some u) id body s
     = (Ok {| res_status := 403;
              res_body :=
                body_message "Not authorized to update this ticket" |}, s))
  ∧ (∀ body,
       TicketController.addCommentValidation body = [] →
       TicketController.addComment now (Some u) id body s
       = (Ok {| res_status := 403;
                res_body :=
                  body_message
                    (if default false (TicketController.b_isInternal body)
                     then "Customers cannot create internal comments"
                     else "Not authorized to comment on this ticket") |}, s)).
Proof.
  pose proof (other_customer_stranger s id t u Hforeign Howner) as Hother.
  split.
  - intros body Hvalid.
    rewrite (ctl_updateTicket_run _ _ _ _ _ t) by done.
    by rewrite is_customer_true, Hother.
  - intros body Hvalid.
    rewrite (ctl_addComment_run _ _ _ _ _ t) by done.
    rewrite bool_decide_eq_true_2, Hother by done. cbn [andb].
    by destruct (default false _).
Qed.

Lemma foreign_ticket_write_protected_witness :
  a_role bob_actor = customer
  ∧ tickets first_ticket_filed !! 101 = Some first_ticket
  ∧ is_Some (users first_ticket_filed !! t_customer first_ticket)
  ∧ t_customer first_ticket ≠ a_id bob_actor
  ∧ TicketController.updateTicket 5 (Some bob_actor) 101 new_title
      first_ticket_filed
    = (Ok {| res_status := 403;
             res_body :=
               body_message "Not authorized to update this ticket" |},
       first_ticket_filed)
  ∧ TicketController.addComment 5 (Some bob_actor) 101 public_note
      first_ticket_filed
    = (Ok {| res_status := 403;
             res_body :=
               body_message "Not authorized to comment on this ticket" |},
       first_ticket_filed).
Proof.
  assert (Howner : is_Some (users first_ticket_filed
                              !! t_customer first_ticket)) by by eexists.
  assert (Hforeign : t_customer first_ticket ≠ a_id bob_actor) by done.
  pose proof (foreign_ticket_write_protected 5 bob_actor 101 first_ticket
                first_ticket_filed eq_refl eq_refl Howner Hforeign)
    as [Hput Hpost].
  split_and!; [reflexivity|reflexivity|exact Howner|exact Hforeign|..].
  - apply (Hput new_title eq_refl).
  - apply (Hpost public_note eq_refl).
Defined.

(** X16.  When the customer reference of a ticket resolves to no
    user, the ownership test of the handlers lets every customer through:
    any customer's update of title and description is applied with 200,
    and any customer's public comment is appended with 200. *)
Theorem unresolved_owner_ticket_open_to_customers (now : Time) (u : Actor)
    (id : Id) (t : Ticket) (s : Store)
    (Hrole : a_role u = customer)
    (Ht : tickets s !! id = Some t)
    (Hdangling : users s !! t_customer t = None) :
  (∀ body,
     (∀ k, k ∈ keys body → k ∈ ["title"; "description"]) →
     TicketController.updateTicket now (Some u) id body s
     = (Ok {| res_status := 200;
              res_body := body_ticket (populate s id (retitled now body t)) |},
        set_tickets <[id := retitled now body t]> s))
  ∧ (∀ body content,
       TicketController.b_content body = Some content → content ≠ "" →
       default false (TicketController.b_isInternal body) = false →
       ∃ ticket s',
         TicketController.addComment now (Some u) id body s
         = (Ok {| res_status := 200; res_body := body_ticket ticket |}, s')
         ∧ tickets s' !! id = Some (tk_doc ticket)
         ∧ t_comments (tk_doc ticket)
           = t_comments t
             ++ [{| c_content := content; c_author := a_id u;
                    c_isInternal := false; c_createdAt := now |}]).
Proof.
  assert (Hother : other_customer (populate s id t) (Some u) = false).
  { unfold other_customer, populate. simpl. by rewrite Hdangling. }
  split.
  - intros body Hall.
    destruct (keys_allowed_only body Hall) as (Hs & Hp & _).
    rewrite (ctl_updateTicket_run _ _ _ _ _ t); [|
      unfold TicketController.updateTicketValidation; by rewrite Hs, Hp|done].
    rewrite is_customer_true, Hother by done. cbn [andb].
    assert (some (keys body)
              (λ update, negb (includes ["title"; "description"] update))
            = false) as ->.
    { apply some_false. intros x Hx.
      apply negb_false_iff, includes_true. auto. }
    cbv zeta. by rewrite apply_set_allowed_only.
  - intros body content Hcontent Hfilled Hpublic.
    rewrite (ctl_addComment_run _ _ _ _ _ t); [|
      unfold TicketController.addCommentValidation, truthy;
      by rewrite Hcontent, bool_decide_eq_false_2|done].
    rewrite Hpublic, Hother, !andb_false_r. cbv zeta.
    eexists _, _. split; [reflexivity|]. simpl.
    rewrite lookup_insert_eq, Hcontent. done.
Qed.

Lemma unresolved_owner_ticket_open_to_customers_witness :
  a_role bob_actor = customer
  ∧ tickets ticket_handed_to_stranger !! 101
    = Some (apply_set 4 None (set_of_patch owner_replaced) first_ticket)
  ∧ users ticket_handed_to_stranger !! 9 = None
  ∧ (∀ k, k ∈ keys new_title → k ∈ ["title"; "description"])
  ∧ ∃ ticket s',
      TicketController.updateTicket 5 (Some bob_actor) 101 new_title
        ticket_handed_to_stranger
      = (Ok {| res_status := 200; res_body := body_ticket ticket |}, s')
      ∧ t_title (tk_doc ticket) = "Printer fixed".
Proof.
  assert (Hkeys : ∀ k, k ∈ keys new_title → k ∈ ["title"; "description"]).
  { intros k Hk. apply list_elem_of_singleton in Hk as ->. constructor. }
  split_and!; [reflexivity|reflexivity|reflexivity|exact Hkeys|].
  eexists _, _. split.
  - apply (proj1 (unresolved_owner_ticket_open_to_customers 5 bob_actor 101
                    (apply_set 4 None (set_of_patch owner_replaced)
                       first_ticket)
                    ticket_handed_to_stranger eq_refl eq_refl eq_refl)
             new_title Hkeys).
  - reflexivity.
Defined.

Lemma history_kept_refl t : history_kept t t.
Proof. by split_and!. Qed.

Lemma history_kept_trans t1 t2 t3 :
  history_kept t1 t2 → history_kept t2 t3 → history_kept t1 t3.
Proof.
  intros (Hc & ? & ? & ? & ? & ? & ? & ? & ?)
         (Hc' & ? & ? & ? & ? & ? & ? & ? & ?).
  split_and!; [by etrans|congruence..].
Qed.

Lemma history_kept_apply_push now c t : history_kept t (apply_push now c t).
Proof. unfold history_kept. simpl. split_and!; try done. by eexists. Qed.

Lemma history_kept_requeued now queueId t :
  history_kept t (requeued now queueId t).
Proof. by split_and!. Qed.

(** One replaced document. *)
Lemma replaced_step (s : Store) ticketId t0 t0' :
  tickets s !! ticketId = Some t0 → history_kept t0 t0' → ids_fresh s →
  ids_fresh (set_tickets <[ticketId := t0']> s)
  ∧ ∀ i t, tickets s !! i = Some t →
      ∃ t', tickets (set_tickets <[ticketId := t0']> s) !! i = Some t'
            ∧ history_kept t t'.
Proof.
  intros Ht0 Hk Hfresh. split.
  - intros i. simpl. rewrite lookup_insert. case_decide as Hi.
    + subst. intros _. apply Hfresh. by eexists.
    + apply Hfresh.
  - intros i t Hi. simpl. rewrite lookup_insert. case_decide as Hi'.
    + subst. rewrite Ht0 in Hi. injection Hi as ->. eauto.
    + eexists. split; [done|]. apply history_kept_refl.
Qed.

(** Same tickets, a counter that has not gone back. *)
Lemma same_tickets_step (s s' : Store) :
  tickets s' = tickets s → next_id s ≤ next_id s' → ids_fresh s →
  ids_fresh s'
  ∧ ∀ i t, tickets s !! i = Some t →
      ∃ t', tickets s' !! i = Some t' ∧ history_kept t t'.
Proof.
  intros Ht Hn Hfresh. split.
  - intros i. rewrite Ht. intros Hi. apply Hfresh in Hi. lia.
  - intros i t Hi. rewrite Ht. eexists. split; [done|].
    apply history_kept_refl.
Qed.

Lemma run_op_tickets s op :
  tickets (run_op s op) = tickets s ∧ next_id s ≤ next_id (run_op s op).
Proof.
  destruct op as [now d|now queueId p|queueId]; simpl.
  - rewrite createQueue_run. cbv zeta.
    destruct (tickets_after_sweep now (qd_isDefault d) s) as (Ht & _ & Hn).
    case_bool_decide; [simpl; split; [done|lia]|].
    destruct (name_taken _ _); simpl; split; try done; lia.
  - rewrite updateQueue_run. cbv zeta.
    destruct (tickets_after_sweep now (qp_isDefault p) s) as (Ht & _ & Hn).
    destruct (queues _ !! queueId) as [q|]; [|simpl; split; [done|lia]].
    destruct (match qp_name p with Some _ => _ | None => _ end);
      simpl; split; try done; lia.
  - rewrite deleteQueue_run.
    destruct (queues s !! queueId) as [q|]; [|done].
    by destruct (q_isDefault q).
Qed.

Lemma run_ticket_op_step s op :
  ids_fresh s →
  ids_fresh (run_ticket_op s op)
  ∧ ∀ i t, tickets s !! i = Some t →
      ∃ t', tickets (run_ticket_op s op) !! i = Some t' ∧ history_kept t t'.
Proof.
  intros Hfresh.
  destruct op as [now d|now ticketId c|now ticketId a
                 |now ticketId queueId|op]; cbn [run_ticket_op].
  - destruct (TicketService.createTicket now d s) as [[ticket|e] s'] eqn:E;
      apply createTicket_result in E as (_ & Hn & HE); simpl.
    + destruct HE as (_ & _ & Ht & Hid). split.
      * intros i. rewrite Ht, lookup_insert. case_decide as Hi; [lia|].
        intros Hi'. apply Hfresh in Hi'. lia.
      * intros i t Hi. rewrite Ht, lookup_insert_ne.
        -- eexists. split; [done|]. apply history_kept_refl.
        -- assert (i < next_id s) by (apply Hfresh; by eexists). lia.
    + by apply same_tickets_step.
  - destruct (tickets s !! ticketId) as [t0|] eqn:Ht0.
    + erewrite addComment_run by exact Ht0. cbv zeta. simpl.
      apply (replaced_step s ticketId t0); [done| |done].
      apply history_kept_apply_push.
    + rewrite addComment_missing by done. simpl.
      by apply same_tickets_step.
  - rewrite assignTicket_run. by apply same_tickets_step.
  - rewrite moveToQueue_run.
    destruct (queues s !! queueId) as [q|];
      [|simpl; by apply same_tickets_step].
    destruct (tickets s !! ticketId) as [t0|] eqn:Ht0;
      [|simpl; by apply same_tickets_step].
    simpl. apply (replaced_step s ticketId t0); [done| |done].
    apply history_kept_requeued.
  - destruct (run_op_tickets s op) as [Ht Hn]. by apply same_tickets_step.
Qed.

(** X17.  In a store whose ticket ids were all handed out by the store,
    a stored ticket stays stored under any sequence of calls of
    createTicket, addComment, assignTicket, moveToQueue and the three
    queue mutations, failed calls included: its comments at the start are
    a prefix of its comments at the end, and its title, description,
    priority, customer, tags and its dates of creation, resolution and
    closing are what they were.  updateTicket is not among the calls. *)
Theorem ticket_history_is_kept (ops : list TicketOp) (s : Store) (id : Id)
    (t : Ticket)
    (Hfresh : ids_fresh s)
    (Ht : tickets s !! id = Some t) :
  ∃ t',
    tickets (run_ticket_ops ops s) !! id = Some t'
    ∧ t_comments t `prefix_of` t_comments t'
    ∧ t_title t' = t_title t
    ∧ t_description t' = t_description t
    ∧ t_priority t' = t_priority t
    ∧ t_customer t' = t_customer t
    ∧ t_tags t' = t_tags t
    ∧ t_createdAt t' = t_createdAt t
    ∧ t_resolvedAt t' = t_resolvedAt t
    ∧ t_closedAt t' = t_closedAt t.
Proof.
  change (∃ t', tickets (run_ticket_ops ops s) !! id = Some t'
                ∧ history_kept t t').
  unfold run_ticket_ops. revert s t Hfresh Ht.
  induction ops as [|op ops IH]; intros s t Hfresh Ht; simpl.
  - eexists. split; [done|]. apply history_kept_refl.
  - destruct (run_ticket_op_step s op Hfresh) as [Hfresh' Hstep].
    destruct (Hstep id t Ht) as (t1 & Ht1 & Hk1).
    destruct (IH _ t1 Hfresh' Ht1) as (t' & Ht' & Hk').
    exists t'. split; [done|]. by eapply history_kept_trans.
Qed.

Lemma ticket_history_is_kept_witness :
  ids_fresh first_ticket_resolved
  ∧ (∃ t, tickets first_ticket_resolved !! 101 = Some t
          ∧ t_resolvedAt t = Some 10)
  ∧ ∃ t',
      tickets (run_ticket_ops eventful_day first_ticket_resolved) !! 101
      = Some t'
      ∧ t_resolvedAt t' = Some 10
      ∧ t_queue t' = 102
      ∧ length (t_comments t') = 1.
Proof.
  assert (Hfresh : ids_fresh first_ticket_resolved).
  { intros i [t Hi].
    destruct (decide (i = 101)) as [->|Hne]; [vm_compute; lia|].
    exfalso. revert Hi.
    change (tickets first_ticket_resolved)
      with (<[101 := apply_set 10 (Some "resolved")
                       (set_of_patch
                          (stamped 10 first_ticket (status_only "resolved")))
                       first_ticket]> (tickets first_ticket_filed)).
    rewrite lookup_insert_ne by done.
    change (tickets first_ticket_filed)
      with (<[101 := first_ticket]> (∅ : gmap Id Ticket)).
    by rewrite lookup_insert_ne, lookup_empty by done. }
  split_and!; [exact Hfresh|eexists; split; reflexivity|].
  destruct (ticket_history_is_kept eventful_day first_ticket_resolved 101 _
              Hfresh eq_refl)
    as (t' & Ht' & _ & _ & _ & _ & _ & _ & _ & Hres & _).
  exists t'. split_and!; [exact Ht'|exact Hres|..].
  - revert Ht'. vm_compute. by intros [= <-].
  - revert Ht'. vm_compute. by intros [= <-].
Defined.



Section Listing.

Variable regex_valid : string → bool.
Variable regex_i : string → string → bool.


Lemma window_sublist {A} (l : list A) skip limit :
  take limit (drop skip l) `sublist_of` l.
Proof. etrans; [apply sublist_take|apply sublist_drop]. Qed.




Lemma returned_matches filters s result ticket :
  TicketService.getTickets regex_valid regex_i filters s = (Ok result, s) →
  ticket ∈ r_tickets result →
  TicketService.matches regex_i filters (tk_doc ticket) = true.
Proof.
  rewrite getTickets_run. cbv zeta.
  destruct (TicketService.query_compiles regex_valid filters); [|done].
  intros [= <-]. cbn [r_tickets]. intros Hin.
  eapply elem_of_sublist in Hin; [|apply window_sublist].
  rewrite merge_sort_Permutation in Hin.
  by apply Ticket_find_elem in Hin as (i & t & _ & Hm & ->).
Qed.

Lemma matches_fields filters t :
  TicketService.matches regex_i filters t = true →
  match_field (f_status filters) (t_status t) = true
  ∧ match_field (f_priority filters) (t_priority t) = true
  ∧ match_ref (f_queue filters) (Some (t_queue t)) = true
  ∧ match_ref (f_assignee filters) (t_assignee t) = true
  ∧ match_ref (f_customer filters) (Some (t_customer t)) = true
  ∧ (∀ pattern, f_search filters = Some pattern → pattern ≠ "" →
       regex_i pattern (t_title t) = true
       ∨ regex_i pattern (t_description t) = true).
Proof.
  unfold TicketService.matches. rewrite !andb_true_iff.
  intros [[[[[Hs Hp] Hq] Ha] Hc] Hsearch]. split_and!; try done.
  intros pattern Hpat Hne. rewrite Hpat in Hsearch. simpl in Hsearch.
  rewrite bool_decide_eq_false_2 in Hsearch by done. simpl in Hsearch.
  by apply orb_true_iff.
Qed.

(** X19.  Every ticket that getTickets returns satisfies each filter
    of the query: a status or priority given as a non-empty string is the
    ticket's, one given as an array contains the ticket's; the queue, the
    assignee and the customer of the query are the ticket's; a non-empty
    search pattern matches the title or the description. *)
Theorem getTickets_filters_hold (filters : TicketFilters) (s : Store)
    (result : TicketsPage) (ticket : ITicket)
    (Hrun : TicketService.getTickets regex_valid regex_i filters s
            = (Ok result, s))
    (Hin : ticket ∈ r_tickets result) :
  (∀ status, f_status filters = Some (One status) → status ≠ "" →
     t_status (tk_doc ticket) = status)
  ∧ (∀ l, f_status filters = Some (Many l) → t_status (tk_doc ticket) ∈ l)
  ∧ (∀ priority, f_priority filters = Some (One priority) → priority ≠ "" →
       t_priority (tk_doc ticket) = priority)
  ∧ (∀ l, f_priority filters = Some (Many l) →
       t_priority (tk_doc ticket) ∈ l)
  ∧ (∀ queue, f_queue filters = Some queue →
       t_queue (tk_doc ticket) = queue)
  ∧ (∀ assignee, f_assignee filters = Some assignee →
       t_assignee (tk_doc ticket) = Some assignee)
  ∧ (∀ customer, f_customer filters = Some customer →
       t_customer (tk_doc ticket) = customer)
  ∧ (∀ pattern, f_search filters = Some pattern → pattern ≠ "" →
       regex_i pattern (t_title (tk_doc ticket)) = true
       ∨ regex_i pattern (t_description (tk_doc ticket)) = true).
Proof.
  pose proof (returned_matches _ _ _ _ Hrun Hin) as Hm.
  apply matches_fields in Hm as (Hs & Hp & Hq & Ha & Hc & Hsearch).
  split_and!.
  - intros status E Hne. rewrite E in Hs. simpl in Hs.
    rewrite bool_decide_eq_false_2 in Hs by done.
    by apply bool_decide_eq_true in Hs.
  - intros l E. rewrite E in Hs. by apply includes_true in Hs.
  - intros priority E Hne. rewrite E in Hp. simpl in Hp.
    rewrite bool_decide_eq_false_2 in Hp by done.
    by apply bool_decide_eq_true in Hp.
  - intros l E. rewrite E in Hp. by apply includes_true in Hp.
  - intros queue E. rewrite E in Hq. apply bool_decide_eq_true in Hq.
    congruence.
  - intros assignee E. rewrite E in Ha. by apply bool_decide_eq_true in Ha.
  - intros customer E. rewrite E in Hc. apply bool_decide_eq_true in Hc.
    congruence.
  - done.
Qed.

End Listing.


Lemma getTickets_filters_hold_witness :
  ∃ result,
    TicketService.getTickets (λ _, true) (λ _ _, true) pressing
      three_tickets_filed
    = (Ok result, three_tickets_filed)
    ∧ populate three_tickets_filed 103 third_ticket ∈ r_tickets result
    ∧ f_priority pressing = Some (Many ["high"; "urgent"])
    ∧ t_priority third_ticket ∈ ["high"; "urgent"].
Proof.
  eexists. split; [rewrite getTickets_run; reflexivity|].
  match goal with
  | |- ?t ∈ ?l ∧ _ => assert (Hin : t ∈ l) by (vm_compute; constructor)
  end.
  split; [exact Hin|]. split; [reflexivity|].
  destruct (getTickets_filters_hold (λ _, true) (λ _ _, true) pressing
              three_tickets_filed _ _ (getTickets_run _ _ _ _) Hin)
    as (_ & _ & _ & Hmany & _).
  apply (Hmany ["high"; "urgent"] eq_refl).
Defined.





Lemma optional_isIn_nil field values o :
  optional_isIn field values o = [] → ∀ v, o = Some v → v ∈ values.
Proof.
  unfold optional_isIn. intros H v ->.
  destruct (includes values v) eqn:E; [|done]. by apply includes_true.
Qed.

Lemma p_priority_stamped now t (p : TicketPatch) :
  p_priority (stamped now t p) = p_priority p.
Proof.
  unfold stamped. destruct (p_comments p); simpl;
    repeat (case_match; simpl; try done).
Qed.

Lemma enums_ok_apply_set now (body : TicketPatch) t :
  TicketController.updateTicketValidation body = [] →
  enums_ok t →
  enums_ok (apply_set now (p_status body) (set_of_patch (stamped now t body)) t).
Proof.
  unfold TicketController.updateTicketValidation.
  intros [Hs Hp]%app_eq_nil [Hst Hpr]. unfold enums_ok, apply_set. simpl.
  rewrite p_priority_stamped. split.
  - destruct (p_status body) as [v|] eqn:E; simpl; [|done].
    by eapply optional_isIn_nil.
  - destruct (p_priority body) as [v|] eqn:E; simpl; [|done].
    by eapply optional_isIn_nil.
Qed.

Lemma ctl_addComment_tickets now user id body s :
  tickets (TicketController.addComment now user id body s).2 = tickets s
  ∨ ∃ t c, tickets s !! id = Some t
      ∧ tickets (TicketController.addComment now user id body s).2
        = <[id := apply_push now c t]> (tickets s).
Proof.
  destruct (TicketController.addCommentValidation body) as [|e es] eqn:Ev.
  - destruct user as [u|].
    + destruct (tickets s !! id) as [t|] eqn:Ht.
      * rewrite (ctl_addComment_run _ _ _ _ _ t) by done.
        repeat case_match; simpl; eauto.
      * left. unfold TicketController.addComment.
        rewrite try_catch_run, Ev.
        destruct (bool_decide (a_role u = customer) && default false _);
          [done|].
        by rewrite bind_run, getTicketById_run, Ht.
    + left. unfold TicketController.addComment.
      by rewrite try_catch_run, Ev.
  - left. unfold TicketController.addComment. by rewrite try_catch_run, Ev.
Qed.

Lemma ctl_updateTicket_tickets now user id body s :
  tickets (TicketController.updateTicket now user id body s).2 = tickets s
  ∨ ∃ t, tickets s !! id = Some t
      ∧ TicketController.updateTicketValidation body = []
      ∧ tickets (TicketController.updateTicket now user id body s).2
        = <[id := apply_set now (p_status body)
                    (set_of_patch (stamped now t body)) t]> (tickets s).
Proof.
  destruct (TicketController.updateTicketValidation body) as [|e es] eqn:Ev.
  - destruct (tickets s !! id) as [t|] eqn:Ht.
    + rewrite (ctl_updateTicket_run _ _ _ _ _ t) by done.
      repeat case_match; simpl; eauto.
    + left. unfold TicketController.updateTicket.
      by rewrite try_catch_run, Ev, bind_run, getTicketById_run, Ht.
  - left. unfold TicketController.updateTicket.
    by rewrite try_catch_run, Ev.
Qed.

Lemma put_assign_answer now user id assigneeId s :
  ∃ res, TicketRoutes.put_assign now user id assigneeId s = (Ok res, s)
    ∧ res_status res =
        match user with
        | None => 401
        | Some u =>
          if bool_decide (a_role u = customer) then 403
          else match assigneeId with Some _ => 500 | None => 400 end
        end.
Proof.
  unfold TicketRoutes.put_assign.
  destruct user as [u|]; [|by eexists].
  case_bool_decide as Hrole.
  - rewrite authorizeRoles_refuses; [by eexists|].
    rewrite Hrole, !elem_of_cons, elem_of_nil. by intros [?|[?|?]].
  - rewrite authorizeRoles_admits
      by (destruct (a_role u); [by left|by right; left|done]).
    unfold TicketController.assignTicket. rewrite try_catch_run.
    destruct assigneeId as [a|];
      cbn [TicketController.assignTicketValidation]; [|by eexists].
    rewrite bind_run, assignTicket_run. by eexists.
Qed.

Lemma put_queue_tickets now user id queueId s :
  tickets (TicketRoutes.put_queue now user id queueId s).2 = tickets s
  ∨ ∃ t q, tickets s !! id = Some t
      ∧ tickets (TicketRoutes.put_queue now user id queueId s).2
        = <[id := requeued now q t]> (tickets s).
Proof.
  unfold TicketRoutes.put_queue.
  destruct (authorizeRoles _ user) as [[code message]|]; [by left|].
  unfold TicketController.moveTicketQueue. rewrite try_catch_run.
  destruct queueId as [q|];
    cbn [TicketController.moveTicketQueueValidation]; [|by left].
  rewrite bind_run, moveToQueue_run.
  destruct (queues s !! q); [|by left].
  destruct (tickets s !! id) as [t|] eqn:Ht; [|by left].
  right. by exists t, q.
Qed.

Lemma enums_hold_insert (s s' : Store) i t :
  tickets s' = <[i := t]> (tickets s) → enums_ok t →
  enums_hold s → enums_hold s'.
Proof.
  intros Ht Hok Hinv j tj. rewrite Ht, lookup_insert.
  case_decide; [by intros [= <-]|apply Hinv].
Qed.

Lemma enums_hold_same (s s' : Store) :
  tickets s' = tickets s → enums_hold s → enums_hold s'.
Proof. intros Ht Hinv j tj. rewrite Ht. apply Hinv. Qed.

Lemma serve_enums s req : enums_hold s → enums_hold (serve s req).
Proof.
  intros Hinv.
  destruct req as [now user body|now user id body|now user id body
                  |now user id assigneeId|now user id queueId];
    cbn [serve].
  - rewrite ctl_createTicket_run.
    destruct (TicketController.createTicketValidation body); [|done].
    destruct user as [u|]; [|done].
    destruct (TicketService.createTicket now (ticket_data_of u body) s)
      as [[ticket|e] s'] eqn:E;
      apply createTicket_result in E as (_ & _ & HE); simpl.
    + destruct HE as ((_ & _ & Hp) & (queue & Hdoc) & Ht & _).
      eapply enums_hold_insert; [exact Ht| |done].
      rewrite Hdoc. split; simpl.
      * unfold statuses. set_solver.
      * by apply includes_true.
    + by eapply enums_hold_same.
  - destruct (ctl_updateTicket_tickets now user id body s)
      as [Hsame|(t & Ht & Hv & Hins)].
    + by eapply enums_hold_same.
    + eapply enums_hold_insert; [exact Hins| |done].
      apply enums_ok_apply_set; [done|]. by eapply Hinv.
  - destruct (ctl_addComment_tickets now user id body s)
      as [Hsame|(t & c & Ht & Hins)].
    + by eapply enums_hold_same.
    + eapply enums_hold_insert; [exact Hins| |done]. exact (Hinv id t Ht).
  - destruct (put_assign_answer now user id assigneeId s) as (res & -> & _).
    done.
  - destruct (put_queue_tickets now user id queueId s)
      as [Hsame|(t & q & Ht & Hins)].
    + by eapply enums_hold_same.
    + eapply enums_hold_insert; [exact Hins| |done]. exact (Hinv id t Ht).
Qed.

(** X21.  If the status and the priority of every stored ticket are
    values of their enumerations, they still are after any sequence of
    requests to POST /, PUT /:id, POST /:id/comments, PUT /:id/assign
    and PUT /:id/queue, whoever sends them and whatever the bodies are. *)
Theorem requests_keep_enumerations (reqs : list TicketRequest) (s : Store)
    (Hinv : enums_hold s) :
  enums_hold (serve_all reqs s).
Proof.
  unfold serve_all. revert s Hinv.
  induction reqs as [|req reqs IH]; intros s Hinv; simpl; [done|].
  apply IH. by apply serve_enums.
Qed.

Lemma requests_keep_enumerations_witness :
  enums_hold first_ticket_filed
  ∧ enums_hold (serve_all busy_hour first_ticket_filed)
  ∧ (t_status <$> (tickets (serve_all busy_hour first_ticket_filed) !! 101))
    = Some "resolved"
  ∧ size (tickets (serve_all busy_hour first_ticket_filed)) = 2.
Proof.
  assert (Hinv : enums_hold first_ticket_filed).
  { intros i t.
    change (tickets first_ticket_filed)
      with (<[101 := first_ticket]> (∅ : gmap Id Ticket)).
    rewrite lookup_insert. case_decide; [|by rewrite lookup_empty].
    intros [= <-]. split; apply includes_true; reflexivity. }
  split_and!; [exact Hinv| |reflexivity|reflexivity].
  apply (requests_keep_enumerations busy_hour first_ticket_filed Hinv).
Defined.

(** X22.  PUT /:id/assign never changes the store.  It answers 401
    without a user, 403 to a customer, 400 to an agent or admin who sends
    no assigneeId, and 500 to an agent or admin who sends one. *)
Theorem assign_route_never_assigns (now : Time) (user : option Actor)
    (id : Id) (assigneeId : option Id) (s : Store) :
  ∃ res,
    TicketRoutes.put_assign now user id assigneeId s = (Ok res, s)
    ∧ (user = None → res_status res = 401)
    ∧ (∀ u, user = Some u → a_role u = customer → res_status res = 403)
    ∧ (∀ u, user = Some u → a_role u ≠ customer → assigneeId = None →
         res_status res = 400)
    ∧ (∀ u, user = Some u → a_role u ≠ customer → is_Some assigneeId →
         res_status res = 500).
Proof.
  destruct (put_assign_answer now user id assigneeId s) as (res & Hrun & Hst).
  exists res. split; [done|]. rewrite Hst. split_and!.
  - by intros ->.
  - intros u -> Hrole. by rewrite bool_decide_eq_true_2.
  - intros u -> Hrole ->. by rewrite bool_decide_eq_false_2.
  - intros u -> Hrole [a ->]. by rewrite bool_decide_eq_false_2.
Qed.

Lemma assign_route_never_assigns_witness :
  a_role carol_actor ≠ customer
  ∧ is_Some (Some 3 : option Id)
  ∧ tickets first_ticket_filed !! 101 = Some first_ticket
  ∧ ∃ res,
      TicketRoutes.put_assign 5 (Some carol_actor) 101 (Some 3)
        first_ticket_filed
      = (Ok res, first_ticket_filed)
      ∧ res_status res = 500.
Proof.
  assert (Hstaff : a_role carol_actor ≠ customer) by discriminate.
  assert (Hid : is_Some (Some 3 : option Id)) by by eexists.
  split_and!; [exact Hstaff|exact Hid|reflexivity|].
  destruct (assign_route_never_assigns 5 (Some carol_actor) 101 (Some 3)
              first_ticket_filed) as (res & Hrun & _ & _ & _ & H500).
  exists res. split; [exact Hrun|].
  apply (H500 carol_actor eq_refl Hstaff Hid).
Defined.

(** X23.  A comment with content, not flagged internal, posted by an
    agent or admin on any stored ticket or by a customer on a ticket of
    their own, is answered 200 with the stored ticket: the comment is
    appended with the authenticated user as author, isInternal = false
    (also when the flag is absent) and the current time, and the status
    and the assignee of the ticket stay as they were. *)
Theorem public_comment_is_recorded (now : Time) (u : Actor) (id : Id)
    (t : Ticket) (s : Store) (body : TicketController.CommentBody)
    (content : string)
    (Ht : tickets s !! id = Some t)
    (Hallowed : a_role u ≠ customer ∨ t_customer t = a_id u)
    (Hcontent : TicketController.b_content body = Some content)
    (Hfilled : content ≠ "")
    (Hpublic : TicketController.b_isInternal body ≠ Some true) :
  let comment :=
    {| c_content := content; c_author := a_id u; c_isInternal := false;
       c_createdAt := now |} in
  ∃ ticket,
    TicketController.addComment now (Some u) id body s
    = (Ok {| res_status := 200; res_body := body_ticket ticket |},
       set_tickets <[id := tk_doc ticket]> s)
    ∧ tk_id ticket = id
    ∧ t_comments (tk_doc ticket) = t_comments t ++ [comment]
    ∧ t_status (tk_doc ticket) = t_status t
    ∧ t_assignee (tk_doc ticket) = t_assignee t
    ∧ t_updatedAt (tk_doc ticket) = now.
Proof.
  intros comment.
  assert (Hflag : default false (TicketController.b_isInternal body) = false)
    by by destruct (TicketController.b_isInternal body) as [[|]|].
  rewrite (ctl_addComment_run _ _ _ _ _ t); [|
    unfold TicketController.addCommentValidation, truthy;
    by rewrite Hcontent, bool_decide_eq_false_2|done].
  rewrite Hflag, andb_false_r.
  assert (bool_decide (a_role u = customer)
          && other_customer (populate s id t) (Some u) = false) as ->.
  { destruct Hallowed as [Hstaff|Hown].
    - by rewrite bool_decide_eq_false_2.
    - by rewrite other_customer_owner, andb_false_r. }
  cbv zeta. rewrite Hcontent.
  exists (populate s id (apply_push now comment t)). split; [reflexivity|].
  done.
Qed.

Lemma public_comment_is_recorded_witness :
  tickets first_ticket_filed !! 101 = Some first_ticket
  ∧ (a_role alice_actor ≠ customer ∨ t_customer first_ticket = a_id alice_actor)
  ∧ TicketController.b_content public_note = Some "Any news?"
  ∧ "Any news?" ≠ ""
  ∧ TicketController.b_isInternal public_note ≠ Some true
  ∧ ∃ ticket s',
      TicketController.addComment 5 (Some alice_actor) 101 public_note
        first_ticket_filed
      = (Ok {| res_status := 200; res_body := body_ticket ticket |}, s')
      ∧ t_comments (tk_doc ticket)
        = [{| c_content := "Any news?"; c_author := 1; c_isInternal := false;
              c_createdAt := 5 |}].
Proof.
  assert (Hown : a_role alice_actor ≠ customer
                 ∨ t_customer first_ticket = a_id alice_actor)
    by (right; reflexivity).
  assert (Hfilled : "Any news?" ≠ "") by discriminate.
  assert (Hpublic : TicketController.b_isInternal public_note ≠ Some true)
    by discriminate.
  split_and!; [reflexivity|exact Hown|reflexivity|exact Hfilled|exact Hpublic|].
  destruct (public_comment_is_recorded 5 alice_actor 101 first_ticket
              first_ticket_filed public_note "Any news?" eq_refl Hown eq_refl
              Hfilled Hpublic) as (ticket & Hrun & _ & Hcomments & _).
  exists ticket, (set_tickets <[101 := tk_doc ticket]> first_ticket_filed).
  split; [exact Hrun|exact Hcomments].
Defined.
